(** * Murmur: session orchestration, capture, insertion chain and transport

    A shallow embedding of the voice-dictation daemon:
    - [whisper_daemon/text_injector.py]  (module [TextInjector]),
    - [murmur_daemon/audio_capture.py]   (module [AudioCapture]),
    - [murmur_daemon/transcriber.py]     (module [Transcriber], the one-shot path),
    - [whisper_daemon/ipc_server.py]     (module [IPCServer]),
    - [murmur_daemon/daemon.py]          (module [Daemon]).

    Around them, with properties of their own:
    - [TextInjector.get_status]          (module [TextInjectorStatus]),
    - [AudioLevelMonitor]                (module [AudioLevelMonitor]),
    - [murmur_daemon/config.py]          (module [Config]),
    - the signal callbacks of the daemon (module [DaemonCallbacks]),
    - the whole class [Transcriber], with the life cycle of the model and
      the streaming path               (module [StreamingTranscriber]),
    - [whisper_gui/waveform.py]          (module [WaveformWidget]).

    Python methods become functions in a state-and-exception monad: a raised
    exception keeps the mutations made so far, as in Python.  Everything the
    repository does not implement (clipboard, subprocesses, the audio driver,
    the speech classifier, the Whisper model, Qt signals, sockets, the clock,
    the JSON and UTF-8 codecs) is an oracle of the environment [Env]; every
    call to one of them is recorded in a trace, so that "is not invoked" is a
    statement about that trace.  Logging is not modelled. *)

From Stdlib Require Import ZArith List String Ascii Bool Lia.
From Stdlib Require Import Floats.SpecFloat.
From stdpp Require Import gmap strings pretty.
Import ListNotations.

Open Scope string_scope.

(** ** Python values shared by all modules *)

(** Exception classes that occur in the embedded code. *)
Inductive exn_class :=
| Exception | RuntimeError | ValueError | TypeError | AttributeError
| UnicodeDecodeError | JSONDecodeError | TimeoutExpired | CalledProcessError
| PortAudioError | OSError | ImportError.

(** An exception object: its class, the text [str(e)] gives, and the [stderr]
    attribute ([CalledProcessError] only, empty otherwise). *)
Record exn := mk_exn {
  exn_cls : exn_class;
  exn_str : string;
  exn_stderr : list Byte.byte
}.

Definition new_exn (c : exn_class) (msg : string) : exn := mk_exn c msg [].

Definition exn_class_eqb (a b : exn_class) : bool :=
  match a, b with
  | Exception, Exception | RuntimeError, RuntimeError | ValueError, ValueError
  | TypeError, TypeError | AttributeError, AttributeError
  | UnicodeDecodeError, UnicodeDecodeError | JSONDecodeError, JSONDecodeError
  | TimeoutExpired, TimeoutExpired | CalledProcessError, CalledProcessError
  | PortAudioError, PortAudioError | OSError, OSError
  | ImportError, ImportError => true
  | _, _ => false
  end.

(** [issubclass]: [json.JSONDecodeError] and [UnicodeDecodeError] derive from
    [ValueError]; everything derives from [Exception]. *)
Definition exn_isinstance (e : exn) (c : exn_class) : bool :=
  match c with
  | Exception => true
  | ValueError =>
      match exn_cls e with
      | ValueError | JSONDecodeError | UnicodeDecodeError => true
      | _ => false
      end
  | _ => exn_class_eqb (exn_cls e) c
  end.

Inductive outcome (A : Type) :=
| Ok (a : A)
| Raise (e : exn).
Arguments Ok {A} a.
Arguments Raise {A} e.

(** JSON values as [json.loads] builds them; an object is a [dict]. *)
#[warnings="-register-all"]
Inductive json :=
| JNull
| JBool (b : bool)
| JInt (z : Z)
| JFloat (repr : string)
| JStr (s : string)
| JArr (l : list json)
| JObj (m : gmap string json).

(** ** The state-and-exception monad *)

Definition M (S A : Type) : Type := S -> outcome A * S.

Definition ret {S A} (a : A) : M S A := fun s => (Ok a, s).

Definition bind {S A B} (m : M S A) (k : A -> M S B) : M S B :=
  fun s => match m s with
           | (Ok a, s') => k a s'
           | (Raise e, s') => (Raise e, s')
           end.

Definition raise {S A} (e : exn) : M S A := fun s => (Raise e, s).

(** [try: m  except c as e: h e] *)
Definition try_except {S A} (m : M S A) (c : exn_class) (h : exn -> M S A) : M S A :=
  fun s => match m s with
           | (Raise e, s') => if exn_isinstance e c then h e s' else (Raise e, s')
           | r => r
           end.

(** [try: m] followed by several [except] clauses: the first clause whose
    class matches handles the exception; what a handler raises is not offered
    to the clauses after it. *)
Fixpoint first_clause {S A} (clauses : list (exn_class * (exn -> M S A))) (e : exn)
    : M S A :=
  match clauses with
  | [] => raise e
  | (c, h) :: rest => if exn_isinstance e c then h e else first_clause rest e
  end.

Definition try_excepts {S A} (m : M S A) (clauses : list (exn_class * (exn -> M S A)))
    : M S A :=
  fun s => match m s with
           | (Raise e, s') => first_clause clauses e s'
           | r => r
           end.

(** [try: m  finally: f] *)
Definition try_finally {S A} (m : M S A) (f : M S unit) : M S A :=
  fun s => match m s with
           | (r, s') => match f s' with
                        | (Ok _, s'') => (r, s'')
                        | (Raise e, s'') => (Raise e, s'')
                        end
           end.

Definition gets {S A} (f : S -> A) : M S A := fun s => (Ok (f s), s).
Definition modify {S} (f : S -> S) : M S unit := fun s => (Ok tt, f s).

(** Run a method of a component stored in a field of the caller. *)
Definition zoom {S T A} (get : S -> T) (set : T -> S -> S) (m : M T A) : M S A :=
  fun s => match m (get s) with (r, t') => (r, set t' s) end.

Declare Scope py_scope.
Delimit Scope py_scope with py.
Notation "x <- m ;; k" := (bind m (fun x => k))
  (at level 100, m at next level, right associativity) : py_scope.
Notation "m ;;; k" := (bind m (fun _ => k))
  (at level 100, right associativity) : py_scope.
Open Scope py_scope.

(** ** Python string helpers *)

(** A [str] is held as the bytes of its UTF-8 encoding, which is what a
    string literal of this file holds.  The characters of which
    [str.isspace] is true, the blanks of [str.strip()] and [str.split()],
    are U+0009..U+000D and U+001C..U+0020 (one byte each), U+0085 and
    U+00A0 (two bytes), U+1680, U+2000..U+200A, U+2028, U+2029, U+202F,
    U+205F and U+3000 (three bytes).  [blank1], [blank2] and [blank3]
    recognise their encodings. *)
Definition blank1 (a : ascii) : bool :=
  let x := nat_of_ascii a in
  ((9 <=? x) && (x <=? 13) || (28 <=? x) && (x <=? 32))%nat.

Definition blank2 (a b : ascii) : bool :=
  let x := nat_of_ascii a in
  let y := nat_of_ascii b in
  ((x =? 194) && ((y =? 133) || (y =? 160)))%nat.

Definition blank3 (a b c : ascii) : bool :=
  let x := nat_of_ascii a in
  let y := nat_of_ascii b in
  let z := nat_of_ascii c in
  ((x =? 225) && (y =? 154) && (z =? 128)
   || (x =? 226) && (y =? 128)
      && ((128 <=? z) && (z <=? 138) || (z =? 168) || (z =? 169) || (z =? 175))
   || (x =? 226) && (y =? 129) && (z =? 159)
   || (x =? 227) && (y =? 128) && (z =? 128))%nat.

(** The number of bytes of the blank character the string starts with,
    [0] when it starts with none. *)
Definition blank_width (s : string) : nat :=
  match s with
  | String a r =>
      if blank1 a then 1
      else
        match r with
        | String b r2 =>
            if blank2 a b then 2
            else
              match r2 with
              | String c _ => if blank3 a b c then 3 else 0
              | EmptyString => 0
              end
        | EmptyString => 0
        end
  | EmptyString => 0
  end.

(** [s.lstrip()] *)
Fixpoint lstrip (s : string) : string :=
  match s with
  | EmptyString => EmptyString
  | String _ r =>
      match blank_width s with
      | 0 => s
      | 1 => lstrip r
      | 2 => match r with String _ r2 => lstrip r2 | _ => s end
      | _ => match r with String _ (String _ r3) => lstrip r3 | _ => s end
      end
  end.

(** [True] when the string has a non-blank character, i.e. when
    [s.strip()] is non-empty. *)
Definition strip_nonempty (s : string) : bool :=
  match lstrip s with EmptyString => false | _ => true end.

(** [len(s.split())]: the number of maximal runs of non-blank characters. *)
Fixpoint count_words (in_word : bool) (s : string) : nat :=
  match s with
  | EmptyString => 0
  | String _ r =>
      match blank_width s with
      | 0 => if in_word then count_words true r else S (count_words true r)
      | 1 => count_words false r
      | 2 => match r with String _ r2 => count_words false r2 | _ => 0 end
      | _ => match r with String _ (String _ r3) => count_words false r3 | _ => 0 end
      end
  end.

Definition len_split (s : string) : nat := count_words false s.

Definition str_nonempty (s : string) : bool :=
  match s with EmptyString => false | _ => true end.

(** [needle in haystack] *)
Fixpoint str_prefix (p s : string) : bool :=
  match p, s with
  | EmptyString, _ => true
  | String a p', String b s' => if Ascii.eqb a b then str_prefix p' s' else false
  | _, _ => false
  end.

Fixpoint str_contains (needle haystack : string) : bool :=
  str_prefix needle haystack ||
  match haystack with
  | EmptyString => false
  | String _ r => str_contains needle r
  end.

(** ** The environment: everything outside the repository *)

Section World.
Context {sample time : Type}.

(** One element of [AudioCapture.audio_buffer]: a scalar sample when the
    stream is mono, a row of samples (one per channel) otherwise. *)
Inductive bufitem :=
| Mono (s : sample)
| Multi (row : list sample).

(** The Qt signals of [WhisperDaemon]. *)
Inductive gui_signal :=
| show_window_signal
| hide_window_signal
| update_transcription_signal (text : string) (is_final : bool)
| update_waveform_signal (audio_data : list bufitem).

(** Calls that leave the process, newest first in the trace. *)
Inductive Event :=
| EvClipboardCopy (text : string)
| EvSubprocessRun (argv : list string)
| EvStreamOpen
| EvStreamStart
| EvStreamStop
| EvStreamClose
| EvThreadStart
| EvThreadJoin
| EvVadIsSpeech (frame : list Z) (rate : Z)
| EvModelTranscribe (audio : list bufitem)
| EvSignalEmit (sig : gui_signal)
| EvTimerStart.

(** What [subprocess.run] observes of the child. *)
Inductive proc_result :=
| Completed (returncode : Z) (stderr : list Byte.byte)
| TimedOut
| SpawnFailed (e : exn).

Record Env := {
  (** [time.time()], by the number of earlier readings; float subtraction; [0] *)
  time_time : nat -> time;
  time_sub : time -> time -> time;
  time_zero : time;
  (** [pyperclip.copy] *)
  pyperclip_copy : list Event -> string -> outcome unit;
  (** the child process of [subprocess.run] and the text of the
      [CalledProcessError] it raises under [check=True] *)
  child_process : list Event -> list string -> proc_result;
  called_process_error_str : list string -> Z -> string;
  (** [bytes.decode()] and [json.loads] *)
  bytes_decode : list Byte.byte -> outcome string;
  json_loads : string -> outcome json;
  (** [sd.InputStream(...)], [stream.start()], [stream.stop()],
      [stream.close()] *)
  sd_InputStream : list Event -> outcome unit;
  sd_stream_start : list Event -> outcome unit;
  sd_stream_stop : list Event -> outcome unit;
  sd_stream_close : list Event -> outcome unit;
  (** [(x * 32767).astype(np.int16)] on one sample *)
  astype_int16 : sample -> Z;
  (** [webrtcvad.Vad.is_speech] *)
  vad_is_speech : list Event -> list Z -> Z -> outcome bool;
  (** [WhisperModel.transcribe]: the texts of the segments *)
  model_transcribe : list Event -> list bufitem -> outcome (list string);
  (** [pyqtSignal.emit] *)
  signal_emit : list Event -> gui_signal -> outcome unit;
  (** [psutil.Process(os.getpid()).memory_info().rss] in MB, or the
      [ImportError] of [import psutil] *)
  psutil_rss_mb : outcome Z;
  (** how many iterations of the streaming thread run while [stop] joins it *)
  join_iterations : list Event -> nat;
  (** [str(e)] for the [TypeError] of a call that unpacks [args] as keyword
      arguments: when [args] is not a mapping, the text that names the
      callable and the type of [args] ("... argument after ** must be a
      mapping, not ..."), by the command the handler is registered under
      and [args]; when the function takes no keyword argument, the text
      that names the function and the keyword ("... got an unexpected
      keyword argument ..."), by the name of the function and the
      arguments *)
  not_a_mapping_str : json -> json -> string;
  unexpected_keyword_str : string -> gmap string json -> string
}.

(** The part of the process state that is not a field of an object. *)
Record Amb := mk_amb {
  trace : list Event;
  clock_reads : nat
}.

Definition W (Obj : Type) : Type := Obj * Amb.

Variable E : Env.

(** An external call: recorded, then answered from the history before it. *)
Definition external {Obj A} (ev : Event) (answer : list Event -> outcome A)
  : M (W Obj) A :=
  fun '(o, a) =>
    (answer (trace a), (o, mk_amb (ev :: trace a) (clock_reads a))).

Definition time_now {Obj} : M (W Obj) time :=
  fun '(o, a) =>
    (Ok (time_time E (clock_reads a)), (o, mk_amb (trace a) (S (clock_reads a)))).

Definition self {Obj A} (f : Obj -> A) : M (W Obj) A :=
  fun '(o, a) => (Ok (f o), (o, a)).

Definition update {Obj} (f : Obj -> Obj) : M (W Obj) unit :=
  fun '(o, a) => (Ok tt, (f o, a)).

(** Call a method of the component held in a field. *)
Definition on_field {Obj Comp A} (get : Obj -> Comp) (set : Comp -> Obj -> Obj)
    (m : M (W Comp) A) : M (W Obj) A :=
  zoom (fun '(o, a) => (get o, a)) (fun '(c, a') '(o, _) => (set c o, a')) m.

(** [subprocess.run(argv, check=..., capture_output=True, timeout=...)],
    returning the return code. *)
Definition subprocess_run {Obj} (argv : list string) (check : bool) : M (W Obj) Z :=
  r <- external (EvSubprocessRun argv) (fun h => Ok (child_process E h argv)) ;;
  match r with
  | Completed rc err =>
      if check && negb (rc =? 0)%Z
      then raise (mk_exn CalledProcessError (called_process_error_str E argv rc) err)
      else ret rc
  | TimedOut => raise (new_exn TimeoutExpired "Command timed out")
  | SpawnFailed e => raise e
  end.

Definition pyperclip_copy_ {Obj} (text : string) : M (W Obj) unit :=
  external (EvClipboardCopy text) (fun h => pyperclip_copy E h text).

Definition emit {Obj} (sig : gui_signal) : M (W Obj) unit :=
  external (EvSignalEmit sig) (fun h => signal_emit E h sig).

End World.

Arguments bufitem : clear implicits.
Arguments gui_signal : clear implicits.
Arguments Event : clear implicits.
Arguments Env : clear implicits.
Arguments Amb : clear implicits.
Arguments W : clear implicits.

(** ** whisper_daemon/text_injector.py *)

Module TextInjector.

Inductive InsertionMethod := DIRECT | AUTO_PASTE | CLIPBOARD.

Definition value (m : InsertionMethod) : string :=
  match m with
  | DIRECT => "direct"
  | AUTO_PASTE => "auto_paste"
  | CLIPBOARD => "clipboard"
  end.

Record t := mk {
  preferred_method : string;
  _ydotool_available : bool;
  _last_method_used : option InsertionMethod
}.

Definition set_last_method_used (m : InsertionMethod) (s : t) : t :=
  mk (preferred_method s) (_ydotool_available s) (Some m).

Section Methods.
Context {sample time : Type} (E : Env sample time).

(** [_check_ydotool], run before the object exists. *)
Definition _check_ydotool : M (W sample unit) bool :=
  try_except
    (rc <- subprocess_run E ["which"; "ydotool"] false ;;
     ret (rc =? 0)%Z)
    Exception (fun _ => ret false).

Definition __init__ (preferred : string) (a : Amb sample) : t * Amb sample :=
  match _check_ydotool (tt, a) with
  | (Ok b, (_, a')) => (mk preferred b None, a')
  | (Raise _, (_, a')) => (mk preferred false None, a')
  end.

(** The body shared by the [CalledProcessError] handlers:
    [logger.error(f"... {e.stderr.decode() if e.stderr else str(e)}")]
    evaluates the f-string, whose [decode] can raise. *)
Definition log_called_process_error (e : exn) : M (W sample t) unit :=
  match exn_stderr e with
  | [] => ret tt
  | err => match bytes_decode E err with
           | Ok _ => ret tt
           | Raise e' => raise e'
           end
  end.

Definition _insert_direct (text : string) : M (W sample t) bool :=
  avail <- self _ydotool_available ;;
  if negb avail then ret false
  else
    try_excepts
      (pyperclip_copy_ E text ;;;
       subprocess_run E ["ydotool"; "type"; text] true ;;;
       ret true)
      [ (TimeoutExpired, fun _ => ret false);
        (CalledProcessError, fun e => log_called_process_error e ;;; ret false);
        (Exception, fun _ => ret false) ].

Definition _insert_auto_paste (text : string) : M (W sample t) bool :=
  avail <- self _ydotool_available ;;
  if negb avail then ret false
  else
    try_excepts
      (pyperclip_copy_ E text ;;;
       subprocess_run E ["ydotool"; "key"; "29:1"; "47:1"; "47:0"; "29:0"] true ;;;
       ret true)
      [ (TimeoutExpired, fun _ => ret false);
        (CalledProcessError, fun e => log_called_process_error e ;;; ret false);
        (Exception, fun _ => ret false) ].

Definition _insert_clipboard (text : string) : M (W sample t) bool :=
  try_except
    (pyperclip_copy_ E text ;;; ret true)
    Exception (fun _ => ret false).

(** The candidate list of [insert_text]. *)
Definition methods_for (preferred : string) : list InsertionMethod :=
  if String.eqb preferred "auto" then [AUTO_PASTE; DIRECT; CLIPBOARD]
  else if String.eqb preferred "direct" then [DIRECT; AUTO_PASTE; CLIPBOARD]
  else if String.eqb preferred "auto_paste" then [AUTO_PASTE; CLIPBOARD]
  else [CLIPBOARD].

Definition attempt (method : InsertionMethod) (text : string) : M (W sample t) bool :=
  match method with
  | DIRECT => _insert_direct text
  | AUTO_PASTE => _insert_auto_paste text
  | CLIPBOARD => _insert_clipboard text
  end.

(** [str(last_error)] inside the f-string. *)
Definition str_last_error (last_error : option exn) : string :=
  match last_error with
  | None => "None"
  | Some e => exn_str e
  end.

(** The [for method in methods] loop with its [try]/[except]/[continue],
    then the final [raise]. *)
Fixpoint insert_loop (methods : list InsertionMethod) (text : string)
    (last_error : option exn) : M (W sample t) InsertionMethod :=
  match methods with
  | [] =>
      raise (new_exn Exception
               ("All text insertion methods failed. Last error: "
                ++ str_last_error last_error))
  | method :: rest =>
      fun s =>
        match attempt method text s with
        | (Ok true, s') =>
            (update (set_last_method_used method) ;;; ret method) s'
        | (Ok false, s') => insert_loop rest text last_error s'
        | (Raise e, s') => insert_loop rest text (Some e) s'
        end
  end.

Definition insert_text (text : string) : M (W sample t) InsertionMethod :=
  if negb (str_nonempty text) then ret CLIPBOARD
  else
    preferred <- self preferred_method ;;
    insert_loop (methods_for preferred) text None.

Definition get_last_method : M (W sample t) (option InsertionMethod) :=
  self _last_method_used.

End Methods.
End TextInjector.

(** ** Python numbers and sequences *)

(** Binary64, as [float]. *)
Definition prec : Z := 53.
Definition emax : Z := 1024.

Definition float_of_int (z : Z) : spec_float := binary_normalize prec emax z 0 false.

(** [a / b] on two [int]s: the correctly rounded quotient. *)
Definition true_divide (a b : Z) : spec_float :=
  SFdiv prec emax (float_of_int a) (float_of_int b).

(** The literal [0.15]: the double nearest to 15/100. *)
Definition float_0_15 : spec_float := S754_finite false 5404319552844595 (-55).

(** [x >= y] on floats. *)
Definition float_ge (x y : spec_float) : bool := SFleb y x.

(** [int(x)] on a finite float: truncation towards zero. *)
Definition int_of_float (x : spec_float) : Z :=
  match x with
  | S754_finite s m e =>
      let a := if (0 <=? e)%Z then (Zpos m * 2 ^ e)%Z else (Zpos m / 2 ^ (- e))%Z in
      if s then (- a)%Z else a
  | _ => 0%Z
  end.

Definition len {A} (l : list A) : Z := Z.of_nat (length l).

(** A slice bound as Python clips it. *)
Definition clip_index {A} (l : list A) (k : Z) : nat :=
  Z.to_nat (if (k <? 0)%Z then Z.max 0 (len l + k) else Z.min k (len l)).

(** [l[a:b]], [l[:b]] and [l[a:]] *)
Definition py_slice {A} (l : list A) (a b : Z) : list A :=
  firstn (clip_index l b - clip_index l a) (skipn (clip_index l a) l).
Definition slice_to {A} (l : list A) (b : Z) : list A := firstn (clip_index l b) l.
Definition slice_from {A} (l : list A) (a : Z) : list A := skipn (clip_index l a) l.

(** [range(start, stop, step)] *)
Definition py_range (start stop step : Z) : outcome (list Z) :=
  if (step =? 0)%Z then Raise (new_exn ValueError "range() arg 3 must not be zero")
  else
    let n := if (0 <? step)%Z
             then Z.max 0 ((stop - start + step - 1) / step)
             else Z.max 0 ((start - stop - step - 1) / (- step)) in
    Ok (map (fun k => (start + Z.of_nat k * step)%Z) (seq 0 (Z.to_nat n))).

(** ** murmur_daemon/audio_capture.py *)

Module AudioCapture.

(** The arguments [start] gives to [sd.InputStream]. *)
Record InputStream := mk_stream {
  samplerate : Z;
  stream_channels : Z;
  device : option Z;
  blocksize : Z
}.

(** [threading.Thread]: what [is_alive()] answers. *)
Record Thread := mk_thread { is_alive : bool }.

Section Fields.
Context {sample time : Type}.

Record t := mk {
  sample_rate : Z;
  channels : Z;
  chunk_duration : spec_float;
  device_index : option Z;
  vad_frame_duration : Z;
  stream : option InputStream;
  recording : bool;
  audio_buffer : list (bufitem sample);
  capture_thread : option Thread;
  chunk_callback :
    option (list (bufitem sample) -> time -> M (Amb sample) unit);
  waveform_callback :
    option (list (bufitem sample) -> M (Amb sample) unit);
  start_time : time;
  total_chunks : Z;
  voiced_frames : Z;
  total_frames : Z
}.

Definition set_stream (x : option InputStream) (s : t) : t :=
  mk (sample_rate s) (channels s) (chunk_duration s) (device_index s)
     (vad_frame_duration s) x (recording s) (audio_buffer s)
     (capture_thread s) (chunk_callback s) (waveform_callback s)
     (start_time s) (total_chunks s) (voiced_frames s) (total_frames s).

Definition set_recording (x : bool) (s : t) : t :=
  mk (sample_rate s) (channels s) (chunk_duration s) (device_index s)
     (vad_frame_duration s) (stream s) x (audio_buffer s)
     (capture_thread s) (chunk_callback s) (waveform_callback s)
     (start_time s) (total_chunks s) (voiced_frames s) (total_frames s).

Definition set_audio_buffer (x : list (bufitem sample)) (s : t) : t :=
  mk (sample_rate s) (channels s) (chunk_duration s) (device_index s)
     (vad_frame_duration s) (stream s) (recording s) x
     (capture_thread s) (chunk_callback s) (waveform_callback s)
     (start_time s) (total_chunks s) (voiced_frames s) (total_frames s).

Definition set_capture_thread (x : option Thread) (s : t) : t :=
  mk (sample_rate s) (channels s) (chunk_duration s) (device_index s)
     (vad_frame_duration s) (stream s) (recording s) (audio_buffer s)
     x (chunk_callback s) (waveform_callback s)
     (start_time s) (total_chunks s) (voiced_frames s) (total_frames s).

Definition set_chunk_callback
    (x : option (list (bufitem sample) -> time -> M (Amb sample) unit)) (s : t) : t :=
  mk (sample_rate s) (channels s) (chunk_duration s) (device_index s)
     (vad_frame_duration s) (stream s) (recording s) (audio_buffer s)
     (capture_thread s) x (waveform_callback s)
     (start_time s) (total_chunks s) (voiced_frames s) (total_frames s).

Definition set_waveform_callback
    (x : option (list (bufitem sample) -> M (Amb sample) unit)) (s : t) : t :=
  mk (sample_rate s) (channels s) (chunk_duration s) (device_index s)
     (vad_frame_duration s) (stream s) (recording s) (audio_buffer s)
     (capture_thread s) (chunk_callback s) x
     (start_time s) (total_chunks s) (voiced_frames s) (total_frames s).

Definition set_start_time (x : time) (s : t) : t :=
  mk (sample_rate s) (channels s) (chunk_duration s) (device_index s)
     (vad_frame_duration s) (stream s) (recording s) (audio_buffer s)
     (capture_thread s) (chunk_callback s) (waveform_callback s)
     x (total_chunks s) (voiced_frames s) (total_frames s).

Definition set_total_chunks (x : Z) (s : t) : t :=
  mk (sample_rate s) (channels s) (chunk_duration s) (device_index s)
     (vad_frame_duration s) (stream s) (recording s) (audio_buffer s)
     (capture_thread s) (chunk_callback s) (waveform_callback s)
     (start_time s) x (voiced_frames s) (total_frames s).

Definition set_voiced_frames (x : Z) (s : t) : t :=
  mk (sample_rate s) (channels s) (chunk_duration s) (device_index s)
     (vad_frame_duration s) (stream s) (recording s) (audio_buffer s)
     (capture_thread s) (chunk_callback s) (waveform_callback s)
     (start_time s) (total_chunks s) x (total_frames s).

Definition set_total_frames (x : Z) (s : t) : t :=
  mk (sample_rate s) (channels s) (chunk_duration s) (device_index s)
     (vad_frame_duration s) (stream s) (recording s) (audio_buffer s)
     (capture_thread s) (chunk_callback s) (waveform_callback s)
     (start_time s) (total_chunks s) (voiced_frames s) x.
End Fields.
Arguments t : clear implicits.

Section Methods.
Context {sample time : Type} (E : Env sample time).

Definition __init__ (sample_rate channels : Z) (chunk_duration : spec_float)
    (device_index : option Z) : t sample time :=
  mk sample_rate channels chunk_duration device_index 30
     None false [] None None None (time_zero E) 0 0 0.

(** A callback stored in a field acts on the ambient state only. *)
Definition call_callback (cb : M (Amb sample) unit) : M (W sample (t sample time)) unit :=
  fun '(o, a) => match cb a with (r, a') => (r, (o, a')) end.

(** [int(self.sample_rate * self.vad_frame_duration / 1000)] *)
Definition frame_samples_of (s : t sample time) : Z :=
  int_of_float (true_divide (sample_rate s * vad_frame_duration s) 1000).

(** [int(self.sample_rate * self.chunk_duration)] *)
Definition chunk_samples_of (s : t sample time) : Z :=
  int_of_float (SFmul prec emax (float_of_int (sample_rate s)) (chunk_duration s)).

Definition start : M (W sample (t sample time)) unit :=
  rec <- self recording ;;
  if rec then ret tt
  else
    update (set_recording true) ;;;
    update (set_audio_buffer []) ;;;
    now <- time_now E ;;
    update (set_start_time now) ;;;
    update (set_total_chunks 0) ;;;
    update (set_voiced_frames 0) ;;;
    update (set_total_frames 0) ;;;
    try_except
      (params <- self (fun s => mk_stream (sample_rate s) (channels s)
                                  (device_index s) (frame_samples_of s)) ;;
       external EvStreamOpen (sd_InputStream E) ;;;
       update (set_stream (Some params)) ;;;
       external EvStreamStart (sd_stream_start E))
      Exception
      (fun e => update (set_recording false) ;;; raise e) ;;;
    cb <- self chunk_callback ;;
    match cb with
    | Some _ =>
        update (set_capture_thread (Some (mk_thread true))) ;;;
        external EvThreadStart (fun _ => Ok tt)
    | None => ret tt
    end.

(** [indata[:, 0].copy() if self.channels == 1 else indata.copy()];
    a row of [indata] has at least one column. *)
Definition audio_data_of (channels : Z) (indata : list (sample * list sample))
    : list (bufitem sample) :=
  if (channels =? 1)%Z then map (fun row => Mono (fst row)) indata
  else map (fun row => Multi (fst row :: snd row)) indata.

Definition _audio_callback (indata : list (sample * list sample))
    : M (W sample (t sample time)) unit :=
  rec <- self recording ;;
  if negb rec then ret tt
  else
    ch <- self channels ;;
    let audio_data := audio_data_of ch indata in
    update (fun s => set_audio_buffer (audio_buffer s ++ audio_data) s) ;;;
    cb <- self waveform_callback ;;
    match cb with
    | Some f => try_except (call_callback (f audio_data)) Exception (fun _ => ret tt)
    | None => ret tt
    end.

(** The int16 values of one buffer element after
    [(audio_array * 32767).astype(np.int16)]. *)
Definition item_int16 (x : bufitem sample) : list Z :=
  match x with
  | Mono s => [astype_int16 E s]
  | Multi row => map (astype_int16 E) row
  end.

(** [audio_int16[i : i + frame_samples].tobytes()], as the int16 values. *)
Definition frame_at (audio : list (bufitem sample)) (i frame_samples : Z) : list Z :=
  concat (map item_int16 (py_slice audio i (i + frame_samples))).

(** The body of the [for] loop of [_contains_voice] over the remaining
    indices, with the local counters [(voiced_count, frame_count)]. *)
Fixpoint vad_loop (audio : list (bufitem sample)) (frame_samples : Z)
    (indices : list Z) (voiced_count frame_count : Z)
    : M (W sample (t sample time)) (Z * Z) :=
  match indices with
  | [] => ret (voiced_count, frame_count)
  | i :: rest =>
      let frame := frame_at audio i frame_samples in
      fun w =>
        match (rate <- self sample_rate ;;
               external (EvVadIsSpeech frame rate)
                        (fun h => vad_is_speech E h frame rate)) w with
        | (Ok is_speech, w') =>
            (update (fun s => set_total_frames (total_frames s + 1) s) ;;;
             if (is_speech : bool)
             then update (fun s => set_voiced_frames (voiced_frames s + 1) s) ;;;
                  vad_loop audio frame_samples rest (voiced_count + 1) (frame_count + 1)
             else vad_loop audio frame_samples rest voiced_count (frame_count + 1)) w'
        | (Raise _, w') =>
            vad_loop audio frame_samples rest voiced_count frame_count w'
        end
  end.

Definition _contains_voice (audio : list (bufitem sample)) (frame_samples : Z)
    : M (W sample (t sample time)) bool :=
  match py_range 0 (len audio - frame_samples) frame_samples with
  | Raise e => raise e
  | Ok indices =>
      counts <- vad_loop audio frame_samples indices 0 0 ;;
      let '(voiced_count, frame_count) := counts in
      if (frame_count =? 0)%Z then ret false
      else
        let voice_ratio := true_divide voiced_count frame_count in
        ret (float_ge voice_ratio float_0_15)
  end.

(** One pass through the body of the [while] loop of [_process_audio];
    [true] when a chunk was taken from the buffer. *)
Definition _process_audio_body : M (W sample (t sample time)) bool :=
  chunk_samples <- self chunk_samples_of ;;
  frame_samples <- self frame_samples_of ;;
  buf <- self audio_buffer ;;
  if (len buf <? chunk_samples)%Z then ret false
  else
    let chunk := slice_to buf chunk_samples in
    update (set_audio_buffer (slice_from buf chunk_samples)) ;;;
    voiced <- _contains_voice chunk frame_samples ;;
    (if (voiced : bool) then
       cb <- self chunk_callback ;;
       match cb with
       | Some f =>
           try_except
             (now <- time_now E ;;
              t0 <- self start_time ;;
              call_callback (f chunk (time_sub E now t0)) ;;;
              update (fun s => set_total_chunks (total_chunks s + 1) s))
             Exception (fun _ => ret tt)
       | None => ret tt
       end
     else ret tt) ;;;
    ret true.

(** [_process_audio] scheduled for at most [n] passes: the thread ends
    when the loop condition fails or the body raises. *)
Fixpoint _process_audio (n : nat) : M (W sample (t sample time)) unit :=
  match n with
  | O => ret tt
  | S n' =>
      rec <- self recording ;;
      buf <- self audio_buffer ;;
      if rec || (0 <? len buf)%Z then
        try_except (_process_audio_body ;;; _process_audio n')
          Exception
          (fun _ => update (set_capture_thread (Some (mk_thread false))))
      else update (set_capture_thread (Some (mk_thread false)))
  end.

Definition stop : M (W sample (t sample time)) (list (bufitem sample)) :=
  update (set_recording false) ;;;
  st <- self stream ;;
  match st with
  | Some _ =>
      external EvStreamStop (sd_stream_stop E) ;;;
      external EvStreamClose (sd_stream_close E) ;;;
      update (set_stream None)
  | None => ret tt
  end ;;;
  th <- self capture_thread ;;
  match th with
  | Some (mk_thread true) =>
      n <- external EvThreadJoin (fun h => Ok (join_iterations E h)) ;;
      _process_audio n
  | _ => ret tt
  end ;;;
  remaining_audio <- self audio_buffer ;;
  now <- time_now E ;;
  ret remaining_audio.

(** The entries of [get_status] that the daemon or the contract read. *)
Record Status := mk_status {
  status_recording : bool;
  status_duration : time;
  status_chunks_processed : Z;
  status_voice_activity : spec_float;
  status_buffer_size : Z;
  status_sample_rate : Z;
  status_device : option Z
}.

Definition get_status : M (W sample (t sample time)) Status :=
  rec <- self recording ;;
  t0 <- self start_time ;;
  duration <- (if rec then now <- time_now E ;; ret (time_sub E now t0)
               else ret (time_zero E)) ;;
  self (fun s =>
    mk_status (recording s) duration (total_chunks s)
      (true_divide (voiced_frames s) (Z.max (total_frames s) 1))
      (len (audio_buffer s)) (sample_rate s) (device_index s)).

End Methods.
End AudioCapture.

(** ** murmur_daemon/transcriber.py: the one-shot path used by [stop] *)

Module Transcriber.

Record t := mk {
  model_size : string;
  language : string;
  model : bool;              (** [self.model] is not [None] *)
  model_loaded : bool;
  current_transcription : list string
}.

Definition set_current_transcription (x : list string) (s : t) : t :=
  mk (model_size s) (language s) (model s) (model_loaded s) x.

(** [s.rstrip()]: the string without its longest end made of blank
    characters. *)
Fixpoint rstrip (s : string) : string :=
  match s with
  | EmptyString => EmptyString
  | String a r =>
      match lstrip s with
      | EmptyString => EmptyString
      | _ => String a (rstrip r)
      end
  end.

Definition strip (s : string) : string := rstrip (lstrip s).

Section Methods.
Context {sample time : Type} (E : Env sample time).

Definition reset_transcription : M (W sample t) unit :=
  update (set_current_transcription []).

Definition transcribe_full_audio (audio_data : list (bufitem sample))
    : M (W sample t) string :=
  m <- self model ;;
  if negb m then raise (new_exn RuntimeError "Model not loaded")
  else
    start_time <- time_now E ;;
    try_except
      (text_parts <- external (EvModelTranscribe audio_data)
                       (fun h => model_transcribe E h audio_data) ;;
       let text := strip (String.concat " " text_parts) in
       now <- time_now E ;;
       ret text)
      Exception (fun _ => ret "").

End Methods.
End Transcriber.

(** ** whisper_daemon/ipc_server.py: the server side *)

Module IPCServer.

Section Server.
(** [App] is the state the registered handlers act on, [R] what they
    return; [dumps_error] is the [TypeError] of [json.dumps] on a result
    that is not serializable. *)
Context {sample time : Type} (E : Env sample time).
Context {App R : Type} (dumps_error : R -> option exn).

Inductive response :=
| success (result : R)                 (** [{"status": "success", "result": ...}] *)
| error (message : string).            (** [{"status": "error", "message": ...}] *)

(** The connected socket: what [recv] will deliver, the responses
    passed to [sendall] so far (newest first), whether [sendall] fails,
    whether [close] was called. *)
Record socket := mk_socket {
  inbox : outcome (list Byte.byte);
  outbox : list response;
  sendall_error : option exn;
  closed : bool
}.

Definition handler : Type := gmap string json -> M App R.

Record t := mk {
  socket_path : string;
  running : bool;
  command_handlers : gmap string handler
}.

Definition __init__ (socket_path : string) : t := mk socket_path false ∅.

Definition register_handler (command : string) (h : handler) (s : t) : t :=
  mk (socket_path s) (running s) (<[command := h]> (command_handlers s)).

Definition recv (n : nat) : M (socket * App) (list Byte.byte) :=
  fun '(sk, app) =>
    match inbox sk with
    | Ok data => (Ok (firstn n data), (sk, app))
    | Raise e => (Raise e, (sk, app))
    end.

(** [client_socket.sendall(json.dumps(response).encode("utf-8"))] *)
Definition send_response (r : response) : M (socket * App) unit :=
  match (match r with success x => dumps_error x | error _ => None end) with
  | Some e => raise e
  | None =>
      fun '(sk, app) =>
        match sendall_error sk with
        | Some e => (Raise e, (sk, app))
        | None =>
            (Ok tt, (mk_socket (inbox sk) (r :: outbox sk) (sendall_error sk) (closed sk),
                     app))
        end
  end.

Definition close : M (socket * App) unit :=
  fun '(sk, app) =>
    (Ok tt, (mk_socket (inbox sk) (outbox sk) (sendall_error sk) true, app)).

(** [message.get(key)]; anything but a [dict] has no [get]. *)
Definition message_get (message : json) (key : string) (default : json)
    : M (socket * App) json :=
  match message with
  | JObj m => ret (match m !! key with Some v => v | None => default end)
  | _ => raise (new_exn AttributeError "object has no attribute 'get'")
  end.

(** [str(command)] inside the f-string, for the values that can be
    looked up in a [dict]. *)
Definition str_json (v : json) : string :=
  match v with
  | JNull => "None"
  | JBool true => "True"
  | JBool false => "False"
  | JInt z => pretty z
  | JFloat r => r
  | JStr s => s
  | JArr _ | JObj _ => ""
  end.

(** [self.command_handlers.get(command)] *)
Definition lookup_handler (self : t) (command : json)
    : M (socket * App) (option handler) :=
  match command with
  | JStr name => ret (command_handlers self !! name)
  | JArr _ => raise (new_exn TypeError "unhashable type: 'list'")
  | JObj _ => raise (new_exn TypeError "unhashable type: 'dict'")
  | _ => ret None
  end.

(** The call of the handler registered under [command] with [args]
    unpacked as keyword arguments. *)
Definition call_handler (command : json) (h : handler) (args : json)
    : M (socket * App) R :=
  match args with
  | JObj kwargs =>
      fun '(sk, app) => match h kwargs app with (r, app') => (r, (sk, app')) end
  | _ => raise (new_exn TypeError (not_a_mapping_str E command args))
  end.

Definition decode (data : list Byte.byte) : M (socket * App) string :=
  match bytes_decode E data with
  | Ok s => ret s
  | Raise e => raise e
  end.

Definition loads (data : string) : M (socket * App) json :=
  match json_loads E data with
  | Ok v => ret v
  | Raise e => raise e
  end.

(** The part of [_handle_client] after the request was parsed. *)
Definition dispatch (self : t) (command args : json) : M (socket * App) unit :=
  h <- lookup_handler self command ;;
  response <-
    match h with
    | Some handler =>
        try_except
          (result <- call_handler command handler args ;;
           ret (success result))
          Exception (fun e => ret (error (exn_str e)))
    | None => ret (error ("Unknown command: " ++ str_json command))
    end ;;
  send_response response.

Definition _handle_client (self : t) : M (socket * App) unit :=
  try_finally
    (try_except
       (raw <- recv 4096 ;;
        data <- decode raw ;;
        if negb (str_nonempty data) then ret tt
        else
          fun s =>
            match (message <- loads data ;;
                   command <- message_get message "command" JNull ;;
                   args <- message_get message "args" (JObj ∅) ;;
                   ret (command, args)) s with
            | (Ok (command, args), s') => dispatch self command args s'
            | (Raise e, s') =>
                if exn_isinstance e JSONDecodeError
                then send_response (error "Invalid JSON") s'
                else (Raise e, s')
            end)
       Exception (fun _ => ret tt))
    close.

(** The accept loop over the connections that arrive, each handled to
    completion; what escapes a handling thread ends that thread only. *)
Fixpoint _accept_connections (self : t) (clients : list socket) (app : App)
    : list socket * App :=
  match clients with
  | [] => ([], app)
  | sk :: rest =>
      match _handle_client self (sk, app) with
      | (_, (sk', app')) =>
          let '(done, app'') := _accept_connections self rest app' in
          (sk' :: done, app'')
      end
  end.

End Server.
Arguments response : clear implicits.
Arguments socket : clear implicits.
Arguments handler : clear implicits.
Arguments t : clear implicits.
End IPCServer.

(** ** murmur_daemon/daemon.py *)

Module Daemon.

Inductive SessionState := IDLE | RECORDING | PROCESSING.

Definition value (s : SessionState) : string :=
  match s with
  | IDLE => "idle"
  | RECORDING => "recording"
  | PROCESSING => "processing"
  end.

Definition state_eqb (a b : SessionState) : bool :=
  match a, b with
  | IDLE, IDLE | RECORDING, RECORDING | PROCESSING, PROCESSING => true
  | _, _ => false
  end.

Section Fields.
Context {sample time : Type}.

(** The values stored in the dictionaries the handlers return. *)
#[warnings="-register-all"]
Inductive pyval :=
| VBool (b : bool)
| VInt (z : Z)
| VFloat (x : time)
| VStr (s : string)
| VDict (items : list (string * pyval)).

(** A returned [dict], its items in the order of the literal. *)
Definition result : Type := list (string * pyval).

Fixpoint get (r : result) (key : string) : option pyval :=
  match r with
  | [] => None
  | (k, v) :: rest => if String.eqb k key then Some v else get rest key
  end.

Record t := mk {
  state : SessionState;
  session_start_time : time;
  sessions_count : Z;
  daemon_start_time : time;
  transcriber : Transcriber.t;
  audio_capture : AudioCapture.t sample time;
  text_injector : TextInjector.t;
  gui_window : bool;           (** [self.gui_window] is not [None] *)
  running : bool
}.

Definition set_state (x : SessionState) (d : t) : t :=
  mk x (session_start_time d) (sessions_count d) (daemon_start_time d)
     (transcriber d) (audio_capture d) (text_injector d) (gui_window d) (running d).

Definition set_session_start_time (x : time) (d : t) : t :=
  mk (state d) x (sessions_count d) (daemon_start_time d)
     (transcriber d) (audio_capture d) (text_injector d) (gui_window d) (running d).

Definition set_sessions_count (x : Z) (d : t) : t :=
  mk (state d) (session_start_time d) x (daemon_start_time d)
     (transcriber d) (audio_capture d) (text_injector d) (gui_window d) (running d).

Definition set_transcriber (x : Transcriber.t) (d : t) : t :=
  mk (state d) (session_start_time d) (sessions_count d) (daemon_start_time d)
     x (audio_capture d) (text_injector d) (gui_window d) (running d).

Definition set_audio_capture (x : AudioCapture.t sample time) (d : t) : t :=
  mk (state d) (session_start_time d) (sessions_count d) (daemon_start_time d)
     (transcriber d) x (text_injector d) (gui_window d) (running d).

Definition set_text_injector (x : TextInjector.t) (d : t) : t :=
  mk (state d) (session_start_time d) (sessions_count d) (daemon_start_time d)
     (transcriber d) (audio_capture d) x (gui_window d) (running d).
End Fields.
Arguments t : clear implicits.
Arguments pyval : clear implicits.
Arguments result : clear implicits.

Section Handlers.
Context {sample time : Type} (E : Env sample time).

Definition _handle_start_command : M (W sample (t sample time)) (result time) :=
  try_except
    (st <- self state ;;
     if negb (state_eqb st IDLE) then
       ret [ ("success", VBool false);
             ("message", VStr ("Cannot start: already " ++ value st)) ]
     else
       on_field transcriber set_transcriber Transcriber.reset_transcription ;;;
       on_field audio_capture set_audio_capture (AudioCapture.start E) ;;;
       update (set_state RECORDING) ;;;
       now <- time_now E ;;
       update (set_session_start_time now) ;;;
       update (fun d => set_sessions_count (sessions_count d + 1) d) ;;;
       gui <- self gui_window ;;
       (if (gui : bool) then emit E show_window_signal else ret tt) ;;;
       n <- self sessions_count ;;
       t0 <- self session_start_time ;;
       ret [ ("success", VBool true);
             ("message", VStr "Recording started");
             ("session_id", VStr ("session_" ++ pretty n));
             ("start_time", VFloat t0) ])
    Exception
    (fun e =>
       update (set_state IDLE) ;;;
       ret [ ("success", VBool false);
             ("message", VStr ("Failed to start recording: " ++ exn_str e)) ]).

Definition _handle_stop_command : M (W sample (t sample time)) (result time) :=
  try_except
    (st <- self state ;;
     if negb (state_eqb st RECORDING) then
       ret [ ("success", VBool false);
             ("message", VStr "No recording in progress") ]
     else
       gui <- self gui_window ;;
       (if (gui : bool) then emit E hide_window_signal else ret tt) ;;;
       update (set_state PROCESSING) ;;;
       all_audio <- on_field audio_capture set_audio_capture (AudioCapture.stop E) ;;
       transcription <-
         (if (8000 <? len all_audio)%Z
          then on_field transcriber set_transcriber
                 (Transcriber.transcribe_full_audio E all_audio)
          else ret "") ;;
       now <- time_now E ;;
       t0 <- self session_start_time ;;
       let duration := time_sub E now t0 in
       insertion_method <-
         (if str_nonempty transcription && strip_nonempty transcription
          then try_except
                 (m <- on_field text_injector set_text_injector
                         (TextInjector.insert_text E transcription) ;;
                  ret (Some m))
                 Exception (fun _ => ret (Some TextInjector.CLIPBOARD))
          else ret None) ;;
       update (set_state IDLE) ;;;
       ret [ ("success", VBool true);
             ("message", VStr "Recording stopped");
             ("transcription", VStr transcription);
             ("duration", VFloat duration);
             ("insertion_method",
              VStr (match insertion_method with
                    | Some m => TextInjector.value m
                    | None => "none"
                    end));
             ("word_count",
              VInt (if str_nonempty transcription
                    then Z.of_nat (len_split transcription) else 0)) ])
    Exception
    (fun e =>
       update (set_state IDLE) ;;;
       ret [ ("success", VBool false);
             ("message", VStr ("Failed to stop recording: " ++ exn_str e)) ]).

(** [result.get("success")] as a truth value. *)
Definition succeeded (r : result time) : bool :=
  match get r "success" with
  | Some (VBool b) => b
  | _ => false
  end.

Definition _handle_gui_stop_request : M (W sample (t sample time)) unit :=
  r <- _handle_stop_command ;;
  gui <- self gui_window ;;
  if gui && succeeded r then emit E hide_window_signal else ret tt.

(** [_estimate_memory_usage]: [psutil] when it can be imported. *)
Definition _estimate_memory_usage : M (W sample (t sample time)) Z :=
  match psutil_rss_mb E with
  | Ok mb => ret mb
  | Raise e =>
      if exn_isinstance e ImportError
      then loaded <- self (fun d => Transcriber.model_loaded (transcriber d)) ;;
           ret (if (loaded : bool) then 2000 else 100)%Z
      else raise e
  end.

Definition _handle_status_command : M (W sample (t sample time)) (result time) :=
  try_except
    (now <- time_now E ;;
     t0 <- self daemon_start_time ;;
     let uptime := time_sub E now t0 in
     audio_status <- on_field audio_capture set_audio_capture (AudioCapture.get_status E) ;;
     d <- self (fun d => d) ;;
     mem <- _estimate_memory_usage ;;
     let tr := transcriber d in
     let ydotool := TextInjector._ydotool_available (text_injector d) in
     ret [ ("success", VBool true);
           ("daemon_running", VBool true);
           ("recording", VBool (state_eqb (state d) RECORDING));
           ("state", VStr (value (state d)));
           ("model_loaded", VBool (Transcriber.model_loaded tr));
           ("model_name",
            VStr (Transcriber.model_size tr ++ "." ++ Transcriber.language tr));
           ("uptime", VFloat uptime);
           ("sessions_count", VInt (sessions_count d));
           ("audio_device",
            match AudioCapture.status_device audio_status with
            | Some (Zpos _ as i) | Some (Zneg _ as i) => VInt i
            | _ => VStr "default"
            end);
           ("text_injection_available",
            VDict [ ("direct", VBool ydotool);
                    ("auto_paste", VBool ydotool);
                    ("clipboard", VBool true) ]);
           ("current_transcription",
            VStr (String.concat " " (Transcriber.current_transcription tr)));
           ("memory_usage_mb", VInt mem) ])
    Exception
    (fun e =>
       ret [ ("success", VBool false);
             ("message", VStr ("Failed to get status: " ++ exn_str e)) ]).

Definition _handle_shutdown_command : M (W sample (t sample time)) (result time) :=
  st <- self state ;;
  (if state_eqb st RECORDING then _handle_stop_command ;;; ret tt else ret tt) ;;;
  external EvTimerStart (fun _ => Ok tt) ;;;
  ret [ ("success", VBool true); ("message", VStr "Daemon shutting down") ].

(** What reaches the orchestrator: the four commands and the window's
    [stop_requested] signal. *)
Inductive command := start | stop | status | shutdown | stop_requested.

Definition handle (c : command) : M (W sample (t sample time)) (result time) :=
  match c with
  | start => _handle_start_command
  | stop => _handle_stop_command
  | status => _handle_status_command
  | shutdown => _handle_shutdown_command
  | stop_requested => _handle_gui_stop_request ;;; ret []
  end.

(** The world after a sequence of commands, with the results. *)
Fixpoint run (cs : list command) (w : W sample (t sample time))
    : list (outcome (result time)) * W sample (t sample time) :=
  match cs with
  | [] => ([], w)
  | c :: rest =>
      match handle c w with
      | (r, w') => let '(rs, w'') := run rest w' in (r :: rs, w'')
      end
  end.

(** The handlers as [initialize] registers them: the method [name], which
    takes no argument. *)
Definition no_kwargs {A} (name : string) (m : M (W sample (t sample time)) A)
    : gmap string json -> M (W sample (t sample time)) A :=
  fun kwargs =>
    if decide (kwargs = ∅) then m
    else raise (new_exn TypeError (unexpected_keyword_str E name kwargs)).

Definition register_handlers
    (srv : IPCServer.t (W sample (t sample time)) (result time))
    : IPCServer.t (W sample (t sample time)) (result time) :=
  IPCServer.register_handler "shutdown"
    (no_kwargs "_handle_shutdown_command" _handle_shutdown_command)
    (IPCServer.register_handler "status"
       (no_kwargs "_handle_status_command" _handle_status_command)
       (IPCServer.register_handler "stop"
          (no_kwargs "_handle_stop_command" _handle_stop_command)
          (IPCServer.register_handler "start"
             (no_kwargs "_handle_start_command" _handle_start_command)
             srv))).

End Handlers.
End Daemon.

(** * The code around the session *)

(** ** whisper_daemon/text_injector.py: [get_status] *)

Module TextInjectorStatus.

(** The dictionary [get_status] returns. *)
Record Status := mk_status {
  ydotool_available : bool;
  preferred_method : string;
  last_method_used : option string;
  available_methods : list string
}.

Definition method_eqb (a b : TextInjector.InsertionMethod) : bool :=
  match a, b with
  | TextInjector.DIRECT, TextInjector.DIRECT
  | TextInjector.AUTO_PASTE, TextInjector.AUTO_PASTE
  | TextInjector.CLIPBOARD, TextInjector.CLIPBOARD => true
  | _, _ => false
  end.

Definition get_status {sample : Type} : M (W sample TextInjector.t) Status :=
  self (fun s =>
    mk_status
      (TextInjector._ydotool_available s)
      (TextInjector.preferred_method s)
      (match TextInjector._last_method_used s with
       | Some m => Some (TextInjector.value m)
       | None => None
       end)
      (map TextInjector.value
         (List.filter
            (fun method => method_eqb method TextInjector.CLIPBOARD
                           || TextInjector._ydotool_available s)
            [TextInjector.DIRECT; TextInjector.AUTO_PASTE; TextInjector.CLIPBOARD]))).

End TextInjectorStatus.

(** ** murmur_daemon/audio_capture.py: [AudioLevelMonitor] *)

Module AudioLevelMonitor.

(** How a call ends: with a value, or with one of the two exceptions the
    arithmetic and numpy raise. *)
Inductive ending (A : Type) :=
| Returned (x : A)
| RaisedZeroDivisionError
| RaisedValueError.
Arguments Returned {A} x.
Arguments RaisedZeroDivisionError {A}.
Arguments RaisedValueError {A}.

(** [range(n)] *)
Definition range (n : Z) : list Z := map Z.of_nat (seq 0 (Z.to_nat n)).

Section Numpy.
Context {sample : Type}.
(** [np.max(np.abs(window))] on a window that is not empty; on an empty
    one numpy raises [ValueError]. *)
Variable peak : list sample -> sample.

(** The [for] loop of [normalize_for_visualization] over the remaining
    indices: the values appended to [downsampled]. *)
Fixpoint downsample (audio_data : list sample) (window_size : Z) (indices : list Z)
    : ending (list sample) :=
  match indices with
  | [] => Returned []
  | i :: rest =>
      let start := (i * window_size)%Z in
      let end_ := (start + window_size)%Z in
      match py_slice audio_data start end_ with
      | [] => RaisedValueError
      | window =>
          match downsample audio_data window_size rest with
          | Returned downsampled => Returned (peak window :: downsampled)
          | raised => raised
          end
      end
  end.

Definition normalize_for_visualization (audio_data : list sample) (target_samples : Z)
    : ending (list sample) :=
  if (len audio_data <=? target_samples)%Z then Returned audio_data
  else if (target_samples =? 0)%Z then RaisedZeroDivisionError
  else
    let window_size := (len audio_data / target_samples)%Z in
    downsample audio_data window_size (range target_samples).

End Numpy.
End AudioLevelMonitor.

(** ** murmur_daemon/config.py *)

Module Config.

(** A configuration value: what [DEFAULT_CONFIG] holds and what
    [yaml.safe_load] builds from a document whose mappings have string
    keys.  A [dict] keeps its items in insertion order. *)
#[warnings="-register-all"]
Inductive value :=
| VNone
| VBool (b : bool)
| VInt (z : Z)
| VFloat (x : spec_float)
| VStr (s : string)
| VList (l : list value)
| VDict (items : list (string * value)).

Definition dict : Type := list (string * value).

(** [d.get(key)] *)
Fixpoint dict_get (d : dict) (key : string) : option value :=
  match d with
  | [] => None
  | (k, v) :: rest => if String.eqb k key then Some v else dict_get rest key
  end.

(** [key in d] *)
Definition dict_contains (d : dict) (key : string) : bool :=
  match dict_get d key with Some _ => true | None => false end.

(** [d[key] = v]: an existing key keeps its place, a new one goes last. *)
Fixpoint dict_set (d : dict) (key : string) (v : value) : dict :=
  match d with
  | [] => [(key, v)]
  | (k, x) :: rest =>
      if String.eqb k key then (k, v) :: rest else (k, x) :: dict_set rest key v
  end.

(** The literal [2.0]. *)
Definition float_2_0 : spec_float := S754_finite false 4503599627370496 (-51).

Definition DEFAULT_CONFIG : dict :=
  [ ("model",
     VDict [ ("size", VStr "medium");
             ("language", VStr "en");
             ("device", VStr "cuda");
             ("compute_type", VStr "float16");
             ("model_path", VNone) ]);
    ("audio",
     VDict [ ("sample_rate", VInt 16000);
             ("channels", VInt 1);
             ("chunk_duration", VFloat float_2_0);
             ("vad_aggressiveness", VInt 3);
             ("device_index", VNone) ]);
    ("gui",
     VDict [ ("window_width", VInt 600);
             ("window_height", VInt 300);
             ("theme", VStr "dark");
             ("font_size", VInt 12);
             ("show_waveform", VBool true);
             ("show_timer", VBool true) ]);
    ("text_insertion",
     VDict [ ("method", VStr "auto");
             ("fallback_enabled", VBool true) ]);
    ("ipc",
     VDict [ ("socket_path", VStr "/tmp/murmur-daemon.sock") ]);
    ("logging",
     VDict [ ("level", VStr "INFO");
             ("file", VStr "~/.local/share/murmur/murmur.log") ]) ].

(** The value the loop of [_deep_merge] stores under a key: the merge of
    the two dictionaries when the key is in [result] with a [dict] and the
    overlay's value is a [dict] too, the overlay's value otherwise. *)
Fixpoint merged_value (old : option value) (new : value) {struct new} : value :=
  match new with
  | VDict overlay =>
      match old with
      | Some (VDict base) =>
          VDict ((fix loop (items : dict) (result : dict) {struct items} : dict :=
                    match items with
                    | [] => result
                    | (key, v) :: rest =>
                        loop rest (dict_set result key (merged_value (dict_get result key) v))
                    end) overlay base)
      | _ => new
      end
  | _ => new
  end.

(** [_deep_merge(base, overlay)]: [result] starts as a copy of [base] and
    takes the overlay's items one after the other. *)
Definition _deep_merge (base overlay : dict) : dict :=
  fold_left (fun result '(key, v) =>
               dict_set result key (merged_value (dict_get result key) v))
            overlay base.

(** Python's truth value. *)
Definition truthy (v : value) : bool :=
  match v with
  | VNone => false
  | VBool b => b
  | VInt z => negb (z =? 0)%Z
  | VFloat x => match x with S754_zero _ => false | _ => true end
  | VStr s => str_nonempty s
  | VList l => match l with [] => false | _ => true end
  | VDict d => match d with [] => false | _ => true end
  end.

Definition type_name (v : value) : string :=
  match v with
  | VNone => "NoneType"
  | VBool _ => "bool"
  | VInt _ => "int"
  | VFloat _ => "float"
  | VStr _ => "str"
  | VList _ => "list"
  | VDict _ => "dict"
  end.

Section Loading.
(** The file system as [_load_config] sees it: [Path.exists] and what
    [open] followed by [yaml.safe_load] gives for a path. *)
Variable path_exists : string -> bool.
Variable safe_load_file : string -> outcome value.

(** [self._deep_merge(config, user_config)] on what the document holds:
    anything but a [dict] has no [items]. *)
Definition merge_document {S} (config : dict) (user_config : value) : M S dict :=
  match user_config with
  | VDict overlay => ret (_deep_merge config overlay)
  | other =>
      raise (new_exn AttributeError
               ("'" ++ type_name other ++ "' object has no attribute 'items'"))
  end.

(** [_load_config], with [self.config_path] as found by
    [_find_config_path].  The state is the class attribute
    [Config.DEFAULT_CONFIG] as it is when the method runs (the constant
    [DEFAULT_CONFIG] above is what the class statement makes of it):
    [DEFAULT_CONFIG.copy()] is a shallow copy, so the dictionaries inside
    the attribute are shared with the configurations made from it, and
    [Config.set] on one of them writes into the attribute. *)
Definition _load_config (config_path : option string) : M dict dict :=
  defaults <- gets (fun class_attribute => class_attribute) ;;
  let config := defaults in
  match config_path with
  | Some path =>
      if path_exists path then
        try_except
          (loaded <- (fun s => (safe_load_file path, s)) ;;
           let user_config := if truthy loaded then loaded else VDict [] in
           merge_document config user_config)
          Exception (fun _ => ret config)
      else ret config
  | None => ret config
  end.
End Loading.

(** [Config.get] with its key path and its [default], from [self.config]. *)
Fixpoint get_from (value0 : value) (keys : list string) (default : value) : value :=
  match keys with
  | [] => value0
  | key :: rest =>
      match value0 with
      | VDict d =>
          match dict_get d key with
          | Some v => get_from v rest default
          | None => default
          end
      | _ => default
      end
  end.

Definition get (config : dict) (keys : list string) (default : value) : value :=
  get_from (VDict config) keys default.

(** How a call of [Config.set] ends. *)
Inductive ending := Returned | RaisedTypeError | RaisedIndexError.

(** The loop of [set] over [keys[:-1]] and the final assignment, from the
    dictionary or value [config] the loop variable is bound to; the second
    component is that object after the call.  Only a [dict] supports
    [key not in config] followed by [config[key]], and item assignment
    with a string key. *)
Fixpoint set_from (config : value) (init : list string) (last : string) (v : value)
    : ending * value :=
  match config with
  | VDict d =>
      match init with
      | [] => (Returned, VDict (dict_set d last v))
      | key :: rest =>
          let d1 := if dict_contains d key then d else dict_set d key (VDict []) in
          match dict_get d1 key with
          | Some child =>
              let '(r, child') := set_from child rest last v in
              (r, VDict (dict_set d1 key child'))
          | None => (Returned, VDict d1)
          end
      end
  | _ => (RaisedTypeError, config)
  end.

(** [Config.set] with its key path and its [value], on [self.config];
    with no key at all, [keys[-1]] raises. *)
Definition set (config : dict) (keys : list string) (v : value) : ending * dict :=
  match keys with
  | [] => (RaisedIndexError, config)
  | _ :: _ =>
      match set_from (VDict config) (removelast keys) (List.last keys "") v with
      | (r, VDict config') => (r, config')
      | (r, _) => (r, config)
      end
  end.

End Config.

(** ** murmur_daemon/daemon.py: the callbacks given to the components *)

Module DaemonCallbacks.
Section Callbacks.
Context {sample time : Type} (E : Env sample time).

Definition _on_waveform_data (audio_data : list (bufitem sample))
    : M (W sample (Daemon.t sample time)) unit :=
  gui <- self Daemon.gui_window ;;
  if (gui : bool) then
    try_except (emit E (update_waveform_signal audio_data)) Exception (fun _ => ret tt)
  else ret tt.

Definition _on_transcription (text : string) (is_final : bool)
    : M (W sample (Daemon.t sample time)) unit :=
  gui <- self Daemon.gui_window ;;
  if (gui : bool) then
    try_except (emit E (update_transcription_signal text is_final))
      Exception (fun _ => ret tt)
  else ret tt.

(** A method of the daemon [d] as the callback a component stores: the
    callbacks read [d] and change nothing in it. *)
Definition bound {A} (d : Daemon.t sample time) (m : M (W sample (Daemon.t sample time)) A)
    : M (Amb sample) A :=
  fun a => match m (d, a) with (r, (_, a')) => (r, a') end.

(** [self.audio_capture.set_waveform_callback(self._on_waveform_data)] *)
Definition connect_waveform (d : Daemon.t sample time) : Daemon.t sample time :=
  Daemon.set_audio_capture
    (AudioCapture.set_waveform_callback
       (Some (fun audio_data => bound d (_on_waveform_data audio_data)))
       (Daemon.audio_capture d))
    d.

End Callbacks.
End DaemonCallbacks.

(** ** murmur_daemon/transcriber.py: the whole class

    [Transcriber] with the life cycle of the model and the streaming path:
    the queue of chunks, the processing thread and the running
    transcript.  Its collaborators are the [WhisperModel] constructor, the
    model's [transcribe] with the prompt it is given, the transcription
    callback and the clock; calls to them are recorded in a log of their
    own. *)

Module StreamingTranscriber.

Section Host.
Context {sample : Type}.

Inductive HostEvent :=
| HvWhisperModel (model_identifier device compute_type : string)
| HvTranscribe (audio_data : list (bufitem sample)) (language : string)
               (initial_prompt : option string)
| HvCallback (text : string) (is_final : bool)
| HvThreadStart
| HvThreadJoin
| HvGcCollect.

Record Host := {
  (** [time.time()], by the number of earlier readings *)
  host_time : nat -> spec_float;
  (** [WhisperModel(model_identifier, device=..., compute_type=...)] *)
  WhisperModel : list HostEvent -> string -> string -> string -> outcome unit;
  (** [model.transcribe(audio_data, language=..., initial_prompt=..., ...)]
      and the iteration over its segments: the texts of the segments *)
  model_transcribe : list HostEvent -> list (bufitem sample) -> string -> option string
                     -> outcome (list string);
  (** how many passes of [_process_queue] run while [stop_processing]
      joins the thread, at most five seconds *)
  join_passes : list HostEvent -> nat
}.

(** The log of the calls and the number of clock readings. *)
Record HAmb := mk_hamb {
  hlog : list HostEvent;
  hreads : nat
}.

(** A transcription callback: what the call does, from the history. *)
Definition callback : Type := list HostEvent -> string -> bool -> outcome unit.

Record t := mk {
  model_size : string;
  device : string;
  compute_type : string;
  language : string;
  model_path : option string;
  model : bool;              (** [self.model] is not [None] *)
  model_loaded : bool;
  transcription_queue : list (list (bufitem sample) * spec_float);
  processing_thread : option AudioCapture.Thread;
  running : bool;
  transcription_callback : option callback;
  current_transcription : list string;
  total_audio_duration : spec_float;
  total_processing_time : spec_float;
  transcriptions_count : Z
}.

Definition set_device (x : string) (s : t) : t :=
  mk (model_size s) x (compute_type s) (language s) (model_path s) (model s)
     (model_loaded s) (transcription_queue s) (processing_thread s) (running s)
     (transcription_callback s) (current_transcription s) (total_audio_duration s)
     (total_processing_time s) (transcriptions_count s).

Definition set_compute_type (x : string) (s : t) : t :=
  mk (model_size s) (device s) x (language s) (model_path s) (model s)
     (model_loaded s) (transcription_queue s) (processing_thread s) (running s)
     (transcription_callback s) (current_transcription s) (total_audio_duration s)
     (total_processing_time s) (transcriptions_count s).

Definition set_model (x : bool) (s : t) : t :=
  mk (model_size s) (device s) (compute_type s) (language s) (model_path s) x
     (model_loaded s) (transcription_queue s) (processing_thread s) (running s)
     (transcription_callback s) (current_transcription s) (total_audio_duration s)
     (total_processing_time s) (transcriptions_count s).

Definition set_model_loaded (x : bool) (s : t) : t :=
  mk (model_size s) (device s) (compute_type s) (language s) (model_path s) (model s)
     x (transcription_queue s) (processing_thread s) (running s)
     (transcription_callback s) (current_transcription s) (total_audio_duration s)
     (total_processing_time s) (transcriptions_count s).

Definition set_transcription_queue (x : list (list (bufitem sample) * spec_float))
    (s : t) : t :=
  mk (model_size s) (device s) (compute_type s) (language s) (model_path s) (model s)
     (model_loaded s) x (processing_thread s) (running s)
     (transcription_callback s) (current_transcription s) (total_audio_duration s)
     (total_processing_time s) (transcriptions_count s).

Definition set_processing_thread (x : option AudioCapture.Thread) (s : t) : t :=
  mk (model_size s) (device s) (compute_type s) (language s) (model_path s) (model s)
     (model_loaded s) (transcription_queue s) x (running s)
     (transcription_callback s) (current_transcription s) (total_audio_duration s)
     (total_processing_time s) (transcriptions_count s).

Definition set_running (x : bool) (s : t) : t :=
  mk (model_size s) (device s) (compute_type s) (language s) (model_path s) (model s)
     (model_loaded s) (transcription_queue s) (processing_thread s) x
     (transcription_callback s) (current_transcription s) (total_audio_duration s)
     (total_processing_time s) (transcriptions_count s).

Definition set_transcription_callback (x : option callback) (s : t) : t :=
  mk (model_size s) (device s) (compute_type s) (language s) (model_path s) (model s)
     (model_loaded s) (transcription_queue s) (processing_thread s) (running s)
     x (current_transcription s) (total_audio_duration s)
     (total_processing_time s) (transcriptions_count s).

Definition set_current_transcription (x : list string) (s : t) : t :=
  mk (model_size s) (device s) (compute_type s) (language s) (model_path s) (model s)
     (model_loaded s) (transcription_queue s) (processing_thread s) (running s)
     (transcription_callback s) x (total_audio_duration s)
     (total_processing_time s) (transcriptions_count s).

Definition set_total_audio_duration (x : spec_float) (s : t) : t :=
  mk (model_size s) (device s) (compute_type s) (language s) (model_path s) (model s)
     (model_loaded s) (transcription_queue s) (processing_thread s) (running s)
     (transcription_callback s) (current_transcription s) x
     (total_processing_time s) (transcriptions_count s).

Definition set_total_processing_time (x : spec_float) (s : t) : t :=
  mk (model_size s) (device s) (compute_type s) (language s) (model_path s) (model s)
     (model_loaded s) (transcription_queue s) (processing_thread s) (running s)
     (transcription_callback s) (current_transcription s) (total_audio_duration s)
     x (transcriptions_count s).

Definition set_transcriptions_count (x : Z) (s : t) : t :=
  mk (model_size s) (device s) (compute_type s) (language s) (model_path s) (model s)
     (model_loaded s) (transcription_queue s) (processing_thread s) (running s)
     (transcription_callback s) (current_transcription s) (total_audio_duration s)
     (total_processing_time s) x.

Variable H : Host.

(** The methods run on the object and the log. *)
Definition this {A} (f : t -> A) : M (t * HAmb) A :=
  fun '(o, a) => (Ok (f o), (o, a)).

Definition assign (f : t -> t) : M (t * HAmb) unit :=
  fun '(o, a) => (Ok tt, (f o, a)).

Definition call {A} (ev : HostEvent) (answer : list HostEvent -> outcome A)
    : M (t * HAmb) A :=
  fun '(o, a) => (answer (hlog a), (o, mk_hamb (ev :: hlog a) (hreads a))).

Definition now : M (t * HAmb) spec_float :=
  fun '(o, a) => (Ok (host_time H (hreads a)), (o, mk_hamb (hlog a) (S (hreads a)))).

Definition __init__ (model_size device compute_type language : string)
    (model_path : option string) : t :=
  mk model_size device compute_type language model_path false false [] None false None []
     (float_of_int 0) (float_of_int 0) 0.

(** [self.model_path if self.model_path else self.model_size] *)
Definition model_identifier_of (s : t) : string :=
  match model_path s with
  | Some p => if str_nonempty p then p else model_size s
  | None => model_size s
  end.

Definition load_model : M (t * HAmb) unit :=
  loaded <- this model_loaded ;;
  if (loaded : bool) then ret tt
  else
    try_except
      (start_time <- now ;;
       model_identifier <- this model_identifier_of ;;
       dev <- this device ;;
       ct <- this compute_type ;;
       call (HvWhisperModel model_identifier dev ct)
            (fun h => WhisperModel H h model_identifier dev ct) ;;;
       assign (set_model true) ;;;
       load_end <- now ;;
       assign (set_model_loaded true))
      Exception
      (fun e =>
         dev <- this device ;;
         if negb (String.eqb dev "cpu") then
           assign (set_device "cpu") ;;;
           assign (set_compute_type "int8") ;;;
           try_except
             (size <- this model_size ;;
              call (HvWhisperModel size "cpu" "int8")
                   (fun h => WhisperModel H h size "cpu" "int8") ;;;
              assign (set_model true) ;;;
              assign (set_model_loaded true))
             Exception (fun e2 => raise e2)
         else ret tt).

Definition transcribe_chunk (audio_data : list (bufitem sample)) (timestamp : spec_float)
    : M (t * HAmb) unit :=
  r <- this running ;;
  if negb r then ret tt
  else assign (fun s => set_transcription_queue
                          (transcription_queue s ++ [(audio_data, timestamp)]) s).

Definition _transcribe_audio (audio_data : list (bufitem sample)) : M (t * HAmb) string :=
  m <- this model ;;
  if negb m then raise (new_exn RuntimeError "Model not loaded")
  else
    start_time <- now ;;
    let audio_duration := true_divide (len audio_data) 16000 in
    try_except
      (cur <- this current_transcription ;;
       let previous_text :=
         match cur with
         | [] => None
         | _ => Some (String.concat " " (slice_from cur (-3)))
         end in
       lang <- this language ;;
       text_parts <- call (HvTranscribe audio_data lang previous_text)
                       (fun h => model_transcribe H h audio_data lang previous_text) ;;
       let text := Transcriber.strip (String.concat " " text_parts) in
       finished <- now ;;
       let processing_time := SFsub prec emax finished start_time in
       assign (fun s => set_total_audio_duration
                          (SFadd prec emax (total_audio_duration s) audio_duration) s) ;;;
       assign (fun s => set_total_processing_time
                          (SFadd prec emax (total_processing_time s) processing_time) s) ;;;
       ret text)
      Exception (fun _ => ret "").

(** The inner [try] of the loop body of [_process_queue]: the chunk taken
    from the queue is transcribed and the result appended. *)
Definition _process_queue_chunk (audio_data : list (bufitem sample)) : M (t * HAmb) unit :=
  try_except
    (text <- _transcribe_audio audio_data ;;
     if str_nonempty text && strip_nonempty text then
       assign (fun s => set_current_transcription
                          (current_transcription s ++ [Transcriber.strip text]) s) ;;;
       assign (fun s => set_transcriptions_count (transcriptions_count s + 1) s) ;;;
       cb <- this transcription_callback ;;
       match cb with
       | Some f =>
           cur <- this current_transcription ;;
           let full_text := String.concat " " cur in
           try_except
             (call (HvCallback full_text false) (fun h => f h full_text false))
             Exception (fun _ => ret tt)
       | None => ret tt
       end
     else ret tt)
    Exception (fun _ => ret tt).

(** One pass through the body of the [while] loop of [_process_queue]:
    an empty queue makes [get] time out and the loop go on. *)
Definition _process_queue_pass : M (t * HAmb) unit :=
  try_except
    (q <- this transcription_queue ;;
     match q with
     | [] => ret tt
     | (audio_data, timestamp) :: rest =>
         assign (set_transcription_queue rest) ;;;
         _process_queue_chunk audio_data
     end)
    Exception (fun _ => ret tt).

(** [_process_queue] scheduled for at most [passes] passes; the thread
    ends when the loop condition fails. *)
Fixpoint _process_queue (passes : nat) : M (t * HAmb) unit :=
  match passes with
  | O => ret tt
  | S n =>
      r <- this running ;;
      q <- this transcription_queue ;;
      if r || match q with [] => false | _ => true end then
        _process_queue_pass ;;; _process_queue n
      else assign (set_processing_thread (Some (AudioCapture.mk_thread false)))
  end.

Definition start_processing : M (t * HAmb) unit :=
  r <- this running ;;
  if (r : bool) then ret tt
  else
    loaded <- this model_loaded ;;
    if negb loaded
    then raise (new_exn RuntimeError "Model not loaded. Call load_model() first.")
    else
      assign (set_running true) ;;;
      assign (set_processing_thread (Some (AudioCapture.mk_thread true))) ;;;
      call HvThreadStart (fun _ => Ok tt).

Definition stop_processing : M (t * HAmb) unit :=
  assign (set_running false) ;;;
  th <- this processing_thread ;;
  match th with
  | Some (AudioCapture.mk_thread true) =>
      n <- call HvThreadJoin (fun h => Ok (join_passes H h)) ;;
      _process_queue n
  | _ => ret tt
  end ;;;
  assign (set_current_transcription []) ;;;
  assign (set_transcription_queue []) ;;;
  call HvGcCollect (fun _ => Ok tt).

Definition get_full_transcription (final : bool) : M (t * HAmb) string :=
  cur <- this current_transcription ;;
  let text := String.concat " " cur in
  cb <- this transcription_callback ;;
  match cb with
  | Some f =>
      if final && str_nonempty text
      then try_except (call (HvCallback text true) (fun h => f h text true))
             Exception (fun _ => ret tt)
      else ret tt
  | None => ret tt
  end ;;;
  ret text.

Definition reset_transcription : M (t * HAmb) unit :=
  assign (set_current_transcription []).

Definition unload_model : M (t * HAmb) unit :=
  th <- this processing_thread ;;
  match th with
  | Some (AudioCapture.mk_thread true) => stop_processing
  | _ => ret tt
  end ;;;
  m <- this model ;;
  if (m : bool) then
    assign (set_model false) ;;;
    assign (set_model_loaded false)
  else ret tt.


End Host.
Arguments HostEvent : clear implicits.
Arguments Host : clear implicits.
Arguments HAmb : clear implicits.
Arguments callback : clear implicits.
Arguments t : clear implicits.
End StreamingTranscriber.

(** ** whisper_gui/waveform.py: the data of [WaveformWidget]

    The lists of bars and peak marks and the methods that change them;
    painting is left out.  [updates] counts the calls of [self.update()]. *)

Module WaveformWidget.

(** How a method ends: it returns, or the arithmetic or the indexing
    raises. *)
Inductive ending :=
| Returned
| RaisedZeroDivisionError
| RaisedIndexError.

(** [0.0] and [0.95] *)
Definition float_0_0 : spec_float := S754_zero false.
Definition float_0_95 : spec_float := S754_finite false 8556839292003942 (-53).

Record t := mk {
  sample_count : Z;
  samples : list spec_float;
  peak_hold : list spec_float;
  peak_decay : spec_float;
  updates : nat
}.

(** [[0.0] * n] *)
Definition zeros (n : Z) : list spec_float := repeat float_0_0 (Z.to_nat n).

Definition __init__ (sample_count : Z) : t :=
  mk sample_count (zeros sample_count) (zeros sample_count) float_0_95 0.

Section Numpy.
Context {sample : Type}.
(** [min(float(np.sqrt(np.mean(window**2))) * 3.0, 1.0)] *)
Variable bar : list sample -> spec_float.

(** The first [for] loop of [update_data]. *)
Definition new_samples (audio_data : list sample) (window_size : Z) (sample_count : Z)
    : list spec_float :=
  map (fun i =>
         let start := (i * window_size)%Z in
         let end_ := Z.min (start + window_size) (len audio_data) in
         if (start <? len audio_data)%Z
         then bar (py_slice audio_data start end_)
         else float_0_0)
      (AudioLevelMonitor.range sample_count).

(** The second loop, over [enumerate(self.samples)] from index [i] on. *)
Fixpoint update_peaks (i : nat) (samples peak_hold : list spec_float)
    : ending * list spec_float :=
  match samples with
  | [] => (Returned, peak_hold)
  | sample :: rest =>
      match peak_hold !! i with
      | None => (RaisedIndexError, peak_hold)
      | Some p =>
          update_peaks (S i) rest
            (if SFltb p sample then <[i := sample]> peak_hold else peak_hold)
      end
  end.

Definition update_data (audio_data : list sample) (w : t) : ending * t :=
  if (len audio_data =? 0)%Z then (Returned, w)
  else if (sample_count w =? 0)%Z then (RaisedZeroDivisionError, w)
  else
    let window_size := Z.max (len audio_data / sample_count w) 1 in
    let samples' := new_samples audio_data window_size (sample_count w) in
    match update_peaks 0 samples' (peak_hold w) with
    | (Returned, peak_hold') =>
        (Returned, mk (sample_count w) samples' peak_hold' (peak_decay w) (S (updates w)))
    | (raised, peak_hold') =>
        (raised, mk (sample_count w) samples' peak_hold' (peak_decay w) (updates w))
    end.

End Numpy.

Definition _decay_peaks (w : t) : t :=
  mk (sample_count w) (samples w)
     (map (fun p => SFmul prec emax p (peak_decay w)) (peak_hold w))
     (peak_decay w) (S (updates w)).

Definition reset (w : t) : t :=
  mk (sample_count w) (zeros (sample_count w)) (zeros (sample_count w))
     (peak_decay w) (S (updates w)).

End WaveformWidget.

(** * Vocabulary of the properties *)

Section CaptureVocabulary.
Context {sample time : Type}.

(** The audio driver calling [_audio_callback] once per block, in order. *)
Fixpoint audio_driver (blocks : list (list (sample * list sample)))
    (w : W sample (AudioCapture.t sample time)) : W sample (AudioCapture.t sample time) :=
  match blocks with
  | [] => w
  | indata :: rest => audio_driver rest (snd (AudioCapture._audio_callback indata w))
  end.

(** The fields [start], the callbacks and [stop] leave alone. *)
Definition same_config (x y : AudioCapture.t sample time) : Prop :=
  AudioCapture.channels y = AudioCapture.channels x /\
  AudioCapture.chunk_callback y = AudioCapture.chunk_callback x /\
  AudioCapture.capture_thread y = AudioCapture.capture_thread x.

End CaptureVocabulary.

Section InjectorVocabulary.
Context {sample time : Type} (E : Env sample time).

(** The candidates of [pre] tried in order, none of them succeeding. *)
Fixpoint failed_attempts (pre : list TextInjector.InsertionMethod) (text : string)
    (w : W sample TextInjector.t) : option (W sample TextInjector.t) :=
  match pre with
  | [] => Some w
  | p :: rest =>
      match TextInjector.attempt E p text w with
      | (Ok true, _) => None
      | (_, w') => failed_attempts rest text w'
      end
  end.

End InjectorVocabulary.

Section DaemonVocabulary.
Context {sample time : Type}.

Definition failure (message : string) : Daemon.result time :=
  [ ("success", Daemon.VBool false); ("message", Daemon.VStr message) ].

(** The message of a result, when it has one. *)
Definition message_of (r : Daemon.result time) : string :=
  match Daemon.get r "message" with
  | Some (Daemon.VStr s) => s
  | _ => ""
  end.

Definition state_of (w : W sample (Daemon.t sample time)) : Daemon.SessionState :=
  Daemon.state (fst w).

(** The orchestrator never registers a chunk callback, so the capture
    engine stays in batch mode: no callback, no streaming thread. *)
Definition batch_capture (ac : AudioCapture.t sample time) : Prop :=
  AudioCapture.chunk_callback ac = None /\ AudioCapture.capture_thread ac = None.

Definition batch_mode (d : Daemon.t sample time) : Prop :=
  batch_capture (Daemon.audio_capture d).

(** A computation keeps [P] when [P] of the object before gives [P] of the
    object after, whether it returns or raises. *)
Definition keeps {Obj A} (P : Obj -> Prop) (m : M (W sample Obj) A) : Prop :=
  forall o a, P o -> P (fst (snd (m (o, a)))).

(** Events that reach the transcription collaborator, resp. a delivery
    mechanism of the insertion chain. *)
Definition invokes_transcriber (ev : Event sample) : bool :=
  match ev with EvModelTranscribe _ => true | _ => false end.

Definition invokes_insertion (ev : Event sample) : bool :=
  match ev with EvClipboardCopy _ | EvSubprocessRun _ => true | _ => false end.

End DaemonVocabulary.

Definition ascii_lower (c : ascii) : ascii :=
  let n := nat_of_ascii c in
  if ((65 <=? n) && (n <=? 90))%nat then ascii_of_nat (n + 32) else c.

Fixpoint lower (s : string) : string :=
  match s with
  | EmptyString => EmptyString
  | String c r => String (ascii_lower c) (lower r)
  end.

(** A message names a state when it contains the state's name, in any case. *)
Definition names_state (message : string) (st : Daemon.SessionState) : bool :=
  str_contains (Daemon.value st) (lower message).

Section TransportVocabulary.
Context {sample time : Type} (E : Env sample time).
Context {R : Type}.

Definition answered (sk : IPCServer.socket R) (r : IPCServer.response R)
    : IPCServer.socket R :=
  IPCServer.mk_socket (IPCServer.inbox sk) (r :: IPCServer.outbox sk)
    (IPCServer.sendall_error sk) true.

Definition hung_up (sk : IPCServer.socket R) : IPCServer.socket R :=
  IPCServer.mk_socket (IPCServer.inbox sk) (IPCServer.outbox sk)
    (IPCServer.sendall_error sk) true.

(** The request read from the socket is the text [text]. *)
Definition receives (sk : IPCServer.socket R) (text : string) : Prop :=
  exists data, IPCServer.inbox sk = Ok data /\
               bytes_decode E (firstn 4096 data) = Ok text /\
               str_nonempty text = true.

End TransportVocabulary.

Section GateVocabulary.
Context {sample time : Type} (E : Env sample time).

(** What the classifier answers on a list of frames offered one after the
    other, the first of them after the history [h]. *)
Fixpoint vad_answers (rate : Z) (frames : list (list Z)) (h : list (Event sample))
    : list (outcome bool) :=
  match frames with
  | [] => []
  | f :: rest =>
      vad_is_speech E h f rate :: vad_answers rate rest (EvVadIsSpeech f rate :: h)
  end.

Definition is_voiced (r : outcome bool) : bool :=
  match r with Ok true => true | _ => false end.

Definition is_classified (r : outcome bool) : bool :=
  match r with Ok _ => true | Raise _ => false end.

Definition count (p : outcome bool -> bool) (answers : list (outcome bool)) : Z :=
  len (List.filter p answers).

(** The decision of [_contains_voice] from the two local counters. *)
Definition decision (voiced_count frame_count : Z) : bool :=
  if (frame_count =? 0)%Z then false
  else float_ge (true_divide voiced_count frame_count) float_0_15.

(** The lifetime counters advanced by a chunk. *)
Definition bump (voiced classified : Z) (ac : AudioCapture.t sample time)
    : AudioCapture.t sample time :=
  AudioCapture.set_voiced_frames (AudioCapture.voiced_frames ac + voiced)
    (AudioCapture.set_total_frames (AudioCapture.total_frames ac + classified) ac).

(** The frames the loop of [_contains_voice] visits. *)
Definition frames_at (audio : list (bufitem sample)) (frame_samples : Z)
    (indices : list Z) : list (list Z) :=
  map (fun i => AudioCapture.frame_at E audio i frame_samples) indices.

(** The chunk cut into its full frames, first to last. *)
Definition full_frames (audio : list (bufitem sample)) (fs : Z) : list (list Z) :=
  frames_at audio fs
    (map (fun k => (0 + Z.of_nat k * fs)%Z) (seq 0 (Z.to_nat (len audio / fs)))).

(** The chunk decision as the specification words it: every full frame is
    classified, a frame whose classification fails counts as not voiced
    and stays in the denominator, and a chunk without a frame or without a
    single classified frame is rejected. *)
Definition claimed_chunk_is_voiced (rate : Z) (audio : list (bufitem sample)) (fs : Z)
    (h : list (Event sample)) : bool :=
  let answers := vad_answers rate (full_frames audio fs) h in
  if (len answers =? 0)%Z then false
  else if (count is_classified answers =? 0)%Z then false
  else float_ge (true_divide (count is_voiced answers) (len answers)) float_0_15.

End GateVocabulary.

(** ** Binary64 rounding *)

(** What a rounding location says about the remainder [r] of a division
    by [d]. *)
Definition loc_agrees (loc : location) (r d : Z) : Prop :=
  match loc with
  | loc_Exact => r = 0%Z
  | loc_Inexact Lt => (0 < r /\ 2 * r < d)%Z
  | loc_Inexact Eq => (2 * r = d)%Z
  | loc_Inexact Gt => (d < 2 * r)%Z
  end.

(** The end of [binary_round_aux]: the rounded mantissa is renormalized
    and packed. *)
Definition finish (m0 e1 : Z) : spec_float :=
  let '(mrs, e2) := shr_fexp prec emax m0 e1 loc_Exact in
  match shr_m mrs with
  | Z0 => S754_zero false
  | Zpos m => if (e2 <=? emax - prec)%Z then S754_finite false m e2 else S754_infinity false
  | Zneg _ => S754_nan
  end.

(** ** Vocabulary of the further properties *)

Section EventVocabulary.
Context {sample : Type}.
Definition is_clipboard_copy (ev : Event sample) : bool :=
  match ev with EvClipboardCopy _ => true | _ => false end.
Definition is_subprocess_run (ev : Event sample) : bool :=
  match ev with EvSubprocessRun _ => true | _ => false end.
End EventVocabulary.

Section CaptureCalls.
Context {sample time : Type} (E : Env sample time).

(** The gate's lifetime counters are consistent. *)
Definition counters_ok (ac : AudioCapture.t sample time) : Prop :=
  (0 <= AudioCapture.voiced_frames ac <= AudioCapture.total_frames ac)%Z.

(** The calls a client, the audio driver or the streaming thread make on
    the capture engine. *)
Inductive capture_call :=
| call_start
| call_stop
| call_get_status
| call_audio_callback (indata : list (sample * list sample))
| call_contains_voice (audio : list (bufitem sample)) (frame_samples : Z)
| call_process_audio (passes : nat).

Definition capture_do (c : capture_call) : M (W sample (AudioCapture.t sample time)) unit :=
  match c with
  | call_start => AudioCapture.start E
  | call_stop => AudioCapture.stop E ;;; ret tt
  | call_get_status => AudioCapture.get_status E ;;; ret tt
  | call_audio_callback indata => AudioCapture._audio_callback indata
  | call_contains_voice audio fs => AudioCapture._contains_voice E audio fs ;;; ret tt
  | call_process_audio n => AudioCapture._process_audio E n
  end.

Fixpoint capture_run (cs : list capture_call) (w : W sample (AudioCapture.t sample time))
    : W sample (AudioCapture.t sample time) :=
  match cs with
  | [] => w
  | c :: rest => capture_run rest (snd (capture_do c w))
  end.
End CaptureCalls.

Section BufferVocabulary.
Context {sample time : Type}.
(** The capture engine has the rates [x] has and holds the buffer [b]. *)
Definition holds_buffer (x : AudioCapture.t sample time) (b : list (bufitem sample))
    (y : AudioCapture.t sample time) : Prop :=
  AudioCapture.sample_rate y = AudioCapture.sample_rate x /\
  AudioCapture.chunk_duration y = AudioCapture.chunk_duration x /\
  AudioCapture.vad_frame_duration y = AudioCapture.vad_frame_duration x /\
  AudioCapture.audio_buffer y = b.
End BufferVocabulary.

Section CommandVocabulary.
Context {sample time : Type}.
(** The name under which [initialize] registers a command. *)
Definition command_name (c : Daemon.command) : option string :=
  match c with
  | Daemon.start => Some "start"
  | Daemon.stop => Some "stop"
  | Daemon.status => Some "status"
  | Daemon.shutdown => Some "shutdown"
  | Daemon.stop_requested => None
  end.

(** The method [initialize] registers for it. *)
Definition method_name (c : Daemon.command) : string :=
  match c with
  | Daemon.start => "_handle_start_command"
  | Daemon.stop => "_handle_stop_command"
  | Daemon.status => "_handle_status_command"
  | Daemon.shutdown => "_handle_shutdown_command"
  | Daemon.stop_requested => "_handle_gui_stop_request"
  end.
End CommandVocabulary.


(** The keys of a dictionary are distinct, in the dictionary and in every
    dictionary inside it: what every Python [dict] satisfies. *)
Definition distinct_keys (d : Config.dict) : bool :=
  (fix go (keys : list string) : bool :=
     match keys with
     | [] => true
     | k :: rest => negb (existsb (String.eqb k) rest) && go rest
     end) (map fst d).

Fixpoint well_formed (v : Config.value) : bool :=
  match v with
  | Config.VDict items =>
      distinct_keys items &&
      (fix all (items : Config.dict) : bool :=
         match items with
         | [] => true
         | (_, x) :: rest => well_formed x && all rest
         end) items
  | Config.VList l =>
      (fix all (l : list Config.value) : bool :=
         match l with
         | [] => true
         | x :: rest => well_formed x && all rest
         end) l
  | _ => true
  end.

Definition is_dict (v : Config.value) : bool :=
  match v with Config.VDict _ => true | _ => false end.

(** The value a key path leads to, when every step finds its key. *)
Fixpoint find (v : Config.value) (keys : list string) : option Config.value :=
  match keys with
  | [] => Some v
  | key :: rest =>
      match v with
      | Config.VDict d =>
          match Config.dict_get d key with
          | Some x => find x rest
          | None => None
          end
      | _ => None
      end
  end.

(** The overlay says nothing about a key path: following the path through
    the overlay's dictionaries, a key is missing. *)
Fixpoint leaves_alone (overlay : Config.value) (keys : list string) : bool :=
  match keys with
  | [] => false
  | key :: rest =>
      match overlay with
      | Config.VDict o =>
          match Config.dict_get o key with
          | None => true
          | Some x => is_dict x && leaves_alone x rest
          end
      | _ => false
      end
  end.


(** Two key paths part ways: at some position, before either ends, their
    keys differ. *)
Fixpoint apart (keys keys' : list string) : bool :=
  match keys, keys' with
  | k :: rest, k' :: rest' => if String.eqb k k' then apart rest rest' else true
  | _, _ => false
  end.

Section StreamingVocabulary.
Context {sample : Type}.
Import StreamingTranscriber.

(** A method holds [P] when [P] of the transcriber before gives [P] of
    the transcriber after, whether it returns or raises. *)
Definition holds {A} (P : t sample -> Prop) (m : M (t sample * HAmb sample) A) : Prop :=
  forall o a, P o -> P (fst (snd (m (o, a)))).

(** [self.processing_thread and self.processing_thread.is_alive()] *)
Definition thread_alive (s : t sample) : bool :=
  match processing_thread s with
  | Some (AudioCapture.mk_thread true) => true
  | _ => false
  end.

Definition stripped_entry (x : string) : Prop :=
  x <> "" /\ Transcriber.strip x = x.

(** What is true of a transcriber at every moment. *)
Definition settled (s : t sample) : Prop :=
  (model_loaded s = true -> model s = true) /\
  (running s = true -> thread_alive s = true /\ model_loaded s = true) /\
  (transcription_queue s <> [] -> model s = true) /\
  Forall stripped_entry (current_transcription s) /\
  (len (current_transcription s) <= transcriptions_count s)%Z.

(** What is true of it between two calls of its methods. *)
Definition consistent (s : t sample) : Prop :=
  settled s /\ (transcription_queue s <> [] -> running s = true).

(** The calls a client makes, and the turns the processing thread takes
    between them; a pass of the thread is taken as one step. *)
Inductive api_call :=
| call_load_model
| call_unload_model
| call_set_transcription_callback (cb : callback sample)
| call_start_processing
| call_stop_processing
| call_transcribe_chunk (audio_data : list (bufitem sample)) (timestamp : spec_float)
| call_get_full_transcription (final : bool)
| call_reset_transcription
| thread_runs (passes : nat).

Definition api_do (H : Host sample) (c : api_call) : M (t sample * HAmb sample) unit :=
  match c with
  | call_load_model => load_model H
  | call_unload_model => unload_model H
  | call_set_transcription_callback cb => assign (set_transcription_callback (Some cb))
  | call_start_processing => start_processing
  | call_stop_processing => stop_processing H
  | call_transcribe_chunk audio_data timestamp => transcribe_chunk audio_data timestamp
  | call_get_full_transcription final => _ <- get_full_transcription final ;; ret tt
  | call_reset_transcription => reset_transcription
  | thread_runs passes =>
      fun w => if thread_alive (fst w) then _process_queue H passes w else (Ok tt, w)
  end.

Definition api_run (H : Host sample) (cs : list api_call) (w : t sample * HAmb sample)
    : t sample * HAmb sample :=
  fold_left (fun w c => snd (api_do H c w)) cs w.

(** The audio a log entry handed to the model. *)
Definition transcribed_audio (ev : HostEvent sample) : option (list (bufitem sample)) :=
  match ev with
  | HvTranscribe audio_data _ _ => Some audio_data
  | _ => None
  end.

End StreamingVocabulary.

Section WidgetVocabulary.
Context {sample : Type}.
Import WaveformWidget.

(** Both lists of the widget have [sample_count] entries. *)
Definition sized (w : t) : Prop :=
  length (samples w) = Z.to_nat (sample_count w) /\
  length (peak_hold w) = Z.to_nat (sample_count w).

(** What happens to a widget: new audio, a tick of the decay timer, a
    reset. *)
Inductive widget_call :=
| widget_update_data (audio_data : list sample)
| widget_decay_peaks
| widget_reset.

Definition widget_do (bar : list sample -> spec_float) (c : widget_call) (w : t) : t :=
  match c with
  | widget_update_data audio_data => snd (update_data bar audio_data w)
  | widget_decay_peaks => _decay_peaks w
  | widget_reset => reset w
  end.

Definition widget_run (bar : list sample -> spec_float) (cs : list widget_call) (w : t)
    : t :=
  fold_left (fun w c => widget_do bar c w) cs w.

End WidgetVocabulary.

(** * Concrete instances *)

(** An environment over integer samples and an integer clock in which
    every collaborator works, except as the arguments say: [clipboard]
    answers [pyperclip.copy] and [vad] the classifier. *)
Definition dq : string := String (ascii_of_nat 34) EmptyString.

Definition start_request : string :=
  "{" ++ dq ++ "command" ++ dq ++ ": " ++ dq ++ "start" ++ dq ++ "}".

Definition demo_json_loads (text : string) : outcome json :=
  if String.eqb text "[]" then Ok (JArr [])
  else if String.eqb text start_request then Ok (JObj {[ "command" := JStr "start" ]})
  else Raise (new_exn JSONDecodeError "Expecting value: line 1 column 1 (char 0)").

(** The texts of the two [TypeError]s of a call with keyword arguments,
    as CPython 3.11 words them for the handlers of the daemon. *)
Definition json_type_name (v : json) : string :=
  match v with
  | JNull => "NoneType"
  | JBool _ => "bool"
  | JInt _ => "int"
  | JFloat _ => "float"
  | JStr _ => "str"
  | JArr _ => "list"
  | JObj _ => "dict"
  end.

Definition demo_not_a_mapping_str (command args : json) : string :=
  "murmur_daemon.daemon.WhisperDaemon._handle_" ++ IPCServer.str_json command
  ++ "_command() argument after ** must be a mapping, not " ++ json_type_name args.

Definition demo_unexpected_keyword_str (name : string) (kwargs : gmap string json)
    : string :=
  "WhisperDaemon." ++ name ++ "() got an unexpected keyword argument '"
  ++ match map_to_list kwargs with (k, _) :: _ => k | [] => "" end ++ "'".

Definition demo_env (clipboard : outcome unit)
    (vad : list (Event Z) -> outcome bool) : Env Z Z :=
  {| time_time := fun n => Z.of_nat n;
     time_sub := Z.sub;
     time_zero := 0%Z;
     pyperclip_copy := fun _ _ => clipboard;
     child_process := fun _ _ => Completed 0 [];
     called_process_error_str := fun _ _ => "Command returned non-zero exit status";
     bytes_decode := fun b => Ok (string_of_list_byte b);
     json_loads := demo_json_loads;
     sd_InputStream := fun _ => Ok tt;
     sd_stream_start := fun _ => Ok tt;
     sd_stream_stop := fun _ => Ok tt;
     sd_stream_close := fun _ => Ok tt;
     astype_int16 := fun s => s;
     vad_is_speech := fun h _ _ => vad h;
     model_transcribe := fun _ _ => Ok ["hello world"];
     signal_emit := fun _ _ => Ok tt;
     psutil_rss_mb := Ok 100%Z;
     join_iterations := fun _ => 0;
     not_a_mapping_str := demo_not_a_mapping_str;
     unexpected_keyword_str := demo_unexpected_keyword_str |}.

Definition quiet_env : Env Z Z := demo_env (Ok tt) (fun _ => Ok true).

(** No clipboard mechanism on the system. *)
Definition no_clipboard_env : Env Z Z :=
  demo_env
    (Raise (new_exn Exception "Pyperclip could not find a copy/paste mechanism for your system."))
    (fun _ => Ok true).

(** A classifier that hears speech in the first frame it is given and
    fails on every later one. *)
Definition flaky_vad_env : Env Z Z :=
  demo_env (Ok tt)
    (fun h => match h with
              | [] => Ok true
              | _ => Raise (new_exn Exception "Error while processing frame")
              end).

Definition amb0 : Amb Z := mk_amb [] 0.

Definition injector0 : TextInjector.t := TextInjector.mk "clipboard" false None.

Definition capture0 : AudioCapture.t Z Z :=
  AudioCapture.__init__ quiet_env 16000 1 (float_of_int 2) None.

Definition transcriber0 : Transcriber.t := Transcriber.mk "medium" "en" true true [].

Definition daemon0 : Daemon.t Z Z :=
  Daemon.mk Daemon.IDLE 0%Z 0%Z 0%Z transcriber0 capture0 injector0 true true.

Definition server0 : IPCServer.t (W Z (Daemon.t Z Z)) (Daemon.result Z) :=
  Daemon.register_handlers quiet_env (IPCServer.__init__ "/tmp/whisper-daemon.sock").

(** A connection on which the two bytes of the JSON text [[]] arrive. *)
Definition array_request : IPCServer.socket (Daemon.result Z) :=
  IPCServer.mk_socket (Ok (list_byte_of_string "[]")) [] None false.

(** The daemon after a first [start], and what that [start] returned. *)
Definition started_world : W Z (Daemon.t Z Z) :=
  Eval vm_compute in snd (Daemon._handle_start_command quiet_env (daemon0, amb0)).

Definition started_result : Daemon.result Z :=
  Eval vm_compute in
    match fst (Daemon._handle_start_command quiet_env (daemon0, amb0)) with
    | Ok r => r
    | Raise _ => []
    end.

Definition stopped_world : W Z (Daemon.t Z Z) :=
  Eval vm_compute in snd (Daemon._handle_stop_command quiet_env started_world).

Definition stopped_result : Daemon.result Z :=
  Eval vm_compute in
    match fst (Daemon._handle_stop_command quiet_env started_world) with
    | Ok r => r
    | Raise _ => []
    end.

(** The capture engine after [start]. *)
Definition capture_started : W Z (AudioCapture.t Z Z) :=
  Eval vm_compute in snd (AudioCapture.start quiet_env (capture0, amb0)).

(** Twenty-one mono samples: ten full frames of two samples and a rest. *)
Definition audio21 : list (bufitem Z) := map (fun k => Mono (Z.of_nat k)) (seq 0 21).

(** Environments like [quiet_env] in which one collaborator is as the
    argument says: the child of [subprocess.run], [sd.InputStream], the
    model, the signals of the window, [json.loads]. *)
Definition lab_env (child : proc_result) (input_stream : outcome unit)
    (model : outcome (list string)) (emit : gui_signal Z -> outcome unit)
    (loads : string -> outcome json) : Env Z Z :=
  {| time_time := fun n => Z.of_nat n;
     time_sub := Z.sub;
     time_zero := 0%Z;
     pyperclip_copy := fun _ _ => Ok tt;
     child_process := fun _ _ => child;
     called_process_error_str := fun _ _ => "Command returned non-zero exit status";
     bytes_decode := fun b => Ok (string_of_list_byte b);
     json_loads := loads;
     sd_InputStream := fun _ => input_stream;
     sd_stream_start := fun _ => Ok tt;
     sd_stream_stop := fun _ => Ok tt;
     sd_stream_close := fun _ => Ok tt;
     astype_int16 := fun s => s;
     vad_is_speech := fun _ _ _ => Ok true;
     model_transcribe := fun _ _ => model;
     signal_emit := fun _ sig => emit sig;
     psutil_rss_mb := Ok 100%Z;
     join_iterations := fun _ => 0;
     not_a_mapping_str := demo_not_a_mapping_str;
     unexpected_keyword_str := demo_unexpected_keyword_str |}.

(** No [ydotool] on the system: [which] exits with 1. *)
Definition no_ydotool_env : Env Z Z :=
  lab_env (Completed 1 []) (Ok tt) (Ok ["hello world"]) (fun _ => Ok tt) demo_json_loads.

(** No input device. *)
Definition no_microphone_env : Env Z Z :=
  lab_env (Completed 0 []) (Raise (new_exn PortAudioError "Error querying device -1"))
    (Ok ["hello world"]) (fun _ => Ok tt) demo_json_loads.


(** A window that is gone when it is asked to hide. *)
Definition lost_window_env : Env Z Z :=
  lab_env (Completed 0 []) (Ok tt) (Ok ["hello world"])
    (fun sig => match sig with
                | hide_window_signal =>
                    Raise (new_exn RuntimeError "wrapped C/C++ object has been deleted")
                | _ => Ok tt
                end)
    demo_json_loads.

(** A client that asks for [pause]. *)
Definition pause_request : string :=
  "{" ++ dq ++ "command" ++ dq ++ ": " ++ dq ++ "pause" ++ dq ++ "}".

Definition pause_env : Env Z Z :=
  lab_env (Completed 0 []) (Ok tt) (Ok ["hello world"]) (fun _ => Ok tt)
    (fun text => if String.eqb text pause_request
                 then Ok (JObj {[ "command" := JStr "pause" ]})
                 else demo_json_loads text).

(** [insert_text "hello"] on the clipboard injector. *)
Definition inserted_world : W Z TextInjector.t :=
  Eval vm_compute in snd (TextInjector.insert_text quiet_env "hello" (injector0, amb0)).

(** A recording daemon that has heard a little more than half a second. *)
Definition long_audio : list (bufitem Z) := repeat (Mono 0%Z) (Z.to_nat 8001).

Definition recording_daemon : Daemon.t Z Z :=
  Daemon.set_audio_capture
    (AudioCapture.set_audio_buffer long_audio (Daemon.audio_capture (fst started_world)))
    (fst started_world).

(** What [stop] answers for it when there is no clipboard mechanism. *)
Definition undelivered_result : Daemon.result Z :=
  Eval vm_compute in
    match fst (Daemon._handle_stop_command no_clipboard_env (recording_daemon, amb0)) with
    | Ok r => r
    | Raise _ => []
    end.

(** A classifier that goes by the first sample of the frame: speech when
    it is positive, none when it is zero, a failure when it is negative. *)
Definition marked_vad (frame : list Z) : outcome bool :=
  match frame with
  | x :: _ =>
      if (0 <? x)%Z then Ok true
      else if (x <? 0)%Z then Raise (new_exn Exception "Error while processing frame")
      else Ok false
  | [] => Ok false
  end.

Definition marked_vad_env : Env Z Z :=
  {| time_time := fun n => Z.of_nat n;
     time_sub := Z.sub;
     time_zero := 0%Z;
     pyperclip_copy := fun _ _ => Ok tt;
     child_process := fun _ _ => Completed 0 [];
     called_process_error_str := fun _ _ => "Command returned non-zero exit status";
     bytes_decode := fun b => Ok (string_of_list_byte b);
     json_loads := demo_json_loads;
     sd_InputStream := fun _ => Ok tt;
     sd_stream_start := fun _ => Ok tt;
     sd_stream_stop := fun _ => Ok tt;
     sd_stream_close := fun _ => Ok tt;
     astype_int16 := fun s => s;
     vad_is_speech := fun _ frame _ => marked_vad frame;
     model_transcribe := fun _ _ => Ok ["hello world"];
     signal_emit := fun _ _ => Ok tt;
     psutil_rss_mb := Ok 100%Z;
     join_iterations := fun _ => 0;
     not_a_mapping_str := demo_not_a_mapping_str;
     unexpected_keyword_str := demo_unexpected_keyword_str |}.

(** A chunk of frames of two samples, each starting with its mark, and
    one sample more. *)
Definition marked_chunk (marks : list Z) : list (bufitem Z) :=
  (concat (map (fun m => [Mono m; Mono 0%Z]) marks) ++ [Mono 0%Z])%list.

(** 3 voiced frames of 20, 149 of 1000, and 1 voiced frame of 20 of which
    17 cannot be classified. *)
Definition chunk_at_threshold : list (bufitem Z) :=
  marked_chunk (repeat 1%Z 3 ++ repeat 0%Z 17)%list.

Definition chunk_below_threshold : list (bufitem Z) :=
  marked_chunk (repeat 1%Z 149 ++ repeat 0%Z 851)%list.

Definition chunk_with_failures : list (bufitem Z) :=
  marked_chunk ([1; 0; 0] ++ repeat (-1) 17)%Z%list.

(** What the classifier answers on the frames of [chunk_with_failures]. *)
Definition answers_with_failures : list (outcome bool) :=
  vad_answers marked_vad_env 16000 (full_frames marked_vad_env chunk_with_failures 2) [].

(** A capture engine whose lifetime counters are not zero. *)
Definition counted_capture : AudioCapture.t Z Z :=
  AudioCapture.set_total_frames 7 (AudioCapture.set_voiced_frames 5 capture0).

(** A streaming engine with chunks of 200 samples that has 450 samples in
    its buffer. *)
Definition streaming_capture : AudioCapture.t Z Z :=
  AudioCapture.set_audio_buffer (repeat (Mono 0%Z) 450)
    (AudioCapture.set_recording true
       (AudioCapture.__init__ quiet_env 100 1 (float_of_int 2) None)).

(** The characters U+00A0, no-break space, and U+3000, ideographic space,
    as UTF-8 encodes them. *)
Definition nbsp : string :=
  String (ascii_of_nat 194) (String (ascii_of_nat 160) EmptyString).

Definition ideographic_space : string :=
  String (ascii_of_nat 227) (String (ascii_of_nat 128) (String (ascii_of_nat 128)
    EmptyString)).

(** A model whose segments come with such blanks around them. *)
Definition padded_model_env : Env Z Z :=
  lab_env (Completed 0 []) (Ok tt)
    (Ok [ideographic_space ++ "hello"; "world" ++ nbsp])
    (fun _ => Ok tt) demo_json_loads.

Definition padded_result : Daemon.result Z :=
  Eval vm_compute in
    match fst (Daemon._handle_stop_command padded_model_env (recording_daemon, amb0)) with
    | Ok r => r
    | Raise _ => []
    end.

(** A user's file that asks for the small model. *)
Definition small_model_overlay : Config.dict :=
  [ ("model", Config.VDict [ ("size", Config.VStr "small") ]) ].

Definition german_config : Config.dict :=
  Eval vm_compute in
    snd (Config.set Config.DEFAULT_CONFIG ["model"; "language"] (Config.VStr "de")).

(** A host on which only the CPU can hold the model. *)
Definition cpu_only_host : StreamingTranscriber.Host Z :=
  {| StreamingTranscriber.host_time := fun n => float_of_int (Z.of_nat n);
     StreamingTranscriber.WhisperModel :=
       fun _ _ device _ =>
         if String.eqb device "cpu" then Ok tt
         else Raise (new_exn RuntimeError "CUDA failed with error no CUDA-capable device");
     StreamingTranscriber.model_transcribe := fun _ _ _ _ => Ok [" hello "];
     StreamingTranscriber.join_passes := fun _ => 0 |}.

Definition hamb0 : StreamingTranscriber.HAmb Z := StreamingTranscriber.mk_hamb [] 0.

Definition streaming0 : StreamingTranscriber.t Z :=
  StreamingTranscriber.__init__ "medium" "cuda" "float16" "en" None.

Definition streaming_loaded : StreamingTranscriber.t Z * StreamingTranscriber.HAmb Z :=
  Eval vm_compute in snd (StreamingTranscriber.load_model cpu_only_host (streaming0, hamb0)).

(** Two chunks queued, and [running] switched off before the thread took
    any. *)
Definition streaming_backlog : StreamingTranscriber.t Z :=
  StreamingTranscriber.set_running false
    (fst (api_run cpu_only_host
            [ call_start_processing;
              call_transcribe_chunk [Mono 1%Z; Mono 2%Z] (float_of_int 0);
              call_transcribe_chunk [Mono 3%Z] (float_of_int 1) ]
            streaming_loaded)).

(** The loaded transcriber at work: the thread runs and a chunk is
    queued. *)
Definition streaming_at_work : StreamingTranscriber.t Z * StreamingTranscriber.HAmb Z :=
  api_run cpu_only_host
    [ call_start_processing; call_transcribe_chunk [Mono 1%Z; Mono 2%Z] (float_of_int 0) ]
    streaming_loaded.

(** A widget of four bars, and a bar that is as high as its window is
    long. *)
Definition widget4 : WaveformWidget.t := WaveformWidget.__init__ 4.

Definition length_bar (window : list Z) : spec_float :=
  float_of_int (Z.of_nat (length window)).

(** * Properties *)

(** ** Capture engine *)

Section CaptureProperties.
Context {sample time : Type} (E : Env sample time).

Lemma start_fresh :
  forall (ac : AudioCapture.t sample time) (a : Amb sample) w1,
    AudioCapture.recording ac = false ->
    AudioCapture.chunk_callback ac = None ->
    AudioCapture.start E (ac, a) = (Ok tt, w1) ->
    AudioCapture.recording (fst w1) = true /\
    AudioCapture.audio_buffer (fst w1) = [] /\
    same_config ac (fst w1).
Proof.
  intros ac a w1 Hrec Hcb.
  unfold AudioCapture.start, bind, self, update, try_except, external, time_now, raise, ret.
  cbn. rewrite Hrec. cbn.
  destruct (sd_InputStream E (trace a)); cbn.
  - destruct (sd_stream_start E (EvStreamOpen :: trace a)); cbn.
    + rewrite Hcb. intros H; inversion H; subst; cbn. unfold same_config; cbn.
      repeat split.
    + discriminate.
  - discriminate.
Qed.

Lemma start_resets_buffer :
  forall (ac : AudioCapture.t sample time) (a : Amb sample),
    AudioCapture.recording ac = false ->
    AudioCapture.audio_buffer (fst (snd (AudioCapture.start E (ac, a)))) = [].
Proof.
  intros ac a Hrec.
  unfold AudioCapture.start, bind, self, update, try_except, external, time_now, raise, ret.
  cbn. rewrite Hrec. cbn.
  destruct (sd_InputStream E (trace a)); cbn; [ | reflexivity ].
  destruct (sd_stream_start E (EvStreamOpen :: trace a)); cbn; [ | reflexivity ].
  destruct (AudioCapture.chunk_callback ac); reflexivity.
Qed.

Lemma audio_callback_appends :
  forall (indata : list (sample * list sample)) (w : W sample (AudioCapture.t sample time)),
    AudioCapture.recording (fst w) = true ->
    let w' := snd (AudioCapture._audio_callback indata w) in
    AudioCapture.recording (fst w') = true /\
    AudioCapture.audio_buffer (fst w') =
      (AudioCapture.audio_buffer (fst w)
       ++ AudioCapture.audio_data_of (AudioCapture.channels (fst w)) indata)%list /\
    AudioCapture.stream (fst w') = AudioCapture.stream (fst w) /\
    same_config (fst w) (fst w').
Proof.
  intros indata [ac a] Hrec. cbn in Hrec.
  unfold AudioCapture._audio_callback, bind, self, update, try_except,
    AudioCapture.call_callback, ret.
  cbn. rewrite Hrec. cbn.
  destruct (AudioCapture.waveform_callback ac) as [f|]; cbn.
  - destruct (f _ a) as [[ [] | e ] a']; cbn; unfold same_config; cbn;
      repeat split; assumption.
  - unfold same_config; cbn; repeat split; assumption.
Qed.

Lemma audio_driver_appends :
  forall (blocks : list (list (sample * list sample)))
         (w : W sample (AudioCapture.t sample time)),
    AudioCapture.recording (fst w) = true ->
    let w' := audio_driver blocks w in
    AudioCapture.recording (fst w') = true /\
    AudioCapture.audio_buffer (fst w') =
      (AudioCapture.audio_buffer (fst w)
       ++ concat (map (AudioCapture.audio_data_of (AudioCapture.channels (fst w))) blocks))%list /\
    AudioCapture.stream (fst w') = AudioCapture.stream (fst w) /\
    same_config (fst w) (fst w').
Proof.
  induction blocks as [|indata rest IH]; intros w Hrec; cbn.
  - rewrite app_nil_r. unfold same_config. repeat split; assumption.
  - destruct (audio_callback_appends indata w Hrec) as (Hr & Hb & Hs & Hc1 & Hc2 & Hc3).
    destruct (IH _ Hr) as (Hr' & Hb' & Hs' & Hc1' & Hc2' & Hc3').
    split; [exact Hr'|]. split.
    + rewrite Hb', Hb, Hc1, <- app_assoc. reflexivity.
    + split; [congruence|]. unfold same_config. repeat split; congruence.
Qed.

Lemma mono_audio_data :
  forall (blocks : list (list (sample * list sample))),
    concat (map (AudioCapture.audio_data_of 1) blocks) =
    map Mono (concat (map (map fst) blocks)).
Proof.
  induction blocks as [|b bs IH]; cbn; [reflexivity|].
  rewrite map_app, map_map, IH. reflexivity.
Qed.

Lemma stop_returns_buffer :
  forall (w : W sample (AudioCapture.t sample time)),
    (forall h, sd_stream_stop E h = Ok tt) ->
    (forall h, sd_stream_close E h = Ok tt) ->
    AudioCapture.capture_thread (fst w) = None ->
    exists w',
      AudioCapture.stop E w = (Ok (AudioCapture.audio_buffer (fst w)), w') /\
      AudioCapture.recording (fst w') = false.
Proof.
  intros [ac a] Hstop Hclose Hth. cbn in Hth.
  unfold AudioCapture.stop, bind, self, update, external, time_now, ret.
  cbn. destruct (AudioCapture.stream ac); cbn.
  - rewrite Hstop. cbn. rewrite Hclose. cbn. rewrite Hth. cbn. eauto.
  - rewrite Hth. cbn. eauto.
Qed.

(** C10: [start] on a capture that is already running returns normally and
    changes nothing: not a field of the object (buffer, start time,
    counters, stream), not the trace (no stream is opened), not the clock. *)
Theorem start_while_recording_is_noop :
  forall (ac : AudioCapture.t sample time) (a : Amb sample),
    AudioCapture.recording ac = true ->
    AudioCapture.start E (ac, a) = (Ok tt, (ac, a)).
Proof.
  intros ac a Hrec.
  unfold AudioCapture.start, bind, self. cbn. rewrite Hrec. reflexivity.
Qed.

(** C9: in batch mode (no chunk callback, no streaming thread), after a
    [start] that armed the capture, the blocks the driver delivers are
    returned by [stop] in order and complete (for a mono stream: column 0
    of every block), and whatever a following [start] does, it leaves an
    empty buffer.  The driver is assumed to stop and close the stream. *)
Theorem batch_drain_returns_all_samples :
  forall (ac : AudioCapture.t sample time) (a : Amb sample)
         (blocks : list (list (sample * list sample))) w1,
    AudioCapture.recording ac = false ->
    AudioCapture.chunk_callback ac = None ->
    AudioCapture.capture_thread ac = None ->
    (forall h, sd_stream_stop E h = Ok tt) ->
    (forall h, sd_stream_close E h = Ok tt) ->
    AudioCapture.start E (ac, a) = (Ok tt, w1) ->
    exists w3,
      AudioCapture.stop E (audio_driver blocks w1) =
        (Ok (concat (map (AudioCapture.audio_data_of (AudioCapture.channels ac)) blocks)), w3) /\
      (AudioCapture.channels ac = 1%Z ->
       concat (map (AudioCapture.audio_data_of (AudioCapture.channels ac)) blocks) =
       map Mono (concat (map (map fst) blocks))) /\
      AudioCapture.audio_buffer (fst (snd (AudioCapture.start E w3))) = [].
Proof.
  intros ac a blocks w1 Hrec Hcb Hth Hstop Hclose Hstart.
  destruct (start_fresh ac a w1 Hrec Hcb Hstart) as (Hr1 & Hb1 & Hch1 & _ & Hth1).
  destruct (audio_driver_appends blocks w1 Hr1) as (_ & Hb2 & _ & _ & _ & Hth2).
  destruct (stop_returns_buffer (audio_driver blocks w1) Hstop Hclose) as (w3 & Hs & Hr3).
  { congruence. }
  exists w3. rewrite Hs, Hb2, Hb1, Hch1. cbn. split; [reflexivity|]. split.
  - intros H1. rewrite H1. apply mono_audio_data.
  - destruct w3 as [ac3 a3]. apply start_resets_buffer. exact Hr3.
Qed.

End CaptureProperties.

(** ** Insertion chain *)

Section InjectorProperties.
Context {sample time : Type} (E : Env sample time).

Ltac run_py :=
  unfold bind, ret, raise, self, update, external, try_except, try_excepts,
    pyperclip_copy_, subprocess_run, TextInjector.log_called_process_error in *;
  cbn in *.

(** Case analysis on the innermost scrutinee first. *)
Ltac split_match :=
  repeat (match goal with
          | |- context [match ?x with _ => _ end] =>
              lazymatch x with
              | context [match _ with _ => _ end] => fail
              | _ => destruct x eqn:?; cbn in *
              end
          end).

(** A ydotool method whose dependency is absent fails without touching
    the clipboard or spawning a process. *)
Lemma ydotool_absent_not_invoked :
  forall (inj : TextInjector.t) (a : Amb sample) (text : string),
    TextInjector._ydotool_available inj = false ->
    TextInjector._insert_direct E text (inj, a) = (Ok false, (inj, a)) /\
    TextInjector._insert_auto_paste E text (inj, a) = (Ok false, (inj, a)).
Proof.
  intros inj a text H.
  unfold TextInjector._insert_direct, TextInjector._insert_auto_paste.
  run_py. rewrite H. cbn. split; reflexivity.
Qed.

(** No delivery method changes a field of the injector. *)
Lemma attempt_keeps_fields :
  forall (m : TextInjector.InsertionMethod) (text : string)
         (inj : TextInjector.t) (a : Amb sample),
    fst (snd (TextInjector.attempt E m text (inj, a))) = inj.
Proof.
  intros m text inj a.
  destruct m; unfold TextInjector.attempt, TextInjector._insert_direct,
    TextInjector._insert_auto_paste, TextInjector._insert_clipboard;
    run_py; split_match; reflexivity.
Qed.

(** The first candidate that reports success is returned at once and
    recorded; the candidates after it are not tried. *)
Lemma insert_loop_first_success :
  forall (ms : list TextInjector.InsertionMethod) (text : string) (le : option exn)
         (w w' : W sample TextInjector.t) (m : TextInjector.InsertionMethod),
    TextInjector.insert_loop E ms text le w = (Ok m, w') ->
    exists pre post w1 w2,
      ms = (pre ++ m :: post)%list /\
      failed_attempts E pre text w = Some w1 /\
      TextInjector.attempt E m text w1 = (Ok true, w2) /\
      w' = (TextInjector.set_last_method_used m (fst w2), snd w2).
Proof.
  induction ms as [|p rest IH]; intros text le w w' m H; cbn in H.
  - discriminate.
  - destruct (TextInjector.attempt E p text w) as [[[|]|e] w1] eqn:Hp.
    + destruct w1 as [inj1 a1]. run_py. inversion H; subst.
      exists [], rest, w, (inj1, a1). cbn. auto.
    + destruct (IH _ _ _ _ _ H) as (pre & post & wa & wb & -> & Hf & Ha & ->).
      exists (p :: pre), post, wa, wb. cbn. rewrite Hp. auto.
    + destruct (IH _ _ _ _ _ H) as (pre & post & wa & wb & -> & Hf & Ha & ->).
      exists (p :: pre), post, wa, wb. cbn. rewrite Hp. auto.
Qed.

(** When the loop runs out of candidates, every one of them was tried and
    failed, and the error carries [str] of the last exception that escaped
    a delivery method, or ["None"]. *)
Lemma insert_loop_exhausted :
  forall (ms : list TextInjector.InsertionMethod) (text : string) (le : option exn)
         (w w' : W sample TextInjector.t) (e : exn),
    TextInjector.insert_loop E ms text le w = (Raise e, w') ->
    failed_attempts E ms text w = Some w' /\
    exists le',
      e = new_exn Exception
            ("All text insertion methods failed. Last error: "
             ++ TextInjector.str_last_error le').
Proof.
  induction ms as [|p rest IH]; intros text le w w' e H; cbn in H.
  - run_py. inversion H; subst. cbn. eauto.
  - cbn. destruct (TextInjector.attempt E p text w) as [[[|]|e1] w1] eqn:Hp.
    + destruct w1. run_py. discriminate.
    + eapply IH; eauto.
    + eapply IH; eauto.
Qed.

(** The exhausted chain when ydotool is absent: whatever exception the
    clipboard raised, the aggregated error says ["Last error: None"]. *)
Lemma exhausted_chain_hides_cause :
  forall (inj : TextInjector.t) (a : Amb sample) (text : string) (cause : exn),
    str_nonempty text = true ->
    TextInjector._ydotool_available inj = false ->
    pyperclip_copy E (trace a) text = Raise cause ->
    TextInjector.insert_text E text (inj, a) =
      (Raise (new_exn Exception "All text insertion methods failed. Last error: None"),
       (inj, mk_amb (EvClipboardCopy text :: trace a) (clock_reads a))).
Proof.
  intros inj a text cause Hne Hy Hc.
  unfold TextInjector.insert_text. rewrite Hne. cbn.
  pose proof (ydotool_absent_not_invoked inj a text Hy) as [Hd Hp].
  assert (Hclip : TextInjector._insert_clipboard E text (inj, a) =
                  (Ok false, (inj, mk_amb (EvClipboardCopy text :: trace a) (clock_reads a)))).
  { unfold TextInjector._insert_clipboard. run_py. rewrite Hc. reflexivity. }
  assert (Hstep : forall p rest w',
             TextInjector.attempt E p text (inj, a) = (Ok false, w') ->
             TextInjector.insert_loop E (p :: rest) text None (inj, a) =
             TextInjector.insert_loop E rest text None w').
  { intros p rest w' Hp'. cbn [TextInjector.insert_loop]. rewrite Hp'. reflexivity. }
  unfold TextInjector.methods_for.
  destruct (String.eqb _ "auto"); [ | destruct (String.eqb _ "direct");
    [ | destruct (String.eqb _ "auto_paste") ] ];
    repeat (erewrite Hstep; [ | first [ exact Hd | exact Hp | exact Hclip ] ]);
    reflexivity.
Qed.

End InjectorProperties.

(** ** Generic facts about the monad *)

Lemma bind_inv :
  forall {S A B} (m : M S A) (k : A -> M S B) (s s' : S) (r : outcome B),
    bind m k s = (r, s') ->
    (exists a s1, m s = (Ok a, s1) /\ k a s1 = (r, s')) \/
    (exists e, m s = (Raise e, s') /\ r = Raise e).
Proof.
  intros S A B m k s s' r H. unfold bind in H.
  destruct (m s) as [[a|e] s1].
  - left. eauto.
  - right. inversion H; subst. eauto.
Qed.

Lemma bind_ok_inv :
  forall {S A B} (m : M S A) (k : A -> M S B) (s s' : S) (b : B),
    bind m k s = (Ok b, s') ->
    exists a s1, m s = (Ok a, s1) /\ k a s1 = (Ok b, s').
Proof.
  intros S A B m k s s' b H.
  destruct (bind_inv _ _ _ _ _ H) as [H1 | (e & _ & He)]; [exact H1 | discriminate].
Qed.

(** ** Session orchestrator *)

Section DaemonProperties.
Context {sample time : Type} (E : Env sample time).

(** A call into a component leaves the session fields alone. *)
Lemma on_audio_capture_state :
  forall {A} (m : M (W sample (AudioCapture.t sample time)) A) d a r d' a',
    on_field Daemon.audio_capture Daemon.set_audio_capture m (d, a) = (r, (d', a')) ->
    exists ac', m (Daemon.audio_capture d, a) = (r, (ac', a')) /\
                d' = Daemon.set_audio_capture ac' d.
Proof.
  intros A m d a r d' a' H. unfold on_field, zoom in H.
  destruct (m (Daemon.audio_capture d, a)) as [r0 [ac' a0]].
  inversion H; subst. eauto.
Qed.

Lemma on_transcriber_state :
  forall {A} (m : M (W sample Transcriber.t) A) (d : Daemon.t sample time) a r d' a',
    on_field Daemon.transcriber Daemon.set_transcriber m (d, a) = (r, (d', a')) ->
    exists tr', m (Daemon.transcriber d, a) = (r, (tr', a')) /\
                d' = Daemon.set_transcriber tr' d.
Proof.
  intros A m d a r d' a' H. unfold on_field, zoom in H.
  destruct (m (Daemon.transcriber d, a)) as [r0 [tr' a0]].
  inversion H; subst. eauto.
Qed.

Lemma on_text_injector_state :
  forall {A} (m : M (W sample TextInjector.t) A) (d : Daemon.t sample time) a r d' a',
    on_field Daemon.text_injector Daemon.set_text_injector m (d, a) = (r, (d', a')) ->
    exists ti', m (Daemon.text_injector d, a) = (r, (ti', a')) /\
                d' = Daemon.set_text_injector ti' d.
Proof.
  intros A m d a r d' a' H. unfold on_field, zoom in H.
  destruct (m (Daemon.text_injector d, a)) as [r0 [ti' a0]].
  inversion H; subst. eauto.
Qed.

(** [stop] outside Recording: the fixed failure, and nothing changes. *)
Lemma stop_rejected :
  forall (d : Daemon.t sample time) (a : Amb sample),
    Daemon.state d <> Daemon.RECORDING ->
    Daemon._handle_stop_command E (d, a) =
      (Ok (failure "No recording in progress"), (d, a)).
Proof.
  intros d a H.
  unfold Daemon._handle_stop_command, try_except, bind, self. cbn.
  destruct (Daemon.state d); cbn; try reflexivity. congruence.
Qed.

(** [start] outside Idle: the failure names the state, and nothing changes. *)
Lemma start_rejected :
  forall (d : Daemon.t sample time) (a : Amb sample),
    Daemon.state d <> Daemon.IDLE ->
    Daemon._handle_start_command E (d, a) =
      (Ok (failure ("Cannot start: already " ++ Daemon.value (Daemon.state d))), (d, a)).
Proof.
  intros d a H.
  unfold Daemon._handle_start_command, try_except, bind, self. cbn.
  destruct (Daemon.state d); cbn; try reflexivity. congruence.
Qed.

Ltac inv_bind H :=
  let x := fresh "x" in
  let d := fresh "d" in
  let a := fresh "a" in
  let Hx := fresh "Hx" in
  apply bind_ok_inv in H; destruct H as (x & [d a] & Hx & H).

Ltac inv_bind_as H x d a Hx :=
  apply bind_ok_inv in H; destruct H as (x & [d a] & Hx & H).

(** A step that cannot raise: its result and world are substituted away. *)
Ltac pure_bind H x d a :=
  let Hx := fresh "Hx" in
  inv_bind_as H x d a Hx;
  unfold self, update, ret, time_now in Hx; cbn in Hx;
  inversion Hx; clear Hx; try subst x; try subst d; try subst a.

Ltac inv_pure H :=
  unfold self, update, ret, time_now in H; cbn in H; inversion H; subst; clear H.

(** Resolve every step that cannot raise. *)
Ltac inv_steps :=
  repeat match goal with
         | H : self _ _ = _ |- _ => inv_pure H
         | H : update _ _ = _ |- _ => inv_pure H
         | H : ret _ _ = _ |- _ => inv_pure H
         | H : time_now _ _ = _ |- _ => inv_pure H
         end.

Ltac inv_emit H :=
  match type of H with
  | (if ?g then _ else _) _ = _ =>
      destruct g; [ unfold emit, external in H; cbn in H | ];
      inv_pure H
  end.

(** A [stop] in Recording always answers, and always ends in Idle:
    on the normal path through the final assignment, on every exception
    through the handler. *)
Lemma stop_from_recording :
  forall (d : Daemon.t sample time) (a : Amb sample),
    Daemon.state d = Daemon.RECORDING ->
    exists r d' a',
      Daemon._handle_stop_command E (d, a) = (Ok r, (d', a')) /\
      Daemon.state d' = Daemon.IDLE.
Proof.
  intros d a Hst.
  unfold Daemon._handle_stop_command, try_except.
  match goal with |- context [match ?b (d, a) with _ => _ end] =>
    destruct (b (d, a)) as [[r|e] [d' a']] eqn:Hb end.
  - exists r, d', a'. split; [reflexivity|].
    inv_bind Hb. inv_pure Hx. rewrite Hst in Hb. cbn in Hb.
    repeat inv_bind Hb. inv_steps. reflexivity.
  - cbn. eexists _, _, _. split; [reflexivity|]. reflexivity.
Qed.

(** [start] always answers.  It succeeds only from Idle, and then the
    session is Recording; when it fails the state is what it was. *)
Lemma start_outcome :
  forall (d : Daemon.t sample time) (a : Amb sample),
    exists r d' a',
      Daemon._handle_start_command E (d, a) = (Ok r, (d', a')) /\
      ((Daemon.succeeded r = true /\ Daemon.state d = Daemon.IDLE /\
        Daemon.state d' = Daemon.RECORDING) \/
       (Daemon.succeeded r = false /\ Daemon.state d' = Daemon.state d)).
Proof.
  intros d a.
  destruct (Daemon.state d) eqn:Hst.
  - unfold Daemon._handle_start_command, try_except.
    match goal with |- context [match ?b (d, a) with _ => _ end] =>
      destruct (b (d, a)) as [[r|e] [d' a']] eqn:Hb end.
    + exists r, d', a'. split; [reflexivity|]. left.
      inv_bind Hb. inv_pure Hx. rewrite Hst in Hb. cbn in Hb.
      repeat inv_bind Hb. inv_steps. inv_emit Hx5; auto.
    + cbn. eexists _, _, _. split; [reflexivity|]. right. cbn. auto.
  - rewrite start_rejected by congruence. rewrite Hst.
    eexists _, _, _. split; [reflexivity|]. right. cbn. auto.
  - rewrite start_rejected by congruence. rewrite Hst.
    eexists _, _, _. split; [reflexivity|]. right. cbn. auto.
Qed.

(** [status] answers and changes no field of the daemon. *)
Lemma status_keeps_daemon :
  forall (d : Daemon.t sample time) (a : Amb sample),
    exists r a', Daemon._handle_status_command E (d, a) = (Ok r, (d, a')).
Proof.
  intros d a. destruct d as [st t0 n t1 tr ac ti gui run].
  unfold Daemon._handle_status_command, Daemon._estimate_memory_usage,
    AudioCapture.get_status, try_except, on_field, zoom, bind, self, ret, raise,
    time_now.
  cbn. destruct (AudioCapture.recording ac); cbn;
    destruct ac; cbn; destruct (psutil_rss_mb E) as [mb|e]; cbn;
    try destruct (exn_class_eqb (exn_cls e) ImportError); cbn; eauto.
Qed.

(** The state after each command, whatever the collaborators do. *)
Lemma handle_state :
  forall (c : Daemon.command) (d : Daemon.t sample time) (a : Amb sample),
    exists r d' a',
      Daemon.handle E c (d, a) = (r, (d', a')) /\
      (Daemon.state d' = Daemon.state d \/
       (Daemon.state d = Daemon.RECORDING /\ Daemon.state d' = Daemon.IDLE) \/
       (Daemon.state d = Daemon.IDLE /\ Daemon.state d' = Daemon.RECORDING)).
Proof.
  intros c d a. destruct c; cbn [Daemon.handle].
  - destruct (start_outcome d a) as (r & d' & a' & H & [(_ & H1 & H2) | (_ & H2)]);
      exists (Ok r), d', a'; auto.
  - destruct (Daemon.state d) eqn:Hst.
    + rewrite stop_rejected by congruence. eexists _, _, _; split; eauto.
    + destruct (stop_from_recording d a Hst) as (r & d' & a' & H & H').
      exists (Ok r), d', a'. auto.
    + rewrite stop_rejected by congruence. eexists _, _, _; split; eauto.
  - destruct (status_keeps_daemon d a) as (r & a' & H).
    exists (Ok r), d, a'. auto.
  - unfold Daemon._handle_shutdown_command, bind, self, external, ret. cbn.
    destruct (Daemon.state d) eqn:Hst; cbn.
    + eexists _, _, _; split; [reflexivity|]. auto.
    + destruct (stop_from_recording d a Hst) as (r & d' & a' & H & H').
      rewrite H. cbn. eexists _, _, _; split; [reflexivity|]. auto.
    + eexists _, _, _; split; [reflexivity|]. auto.
  - unfold Daemon._handle_gui_stop_request, bind.
    destruct (Daemon.state d) eqn:Hst.
    + rewrite stop_rejected by congruence. unfold self, ret. cbn.
      rewrite andb_false_r. cbn. eexists _, _, _; split; [reflexivity|]. auto.
    + destruct (stop_from_recording d a Hst) as (r & d' & a' & H & H').
      rewrite H. unfold self, ret, emit, external. cbn.
      destruct (Daemon.gui_window d' && Daemon.succeeded r); cbn;
        [ destruct (signal_emit E (trace a') hide_window_signal) | ];
        eexists _, _, _; (split; [reflexivity|]); auto.
    + rewrite stop_rejected by congruence. unfold self, ret. cbn.
      rewrite andb_false_r. cbn. eexists _, _, _; split; [reflexivity|]. auto.
Qed.

Lemma run_never_processing :
  forall (cs : list Daemon.command) (w : W sample (Daemon.t sample time)),
    state_of w <> Daemon.PROCESSING ->
    state_of (snd (Daemon.run E cs w)) <> Daemon.PROCESSING.
Proof.
  induction cs as [|c rest IH]; intros [d a] H; cbn; [exact H|].
  destruct (handle_state c d a) as (r & d' & a' & Hh & Hs). rewrite Hh.
  specialize (IH (d', a')).
  destruct (Daemon.run E rest (d', a')) as [rs w'']. cbn in *.
  apply IH. unfold state_of in *. cbn in *.
  destruct Hs as [Hs | [[_ Hs] | [_ Hs]]]; congruence.
Qed.

(** Without a streaming thread, [stop] of the capture engine returns the
    buffer and talks to the audio stream only. *)
Lemma capture_stop_no_thread :
  forall (ac ac' : AudioCapture.t sample time) (a a' : Amb sample) x,
    AudioCapture.capture_thread ac = None ->
    AudioCapture.stop E (ac, a) = (Ok x, (ac', a')) ->
    x = AudioCapture.audio_buffer ac /\
    exists new, trace a' = (new ++ trace a)%list /\
                forallb (fun ev => negb (invokes_transcriber ev || invokes_insertion ev))
                        new = true.
Proof.
  intros ac ac' a a' x Hth.
  unfold AudioCapture.stop, bind, self, update, external, time_now, ret. cbn.
  destruct (AudioCapture.stream ac); cbn.
  - destruct (sd_stream_stop E (trace a)); cbn; [ | discriminate ].
    destruct (sd_stream_close E _); cbn; [ | discriminate ].
    rewrite Hth. cbn. intros H; inversion H; subst; cbn.
    split; [reflexivity|]. exists [EvStreamClose; EvStreamStop]. auto.
  - rewrite Hth. cbn. intros H; inversion H; subst; cbn.
    split; [reflexivity|]. exists []. auto.
Qed.

(** *** Batch mode is an invariant of the orchestrator *)

Lemma keeps_ret : forall {Obj A} (P : Obj -> Prop) (x : A), keeps (sample := sample) P (ret x).
Proof. intros Obj A P x o a H. exact H. Qed.

Lemma keeps_raise :
  forall {Obj A} (P : Obj -> Prop) (e : exn), keeps (sample := sample) (A := A) P (raise e).
Proof. intros Obj A P e o a H. exact H. Qed.

Lemma keeps_self :
  forall {Obj A} (P : Obj -> Prop) (f : Obj -> A), keeps (sample := sample) P (self f).
Proof. intros Obj A P f o a H. exact H. Qed.

Lemma keeps_time_now : forall {Obj} (P : Obj -> Prop), keeps P (time_now (Obj := Obj) E).
Proof. intros Obj P o a H. exact H. Qed.

Lemma keeps_external :
  forall {Obj A} (P : Obj -> Prop) ev (answer : list (Event sample) -> outcome A),
    keeps (Obj := Obj) P (external ev answer).
Proof. intros Obj A P ev answer o a H. exact H. Qed.

Lemma keeps_update :
  forall {Obj} (P : Obj -> Prop) (f : Obj -> Obj),
    (forall o, P o -> P (f o)) -> keeps (sample := sample) P (update f).
Proof. intros Obj P f Hf o a H. apply Hf. exact H. Qed.

Lemma keeps_bind :
  forall {Obj A B} (P : Obj -> Prop) (m : M (W sample Obj) A) (k : A -> M (W sample Obj) B),
    keeps P m -> (forall x, keeps P (k x)) -> keeps P (bind m k).
Proof.
  intros Obj A B P m k Hm Hk o a H. unfold bind.
  specialize (Hm o a H). destruct (m (o, a)) as [[x|e] [o1 a1]]; cbn in *.
  - apply Hk. exact Hm.
  - exact Hm.
Qed.

Lemma keeps_try_except :
  forall {Obj A} (P : Obj -> Prop) (m : M (W sample Obj) A) c (h : exn -> M (W sample Obj) A),
    keeps P m -> (forall e, keeps P (h e)) -> keeps P (try_except m c h).
Proof.
  intros Obj A P m c h Hm Hh o a H. unfold try_except.
  specialize (Hm o a H). destruct (m (o, a)) as [[x|e] [o1 a1]]; cbn in *.
  - exact Hm.
  - destruct (exn_isinstance e c); [apply Hh; exact Hm | exact Hm].
Qed.

Lemma keeps_if :
  forall {Obj A} (P : Obj -> Prop) (b : bool) (m1 m2 : M (W sample Obj) A),
    keeps P m1 -> keeps P m2 -> keeps P (if b then m1 else m2).
Proof. intros Obj A P b m1 m2 H1 H2. destruct b; assumption. Qed.

Lemma keeps_on_audio_capture :
  forall {A} (m : M (W sample (AudioCapture.t sample time)) A),
    keeps batch_capture m ->
    keeps batch_mode (on_field Daemon.audio_capture Daemon.set_audio_capture m).
Proof.
  intros A m Hm d a H. unfold on_field, zoom, batch_mode in *.
  specialize (Hm (Daemon.audio_capture d) a H).
  destruct (m (Daemon.audio_capture d, a)) as [r [ac' a']]. exact Hm.
Qed.

Lemma keeps_on_transcriber :
  forall {A} (m : M (W sample Transcriber.t) A),
    keeps (batch_mode (sample := sample) (time := time))
      (on_field Daemon.transcriber Daemon.set_transcriber m).
Proof.
  intros A m d a H. unfold on_field, zoom.
  destruct (m (Daemon.transcriber d, a)) as [r [tr' a']]. exact H.
Qed.

Lemma keeps_on_text_injector :
  forall {A} (m : M (W sample TextInjector.t) A),
    keeps (batch_mode (sample := sample) (time := time))
      (on_field Daemon.text_injector Daemon.set_text_injector m).
Proof.
  intros A m d a H. unfold on_field, zoom.
  destruct (m (Daemon.text_injector d, a)) as [r [ti' a']]. exact H.
Qed.

Lemma capture_start_keeps_batch : keeps batch_capture (AudioCapture.start E).
Proof.
  intros ac a [Hcb Hth].
  unfold AudioCapture.start, bind, self, update, try_except, external, time_now, raise, ret.
  cbn. destruct (AudioCapture.recording ac); cbn; [split; assumption|].
  destruct (sd_InputStream E (trace a)); cbn; [ | split; assumption ].
  destruct (sd_stream_start E (EvStreamOpen :: trace a)); cbn; [ | split; assumption ].
  rewrite Hcb. cbn. split; assumption.
Qed.

Lemma capture_stop_keeps_batch : keeps batch_capture (AudioCapture.stop E).
Proof.
  intros ac a [Hcb Hth].
  unfold AudioCapture.stop, bind, self, update, external, time_now, ret.
  cbn. destruct (AudioCapture.stream ac); cbn.
  - destruct (sd_stream_stop E (trace a)); cbn; [ | split; assumption ].
    destruct (sd_stream_close E _); cbn; [ | split; assumption ].
    rewrite Hth. cbn. split; assumption.
  - rewrite Hth. cbn. split; assumption.
Qed.

Lemma capture_status_keeps_batch : keeps batch_capture (AudioCapture.get_status E).
Proof.
  intros ac a H.
  unfold AudioCapture.get_status, bind, self, time_now, ret. cbn.
  destruct (AudioCapture.recording ac); exact H.
Qed.

Ltac keeps_auto :=
  repeat first
    [ apply keeps_ret | apply keeps_raise | apply keeps_self | apply keeps_time_now
    | apply keeps_external
    | apply keeps_on_transcriber | apply keeps_on_text_injector
    | apply keeps_on_audio_capture;
        first [ apply capture_start_keeps_batch | apply capture_stop_keeps_batch
              | apply capture_status_keeps_batch ]
    | apply keeps_update; intros ? ?; assumption
    | apply keeps_bind; [ | intros ? ]
    | apply keeps_try_except; [ | intros ? ]
    | apply keeps_if ].

Lemma stop_keeps_batch_mode : keeps batch_mode (Daemon._handle_stop_command E).
Proof. unfold Daemon._handle_stop_command. keeps_auto. Qed.

Lemma handle_keeps_batch_mode :
  forall (c : Daemon.command), keeps batch_mode (Daemon.handle E c).
Proof.
  intros c. destruct c; cbn [Daemon.handle].
  - unfold Daemon._handle_start_command. keeps_auto.
  - apply stop_keeps_batch_mode.
  - unfold Daemon._handle_status_command, Daemon._estimate_memory_usage.
    keeps_auto. destruct (psutil_rss_mb E); keeps_auto.
  - unfold Daemon._handle_shutdown_command. keeps_auto.
  - unfold Daemon._handle_gui_stop_request, emit. keeps_auto.
Qed.

(** Every daemon reached from a batch-mode daemon is in batch mode. *)
Lemma run_keeps_batch_mode :
  forall (cs : list Daemon.command) (w : W sample (Daemon.t sample time)),
    batch_mode (fst w) -> batch_mode (fst (snd (Daemon.run E cs w))).
Proof.
  induction cs as [|c rest IH]; intros [d a] H; cbn; [exact H|].
  pose proof (handle_keeps_batch_mode c d a H) as H1.
  destruct (Daemon.handle E c (d, a)) as [r [d' a']]. cbn in H1.
  specialize (IH (d', a') H1).
  destruct (Daemon.run E rest (d', a')) as [rs w'']. exact IH.
Qed.

(** C1: after any sequence of commands from the Idle daemon the session is
    never in Processing; a [stop] attempted then always answers, and either
    fails leaving the whole world as it was or leaves the session Idle
    (also when the transcriber or the insertion chain raised); a [start]
    attempted then always answers, and when it fails the session state is
    what it was. *)
Theorem session_never_left_processing :
  forall (cs : list Daemon.command) (w0 : W sample (Daemon.t sample time)),
    state_of w0 = Daemon.IDLE ->
    let w := snd (Daemon.run E cs w0) in
    state_of w <> Daemon.PROCESSING /\
    (exists r w', Daemon._handle_stop_command E w = (Ok r, w') /\
                  ((Daemon.succeeded r = false /\ w' = w) \/
                   state_of w' = Daemon.IDLE)) /\
    (exists r w', Daemon._handle_start_command E w = (Ok r, w') /\
                  state_of w' <> Daemon.PROCESSING /\
                  (Daemon.succeeded r = false -> state_of w' = state_of w)).
Proof.
  intros cs w0 H0 w.
  assert (Hw : state_of w <> Daemon.PROCESSING).
  { apply run_never_processing. congruence. }
  split; [exact Hw|]. destruct w as [d a]. unfold state_of in *. cbn in *. split.
  - destruct (Daemon.state d) eqn:Hst.
    + rewrite stop_rejected by congruence. eexists _, _. split; [reflexivity|].
      left. auto.
    + destruct (stop_from_recording d a Hst) as (r & d' & a' & H & H').
      exists r, (d', a'). auto.
    + congruence.
  - destruct (start_outcome d a) as (r & d' & a' & H & [(Hs & H1 & H2) | (Hs & H2)]);
      exists r, (d', a'); cbn; (split; [exact H|]); split; try congruence.
Qed.

(** When a [start] succeeded, the session is Recording and the next
    [start] is rejected with the world unchanged. *)
Lemma start_after_success_rejected :
  forall (w w1 : W sample (Daemon.t sample time)) (r1 : Daemon.result time),
    Daemon._handle_start_command E w = (Ok r1, w1) ->
    Daemon.succeeded r1 = true ->
    state_of w1 = Daemon.RECORDING /\
    Daemon._handle_start_command E w1 =
      (Ok (failure "Cannot start: already recording"), w1).
Proof.
  intros [d a] [d1 a1] r1 H Hs.
  destruct (start_outcome d a) as (r & d' & a' & H' & Hcase).
  rewrite H in H'. inversion H'; subst r d' a'.
  destruct Hcase as [(_ & _ & Hrec) | (Hf & _)]; [ | congruence ].
  unfold state_of. cbn. rewrite Hrec. split; [reflexivity|].
  rewrite start_rejected by congruence. rewrite Hrec. reflexivity.
Qed.

(** From Idle, [start] succeeds when the capture engine can be armed and
    the window signal is delivered. *)
Lemma start_succeeds :
  forall (d : Daemon.t sample time) (a : Amb sample),
    Daemon.state d = Daemon.IDLE ->
    fst (AudioCapture.start E (Daemon.audio_capture d, a)) = Ok tt ->
    (forall h, signal_emit E h show_window_signal = Ok tt) ->
    exists r1 w1,
      Daemon._handle_start_command E (d, a) = (Ok r1, w1) /\
      Daemon.succeeded r1 = true /\
      Daemon.sessions_count (fst w1) = (Daemon.sessions_count d + 1)%Z.
Proof.
  intros d a Hst Hcap Hemit.
  unfold Daemon._handle_start_command, try_except, bind, self, on_field, zoom,
    Transcriber.reset_transcription, update, time_now, emit, external, ret.
  cbn -[AudioCapture.start]. rewrite Hst. cbn -[AudioCapture.start].
  destruct (AudioCapture.start E (Daemon.audio_capture d, a)) as [[[]|e] [ac1 a1]];
    cbn in Hcap; [ | discriminate ].
  cbn. destruct (Daemon.gui_window d); cbn.
  - rewrite Hemit. cbn. eexists _, _. repeat split.
  - eexists _, _. repeat split.
Qed.

(** C2: from Idle, with a capture engine that can be armed and a window
    signal that is delivered, two [start]s without a [stop] in between
    give one success and one failure: the first answers with success and
    counts one session, the second answers
    ["Cannot start: already recording"], which names the current state,
    and leaves the whole world unchanged: the session fields (state,
    [session_start_time], [sessions_count]), the capture engine, the trace
    (no stream is opened) and the clock. *)
Theorem start_twice_one_success_one_failure :
  forall (d : Daemon.t sample time) (a : Amb sample),
    Daemon.state d = Daemon.IDLE ->
    fst (AudioCapture.start E (Daemon.audio_capture d, a)) = Ok tt ->
    (forall h, signal_emit E h show_window_signal = Ok tt) ->
    exists r1 w1,
      Daemon._handle_start_command E (d, a) = (Ok r1, w1) /\
      Daemon.succeeded r1 = true /\
      Daemon.sessions_count (fst w1) = (Daemon.sessions_count d + 1)%Z /\
      state_of w1 = Daemon.RECORDING /\
      Daemon._handle_start_command E w1 =
        (Ok (failure "Cannot start: already recording"), w1) /\
      Daemon.succeeded (failure (time := time) "Cannot start: already recording") = false /\
      names_state "Cannot start: already recording" (state_of w1) = true.
Proof.
  intros d a Hst Hcap Hemit.
  destruct (start_succeeds d a Hst Hcap Hemit) as (r1 & w1 & H1 & Hs & Hn).
  destruct (start_after_success_rejected _ _ _ H1 Hs) as [Hrec H2].
  exists r1, w1. rewrite Hrec. repeat split; assumption.
Qed.

(** C3: a successful [stop] in batch mode (no streaming thread) that
    drains fewer than 8000 samples does not call the model, does not call
    the clipboard or ydotool, leaves transcriber and injector untouched,
    and answers with an empty transcription, no insertion method and a
    word count of 0. *)
Theorem short_audio_guard :
  forall (d d' : Daemon.t sample time) (a a' : Amb sample) (r : Daemon.result time),
    Daemon._handle_stop_command E (d, a) = (Ok r, (d', a')) ->
    Daemon.succeeded r = true ->
    AudioCapture.capture_thread (Daemon.audio_capture d) = None ->
    (len (AudioCapture.audio_buffer (Daemon.audio_capture d)) < 8000)%Z ->
    (exists new, trace a' = (new ++ trace a)%list /\
                 forallb (fun ev => negb (invokes_transcriber ev || invokes_insertion ev))
                         new = true) /\
    Daemon.transcriber d' = Daemon.transcriber d /\
    Daemon.text_injector d' = Daemon.text_injector d /\
    Daemon.get r "transcription" = Some (Daemon.VStr "") /\
    Daemon.get r "insertion_method" = Some (Daemon.VStr "none") /\
    Daemon.get r "word_count" = Some (Daemon.VInt 0).
Proof.
  intros d d' a a' r H Hs Hth Hlen.
  destruct (Daemon.state_eqb (Daemon.state d) Daemon.RECORDING) eqn:Hst.
  2:{ rewrite stop_rejected in H by (destruct (Daemon.state d); cbn in Hst; congruence).
      inversion H; subst. discriminate. }
  unfold Daemon._handle_stop_command, try_except in H.
  match type of H with context [match ?b (d, a) with _ => _ end] =>
    destruct (b (d, a)) as [[r0|e] [d0 a0]] eqn:Hb end.
  2:{ cbn in H. inversion H; subst. discriminate. }
  inversion H; subst r0 d0 a0; clear H.
  pure_bind Hb st ds as_.
  rewrite Hst in Hb. cbn [negb] in Hb.
  pure_bind Hb gui dg ag.
  inv_bind_as Hb u1 d1 a1 Hemit.
  pure_bind Hb u2 d2 a2.
  inv_bind_as Hb audio d3 a3 Hcap.
  inv_bind_as Hb text d4 a4 Htrans.
  pure_bind Hb now d5 a5.
  pure_bind Hb t0 d6 a6.
  inv_bind_as Hb im d7 a7 Hins.
  pure_bind Hb u3 d8 a8.
  unfold ret in Hb; inversion Hb; subst r d' a'; clear Hb.
  assert (Hemit' : d1 = d /\ exists pre, trace a1 = (pre ++ trace a)%list /\
            forallb (fun ev => negb (invokes_transcriber ev || invokes_insertion ev))
                    pre = true).
  { inv_emit Hemit; split; try reflexivity;
      [ exists [EvSignalEmit hide_window_signal] | exists [] ]; auto. }
  destruct Hemit' as (-> & pre & Hpre & Hqpre).
  apply on_audio_capture_state in Hcap. destruct Hcap as (ac' & Hstop & ->).
  cbn in Hstop.
  destruct (capture_stop_no_thread _ _ _ _ _ Hth Hstop) as (-> & new & Htr & Hq).
  replace (8000 <? _)%Z with false in Htrans by (symmetry; apply Z.ltb_ge; lia).
  unfold ret in Htrans; inversion Htrans; subst text d4 a4; clear Htrans.
  cbn in Hins. unfold ret in Hins; inversion Hins; subst im d7 a7; clear Hins.
  cbn. split.
  - exists (new ++ pre)%list. rewrite Htr, Hpre, app_assoc. split; [reflexivity|].
    rewrite forallb_app, Hq, Hqpre. reflexivity.
  - auto.
Qed.

(** C7 as amended: [stop] outside Recording answers with the fixed failure
    ["No recording in progress"] and leaves the whole world unchanged:
    session fields, capture buffer, counters, trace (no signal is emitted)
    and clock. *)
Theorem stop_outside_recording_is_rejected :
  forall (d : Daemon.t sample time) (a : Amb sample),
    Daemon.state d <> Daemon.RECORDING ->
    Daemon._handle_stop_command E (d, a) =
      (Ok (failure "No recording in progress"), (d, a)).
Proof.
  intros d a H. apply stop_rejected. exact H.
Qed.

End DaemonProperties.

(** ** Command transport *)

Section TransportProperties.
Context {sample time : Type} (E : Env sample time).
Context {App R : Type} (dumps_error : R -> option exn).

Ltac run_client :=
  unfold IPCServer._handle_client, IPCServer.dispatch, IPCServer.recv,
    IPCServer.decode, IPCServer.loads, IPCServer.message_get,
    IPCServer.lookup_handler, IPCServer.call_handler, IPCServer.send_response,
    IPCServer.close, try_finally, try_except, bind, ret, raise, answered, hung_up;
  cbn -[lookup].

(** [_handle_client] returns normally on every connection and closes it. *)
Lemma handle_client_total :
  forall (srv : IPCServer.t App R) (sk : IPCServer.socket R) (app : App),
    exists sk' app',
      IPCServer._handle_client E dumps_error srv (sk, app) = (Ok tt, (sk', app')) /\
      IPCServer.closed sk' = true.
Proof.
  intros srv sk app.
  unfold IPCServer._handle_client, try_finally, try_except.
  match goal with |- context [match ?b (sk, app) with _ => _ end] =>
    destruct (b (sk, app)) as [[[]|e] [sk1 app1]] end;
    cbn; eexists _, _; split; reflexivity.
Qed.

(** A request that is not JSON is answered with ["Invalid JSON"]; the
    answer is the same for every registry, and the application state is
    untouched: no handler runs. *)
Lemma invalid_json_is_answered :
  forall (srv : IPCServer.t App R) (sk : IPCServer.socket R) (app : App) text e,
    receives E sk text ->
    json_loads E text = Raise e ->
    exn_isinstance e JSONDecodeError = true ->
    IPCServer.sendall_error sk = None ->
    IPCServer._handle_client E dumps_error srv (sk, app) =
      (Ok tt, (answered sk (IPCServer.error "Invalid JSON"), app)).
Proof.
  intros srv sk app text e (data & Hin & Hdec & Hne) Hj He Hsend.
  destruct sk as [inb out serr cl]; cbn in Hin; try cbn in Hsend; subst.
  run_client. rewrite Hdec. cbn -[lookup]. rewrite Hne. cbn -[lookup].
  rewrite Hj. cbn -[lookup]. cbn in He. rewrite He. cbn -[lookup]. reflexivity.
Qed.

(** A command name without a registered handler is answered with an error
    that names it. *)
Lemma unknown_command_is_named :
  forall (srv : IPCServer.t App R) (sk : IPCServer.socket R) (app : App) text m name,
    receives E sk text ->
    json_loads E text = Ok (JObj m) ->
    m !! "command" = Some (JStr name) ->
    IPCServer.command_handlers srv !! name = None ->
    IPCServer.sendall_error sk = None ->
    IPCServer._handle_client E dumps_error srv (sk, app) =
      (Ok tt, (answered sk (IPCServer.error ("Unknown command: " ++ name)), app)).
Proof.
  intros srv sk app text m name (data & Hin & Hdec & Hne) Hj Hc Hh Hsend.
  destruct sk as [inb out serr cl]; cbn in Hin; try cbn in Hsend; subst.
  run_client. rewrite Hdec. cbn -[lookup]. rewrite Hne. cbn -[lookup].
  rewrite Hj. cbn -[lookup]. rewrite Hc. cbn -[lookup]. rewrite Hh. cbn -[lookup]. reflexivity.
Qed.

(** An exception raised by the handler becomes an error response carrying
    [str(e)]; the handler's effects on the application stay. *)
Lemma handler_exception_is_answered :
  forall (srv : IPCServer.t App R) (sk : IPCServer.socket R) (app app' : App)
         text m name (h : IPCServer.handler App R) e,
    receives E sk text ->
    json_loads E text = Ok (JObj m) ->
    m !! "command" = Some (JStr name) ->
    m !! "args" = None ->
    IPCServer.command_handlers srv !! name = Some h ->
    h ∅ app = (Raise e, app') ->
    IPCServer.sendall_error sk = None ->
    IPCServer._handle_client E dumps_error srv (sk, app) =
      (Ok tt, (answered sk (IPCServer.error (exn_str e)), app')).
Proof.
  intros srv sk app app' text m name h e (data & Hin & Hdec & Hne) Hj Hc Ha Hh Hr Hsend.
  destruct sk as [inb out serr cl]; cbn in Hin; try cbn in Hsend; subst.
  run_client. rewrite Hdec. cbn -[lookup]. rewrite Hne. cbn -[lookup].
  rewrite Hj. cbn -[lookup]. rewrite Hc, Ha. cbn -[lookup]. rewrite Hh. cbn -[lookup]. rewrite Hr. cbn -[lookup].
  reflexivity.
Qed.

(** A handler that returns is answered with its result. *)
Lemma handler_result_is_answered :
  forall (srv : IPCServer.t App R) (sk : IPCServer.socket R) (app app' : App)
         text m name (h : IPCServer.handler App R) x,
    receives E sk text ->
    json_loads E text = Ok (JObj m) ->
    m !! "command" = Some (JStr name) ->
    m !! "args" = None ->
    IPCServer.command_handlers srv !! name = Some h ->
    h ∅ app = (Ok x, app') ->
    dumps_error x = None ->
    IPCServer.sendall_error sk = None ->
    IPCServer._handle_client E dumps_error srv (sk, app) =
      (Ok tt, (answered sk (IPCServer.success x), app')).
Proof.
  intros srv sk app app' text m name h x (data & Hin & Hdec & Hne) Hj Hc Ha Hh Hr Hd Hsend.
  destruct sk as [inb out serr cl]; cbn in Hin; try cbn in Hsend; subst.
  run_client. rewrite Hdec. cbn -[lookup]. rewrite Hne. cbn -[lookup].
  rewrite Hj. cbn -[lookup]. rewrite Hc, Ha. cbn -[lookup]. rewrite Hh. cbn -[lookup]. rewrite Hr. cbn -[lookup].
  rewrite Hd. reflexivity.
Qed.

(** A request that is valid JSON but not an object: [message.get] raises
    [AttributeError], which no [except] clause turns into a response. The
    connection is closed with nothing written. *)
Lemma non_object_request_unanswered :
  forall (srv : IPCServer.t App R) (sk : IPCServer.socket R) (app : App) text l,
    receives E sk text ->
    json_loads E text = Ok (JArr l) ->
    IPCServer._handle_client E dumps_error srv (sk, app) = (Ok tt, (hung_up sk, app)).
Proof.
  intros srv sk app text l (data & Hin & Hdec & Hne) Hj.
  destruct sk as [inb out serr cl]; cbn in Hin; try cbn in Hsend; subst.
  run_client. rewrite Hdec. cbn -[lookup]. rewrite Hne. cbn -[lookup].
  rewrite Hj. cbn -[lookup]. reflexivity.
Qed.

(** Bytes that are not UTF-8: [decode] raises before any parsing, and
    again nothing is written. *)
Lemma undecodable_request_unanswered :
  forall (srv : IPCServer.t App R) (sk : IPCServer.socket R) (app : App) data e,
    IPCServer.inbox sk = Ok data ->
    bytes_decode E (firstn 4096 data) = Raise e ->
    IPCServer._handle_client E dumps_error srv (sk, app) = (Ok tt, (hung_up sk, app)).
Proof.
  intros srv sk app data e Hin Hdec.
  destruct sk as [inb out serr cl]; cbn in Hin; try cbn in Hsend; subst.
  run_client. rewrite Hdec. cbn -[lookup]. reflexivity.
Qed.

(** The accept loop handles every connection that arrives, whatever the
    handlers raise. *)
Lemma accept_loop_handles_all :
  forall (srv : IPCServer.t App R) (clients : list (IPCServer.socket R)) (app : App),
    let done := fst (IPCServer._accept_connections E dumps_error srv clients app) in
    length done = length clients /\
    Forall (fun sk => IPCServer.closed sk = true) done.
Proof.
  intros srv clients. induction clients as [|sk rest IH]; intros app; cbn.
  - split; [reflexivity | constructor].
  - destruct (handle_client_total srv sk app) as (sk' & app' & H & Hc). rewrite H.
    specialize (IH app').
    destruct (IPCServer._accept_connections E dumps_error srv rest app') as [done app''].
    cbn in *. destruct IH as [IH1 IH2]. split; [congruence | constructor; assumption].
Qed.

End TransportProperties.

(** ** Binary64 division and the threshold *)

Section Binary64.
Local Open Scope Z_scope.

Lemma digits2_pos_bounds :
  forall p : positive,
    2 ^ (Zpos (digits2_pos p) - 1) <= Zpos p < 2 ^ Zpos (digits2_pos p).
Proof.
  induction p as [p IH | p IH | ]; cbn [digits2_pos].
  - rewrite Pos2Z.inj_succ.
    replace (Z.succ (Zpos (digits2_pos p)) - 1) with (Z.succ (Zpos (digits2_pos p) - 1)) by lia.
    rewrite !Z.pow_succ_r by lia. lia.
  - rewrite Pos2Z.inj_succ.
    replace (Z.succ (Zpos (digits2_pos p)) - 1) with (Z.succ (Zpos (digits2_pos p) - 1)) by lia.
    rewrite !Z.pow_succ_r by lia. lia.
  - cbn. lia.
Qed.

Lemma digits2_pos_unique :
  forall (p : positive) (k : Z),
    2 ^ (k - 1) <= Zpos p < 2 ^ k -> Zpos (digits2_pos p) = k.
Proof.
  intros p k [Hlo Hhi].
  pose proof (digits2_pos_bounds p) as [Dlo Dhi].
  assert (0 < k).
  { destruct (Z_lt_le_dec 0 k) as [|Hk]; [assumption|].
    assert (2 ^ k <= 1).
    { destruct (Z.eq_dec k 0) as [->|]; [cbn; lia|].
      rewrite Z.pow_neg_r by lia. lia. }
    lia. }
  destruct (Z_lt_le_dec (Zpos (digits2_pos p)) k) as [Hlt|Hge].
  - assert (2 ^ Zpos (digits2_pos p) <= 2 ^ (k - 1)) by (apply Z.pow_le_mono_r; lia). lia.
  - destruct (Z.eq_dec (Zpos (digits2_pos p)) k) as [|Hne]; [assumption|].
    assert (2 ^ k <= 2 ^ (Zpos (digits2_pos p) - 1)) by (apply Z.pow_le_mono_r; lia). lia.
Qed.

Lemma iter_xO_pow :
  forall (d p : positive), Zpos (Pos.iter xO p d) = Zpos p * 2 ^ Zpos d.
Proof.
  intros d p. induction d as [|d IH] using Pos.peano_ind.
  - cbn. lia.
  - rewrite Pos.iter_succ, Pos2Z.inj_succ, Z.pow_succ_r by lia.
    rewrite Pos2Z.inj_xO, IH. lia.
Qed.

(** Binary64: the exponent of the unit in the last place. *)
Lemma fexp_normal :
  forall e : Z, -1074 <= e - 53 -> fexp prec emax e = e - 53.
Proof.
  intros e H. unfold fexp, emin, prec, emax. lia.
Qed.

(** A mantissa of 53 digits with an exact location is left as it is. *)
Lemma binary_round_aux_exact :
  forall (m : positive) (e : Z),
    Zpos (digits2_pos m) = 53 -> -1074 <= e <= 971 ->
    binary_round_aux prec emax false (Zpos m) e loc_Exact = S754_finite false m e.
Proof.
  intros m e Hd He.
  unfold binary_round_aux, shr_fexp. cbn [round_nearest_even shr_record_of_loc Zdigits2].
  rewrite Hd, fexp_normal by lia.
  replace (53 + e - 53 - e) with 0 by lia. cbn [shr shr_m loc_of_shr_record round_nearest_even].
  cbn [Zdigits2 shr_record_of_loc]. rewrite Hd, fexp_normal by lia.
  replace (53 + e - 53 - e) with 0 by lia. cbn [shr shr_m].
  replace (e <=? emax - prec) with true by (symmetry; apply Z.leb_le; unfold emax, prec; lia).
  reflexivity.
Qed.

Lemma float_of_int_spec :
  forall z : Z,
    0 < z < 2 ^ 53 ->
    exists (m : positive) (e : Z),
      float_of_int z = S754_finite false m e /\
      Zpos (digits2_pos m) = 53 /\ -52 <= e <= 0 /\ Zpos m = z * 2 ^ (- e).
Proof.
  intros z [Hpos Hlt]. destruct z as [|p|p]; try lia.
  unfold float_of_int, binary_normalize, binary_round, shl_align.
  pose proof (digits2_pos_bounds p) as [Dlo Dhi].
  set (d := Zpos (digits2_pos p)) in *.
  assert (Hd : 1 <= d <= 53).
  { split; [unfold d; lia|].
    destruct (Z_lt_le_dec 53 d) as [Hgt|]; [|assumption].
    assert (2 ^ 53 <= 2 ^ (d - 1)) by (apply Z.pow_le_mono_r; lia). lia. }
  rewrite fexp_normal by lia.
  replace (d + 0 - 53 - 0) with (d - 53) by lia.
  destruct (d - 53) as [|k|k] eqn:Hk; try lia.
  - exists p, 0. rewrite binary_round_aux_exact by (fold d; lia).
    repeat split; try (fold d; lia).
  - assert (Hm : Zpos (Pos.iter xO p k) = Zpos p * 2 ^ Zpos k) by apply iter_xO_pow.
    assert (Hdig : Zpos (digits2_pos (Pos.iter xO p k)) = 53).
    { apply digits2_pos_unique. rewrite Hm.
      assert (H52 : 2 ^ (53 - 1) = 2 ^ (d - 1) * 2 ^ Zpos k).
      { rewrite <- Z.pow_add_r by lia. f_equal. lia. }
      assert (H53 : 2 ^ 53 = 2 ^ d * 2 ^ Zpos k).
      { rewrite <- Z.pow_add_r by lia. f_equal. lia. }
      rewrite H52, H53.
      assert (0 < 2 ^ Zpos k) by (apply Z.pow_pos_nonneg; lia).
      split; [apply Z.mul_le_mono_nonneg_r; lia | apply Z.mul_lt_mono_pos_r; lia]. }
    exists (Pos.iter xO p k), (d + 0 - 53).
    rewrite binary_round_aux_exact by (try exact Hdig; lia).
    repeat split; try lia. rewrite Hm. f_equal. f_equal. lia.
Qed.

Lemma new_location_agrees :
  forall d r : Z, 0 <= r < d -> loc_agrees (new_location d r) r d.
Proof.
  intros d r Hr. unfold new_location, new_location_even, new_location_odd.
  destruct (Z.even d) eqn:Hev.
  - destruct (Z.eqb_spec r 0) as [->|Hne]; [reflexivity|].
    destruct (Z.compare_spec (2 * r) d); cbn; lia.
  - destruct (Z.eqb_spec r 0) as [->|Hne]; [reflexivity|].
    assert (Hodd : Z.odd d = true) by (rewrite <- Z.negb_even, Hev; reflexivity).
    apply Z.odd_spec in Hodd. destruct Hodd as [k Hk].
    destruct (Z.compare_spec (2 * r + 1) d); cbn; lia.
Qed.

Lemma binary_round_aux_finish :
  forall (mx ex : Z) (lx : location),
    binary_round_aux prec emax false mx ex lx =
    let '(mrs, e1) := shr_fexp prec emax mx ex lx in
    finish (round_nearest_even (shr_m mrs) (loc_of_shr_record mrs)) e1.
Proof. reflexivity. Qed.

Lemma finish_normal :
  forall (m : positive) (e : Z),
    2 ^ 52 <= Zpos m < 2 ^ 53 -> -1074 <= e <= 971 ->
    finish (Zpos m) e = S754_finite false m e.
Proof.
  intros m e Hm He.
  assert (Hd : Zpos (digits2_pos m) = 53) by (apply digits2_pos_unique; exact Hm).
  unfold finish, shr_fexp. cbn [Zdigits2 shr_record_of_loc].
  rewrite Hd, fexp_normal by lia.
  replace (53 + e - 53 - e) with 0 by lia. cbn [shr shr_m].
  replace (e <=? emax - prec) with true by (symmetry; apply Z.leb_le; unfold emax, prec; lia).
  reflexivity.
Qed.

Lemma finish_carry :
  forall e : Z,
    -1074 <= e -> e + 1 <= 971 ->
    finish 9007199254740992 e = S754_finite false 4503599627370496 (e + 1).
Proof.
  intros e He1 He2. unfold finish, shr_fexp.
  change (Zdigits2 9007199254740992) with 54.
  rewrite fexp_normal by lia.
  replace (54 + e - 53 - e) with 1 by lia.
  cbn [shr iter_pos shr_record_of_loc shr_1 shr_m orb].
  replace (e + 1 <=? emax - prec) with true
    by (symmetry; apply Z.leb_le; unfold emax, prec; lia).
  reflexivity.
Qed.

Lemma loc_of_shr_record_of_loc :
  forall (m : Z) (l : location), loc_of_shr_record (shr_record_of_loc m l) = l.
Proof. intros m [|[| |]]; reflexivity. Qed.

Lemma shr_m_shr_record_of_loc :
  forall (m : Z) (l : location), shr_m (shr_record_of_loc m l) = m.
Proof. intros m [|[| |]]; reflexivity. Qed.

(** Round to nearest, ties to even: down needs a remainder of at most a
    half, up of at least a half. *)
Lemma round_nearest_even_cases :
  forall (m : Z) (l : location) (r d : Z),
    loc_agrees l r d -> 0 <= r < d ->
    (round_nearest_even m l = m /\ 2 * r <= d) \/
    (round_nearest_even m l = m + 1 /\ d <= 2 * r).
Proof.
  intros m l r d Hl Hr. destruct l as [|[| |]]; cbn in *.
  - left. lia.
  - destruct (Z.even m); [left | right]; lia.
  - left. lia.
  - right. lia.
Qed.

(** Rounding a mantissa of 53 digits and packing the result: the float
    obtained is within half a unit in its last place. *)
Lemma round_finish :
  forall (p : positive) (e : Z) (l : location) (r d : Z),
    4503599627370496 <= Zpos p < 9007199254740992 ->
    -1074 <= e -> e + 1 <= 971 ->
    loc_agrees l r d -> 0 <= r < d ->
    exists (m : positive) (s : Z),
      finish (round_nearest_even (Zpos p) l) e = S754_finite false m (e + s) /\
      4503599627370496 <= Zpos m < 9007199254740992 /\
      0 <= s <= 1 /\
      (2 * Zpos m - 1) * 2 ^ s * d <= 2 * (Zpos p * d + r) <= (2 * Zpos m + 1) * 2 ^ s * d.
Proof.
  intros p e l r d Hp He1 He2 Hl Hr.
  destruct (round_nearest_even_cases (Zpos p) l r d Hl Hr) as [[-> Hd] | [-> Hd]].
  - exists p, 0. rewrite finish_normal by (cbn; lia).
    rewrite Z.add_0_r. repeat split; try lia.
  - destruct (Z_lt_le_dec (Zpos p + 1) 9007199254740992) as [Hlt | Hge].
    + exists (p + 1)%positive, 0.
      change (Zpos p + 1) with (Zpos (p + 1)).
      rewrite finish_normal by (cbn; lia).
      rewrite Z.add_0_r. repeat split; try lia.
    + assert (Hq : Zpos p = 9007199254740991) by lia. rewrite Hq.
      exists 4503599627370496%positive, 1.
      change (9007199254740991 + 1) with 9007199254740992.
      rewrite finish_carry by lia. repeat split; try lia.
Qed.

Lemma binary_round_aux_half_ulp :
  forall (q : positive) (e : Z) (r d : Z),
    4503599627370496 <= Zpos q < 18014398509481984 ->
    -1074 <= e -> e + 2 <= 971 ->
    0 <= r < d ->
    exists (m : positive) (s : Z),
      binary_round_aux prec emax false (Zpos q) e (new_location d r) =
        S754_finite false m (e + s) /\
      4503599627370496 <= Zpos m < 9007199254740992 /\
      0 <= s <= 2 /\
      (2 * Zpos m - 1) * 2 ^ s * d <= 2 * (Zpos q * d + r) <= (2 * Zpos m + 1) * 2 ^ s * d.
Proof.
  intros q e r d Hq He1 He2 Hr.
  pose proof (new_location_agrees d r Hr) as Hl.
  set (l := new_location d r) in *.
  rewrite binary_round_aux_finish. unfold shr_fexp. cbn [Zdigits2].
  destruct (Z_lt_le_dec (Zpos q) 9007199254740992) as [Hlt | Hge].
  - assert (Hd : Zpos (digits2_pos q) = 53) by (apply digits2_pos_unique; cbn; lia).
    rewrite Hd, fexp_normal by lia.
    replace (53 + e - 53 - e) with 0 by lia. cbn [shr].
    rewrite shr_m_shr_record_of_loc, loc_of_shr_record_of_loc.
    destruct (round_finish q e l r d ltac:(lia) He1 ltac:(lia) Hl Hr)
      as (m & s & Hf & Hm & Hs & Hu).
    exists m, s. repeat split; try lia. exact Hf.
  - assert (Hd : Zpos (digits2_pos q) = 54) by (apply digits2_pos_unique; cbn; lia).
    rewrite Hd, fexp_normal by lia.
    replace (54 + e - 53 - e) with 1 by lia. cbn [shr].
    change (SpecFloat.iter_pos shr_1 1 (shr_record_of_loc (Zpos q) l))
      with (shr_1 (shr_record_of_loc (Zpos q) l)).
    assert (Hstep : exists (p : positive) (b : Z) (l' : location),
               Zpos q = 2 * Zpos p + b /\ (b = 0 \/ b = 1) /\
               shr_m (shr_1 (shr_record_of_loc (Zpos q) l)) = Zpos p /\
               loc_of_shr_record (shr_1 (shr_record_of_loc (Zpos q) l)) = l' /\
               loc_agrees l' (b * d + r) (2 * d)).
    { destruct q as [p | p | ]; [ | | lia ].
      - exists p, 1, (match l with loc_Exact => loc_Inexact Eq | _ => loc_Inexact Gt end).
        repeat split; try lia; destruct l as [|[| |]]; cbn in *; try reflexivity; lia.
      - exists p, 0, (match l with loc_Exact => loc_Exact | _ => loc_Inexact Lt end).
        repeat split; try lia; destruct l as [|[| |]]; cbn in *; try reflexivity; lia. }
    destruct Hstep as (p & b & l' & Hqp & Hb & -> & -> & Hl').
    destruct (round_finish p (e + 1) l' (b * d + r) (2 * d)
                ltac:(lia) ltac:(lia) ltac:(lia) Hl' ltac:(nia))
      as (m & s & Hf & Hm & Hs & Hu).
    exists m, (1 + s). rewrite Hf. repeat split; try lia.
    + f_equal. lia.
    + rewrite Z.pow_add_r by lia. change (2 ^ 1) with 2. rewrite Hqp. nia.
    + rewrite Z.pow_add_r by lia. change (2 ^ 1) with 2. rewrite Hqp. nia.
Qed.

(** The quotient of two positive integers below 2^53 is a normal double
    within half a unit in the last place of the exact quotient. *)
Lemma true_divide_half_ulp :
  forall v f : Z,
    0 < v <= f -> f < 9007199254740992 ->
    exists (m : positive) (e : Z),
      true_divide v f = S754_finite false m e /\
      4503599627370496 <= Zpos m < 9007199254740992 /\
      -105 <= e <= -51 /\
      (2 * Zpos m - 1) * f <= 2 ^ (1 - e) * v <= (2 * Zpos m + 1) * f.
Proof.
  intros v f Hv Hf.
  destruct (float_of_int_spec v ltac:(cbn; lia)) as (m1 & e1 & Hfv & Hd1 & He1 & Hm1).
  destruct (float_of_int_spec f ltac:(cbn; lia)) as (m2 & e2 & Hff & Hd2 & He2 & Hm2).
  pose proof (digits2_pos_bounds m1) as B1. rewrite Hd1 in B1.
  pose proof (digits2_pos_bounds m2) as B2. rewrite Hd2 in B2.
  change (2 ^ (53 - 1)) with 4503599627370496 in B1, B2.
  change (2 ^ 53) with 9007199254740992 in B1, B2.
  assert (HA : 0 < 2 ^ (- e1)) by (apply Z.pow_pos_nonneg; lia).
  assert (HB : 0 < 2 ^ (- e2)) by (apply Z.pow_pos_nonneg; lia).
  assert (He12 : e1 <= e2).
  { destruct (Z_le_gt_dec e1 e2) as [|Hgt]; [assumption|].
    assert (2 * 2 ^ (- e1) <= 2 ^ (- e2)).
    { replace (- e2) with (1 + (- e1) + (e1 - e2 - 1)) by lia.
      rewrite !Z.pow_add_r by lia. change (2 ^ 1) with 2.
      assert (1 <= 2 ^ (e1 - e2 - 1)) by (apply (Z.pow_le_mono_r 2 0); lia). nia. }
    nia. }
  unfold true_divide. rewrite Hfv, Hff. unfold SFdiv, SFdiv_core_binary.
  cbn [Zdigits2 xorb]. rewrite Hd1, Hd2, fexp_normal by lia.
  replace (Z.min (53 + e1 - (53 + e2) - 53) (e1 - e2)) with (e1 - e2 - 53) by lia.
  replace (e1 - e2 - (e1 - e2 - 53)) with 53 by lia.
  rewrite Z.shiftl_mul_pow2 by lia. change (2 ^ 53) with 9007199254740992.
  pose proof (Z_div_mod (Zpos m1 * 9007199254740992) (Zpos m2) ltac:(lia)) as Hdm.
  destruct (Z.div_eucl (Zpos m1 * 9007199254740992) (Zpos m2)) as [q r].
  destruct Hdm as [Hdm Hr].
  assert (Hq : 4503599627370496 <= q < 18014398509481984) by nia.
  destruct q as [|q|q]; try lia.
  destruct (binary_round_aux_half_ulp q (e1 - e2 - 53) r (Zpos m2) Hq
              ltac:(lia) ltac:(lia) Hr) as (m & s & Hres & Hm & Hs & Hu).
  exists m, (e1 - e2 - 53 + s). split; [exact Hres|]. split; [exact Hm|].
  split; [lia|].
  assert (HS : 0 < 2 ^ s) by (apply Z.pow_pos_nonneg; lia).
  assert (HT : 2 ^ (1 - (e1 - e2 - 53 + s)) * (2 ^ s * 2 ^ (- e2)) =
               2 * 9007199254740992 * 2 ^ (- e1)).
  { rewrite <- !Z.pow_add_r by lia.
    change (2 * 9007199254740992) with (2 ^ 54). rewrite <- Z.pow_add_r by lia.
    f_equal. lia. }
  set (T := 2 ^ (1 - (e1 - e2 - 53 + s))) in *.
  set (A := 2 ^ (- e1)) in *. set (B := 2 ^ (- e2)) in *. set (S := 2 ^ s) in *.
  assert (HSB : 0 < S * B) by nia.
  assert (Hx : Zpos q * Zpos m2 + r = Zpos m1 * 9007199254740992) by lia.
  rewrite Hx in Hu. rewrite Hm1, Hm2 in Hu.
  split.
  - apply (Z.mul_le_mono_pos_r _ _ (S * B) HSB).
    replace (T * v * (S * B)) with (T * (S * B) * v) by ring. rewrite HT.
    destruct Hu as [Hu _]. nia.
  - apply (Z.mul_le_mono_pos_r _ _ (S * B) HSB).
    replace (T * v * (S * B)) with (T * (S * B) * v) by ring. rewrite HT.
    destruct Hu as [_ Hu]. nia.
Qed.

(** Up to 2^51 frames the comparison of the rounded quotient with the
    double [0.15] is the exact comparison of v / f with 3 / 20. *)
Lemma float_threshold_exact :
  forall v f : Z,
    0 <= v <= f -> 0 < f <= 2251799813685248 ->
    float_ge (true_divide v f) float_0_15 = (3 * f <=? 20 * v).
Proof.
  intros v f Hv Hf.
  destruct (Z.eq_dec v 0) as [-> | Hv0].
  - destruct (float_of_int_spec f ltac:(cbn; lia)) as (m2 & e2 & Hff & _).
    unfold true_divide. rewrite Hff.
    change (float_of_int 0) with (S754_zero false).
    cbn [SFdiv xorb float_ge SFleb SFcompare float_0_15].
    symmetry. apply Z.leb_gt. lia.
  - destruct (true_divide_half_ulp v f ltac:(lia) ltac:(lia))
      as (m & e & -> & Hm & He & Hlo & Hhi).
    unfold float_ge, float_0_15, SFleb, SFcompare.
    assert (HT : 0 < 2 ^ (1 - e)) by (apply Z.pow_pos_nonneg; lia).
    destruct (Z.compare_spec (-55) e) as [Heq | Hlt | Hgt].
    + subst e. change (2 ^ (1 - -55)) with 72057594037927936 in *.
      rewrite Pos.compare_cont_spec. cbn [Pos.switch_Eq].
      destruct (Pos.compare_spec 5404319552844595 m) as [Hmm | Hmm | Hmm].
      * subst m. symmetry. apply Z.leb_le. lia.
      * apply Pos2Z.pos_lt_pos in Hmm.
        assert (H1 : (2 * 5404319552844595 + 1) * f <= (2 * Z.pos m - 1) * f)
          by (apply Z.mul_le_mono_nonneg_r; lia).
        symmetry. apply Z.leb_le. lia.
      * apply Pos2Z.pos_lt_pos in Hmm.
        assert (H1 : (2 * Z.pos m + 1) * f <= (2 * 5404319552844595 - 1) * f)
          by (apply Z.mul_le_mono_nonneg_r; lia).
        symmetry. apply Z.leb_gt. lia.
    + assert (H1 : 2 ^ (1 - e) <= 2 ^ 55) by (apply Z.pow_le_mono_r; lia).
      change (2 ^ 55) with 36028797018963968 in H1.
      assert (H2 : 2 ^ (1 - e) * v <= 36028797018963968 * v)
        by (apply Z.mul_le_mono_nonneg_r; lia).
      assert (H3 : (2 * 4503599627370496 - 1) * f <= (2 * Z.pos m - 1) * f)
        by (apply Z.mul_le_mono_nonneg_r; lia).
      symmetry. apply Z.leb_le. lia.
    + assert (H1 : 2 ^ 57 <= 2 ^ (1 - e)) by (apply Z.pow_le_mono_r; lia).
      change (2 ^ 57) with 144115188075855872 in H1.
      assert (H2 : 144115188075855872 * v <= 2 ^ (1 - e) * v)
        by (apply Z.mul_le_mono_nonneg_r; lia).
      assert (H3 : (2 * Z.pos m + 1) * f <= (2 * 9007199254740992 - 1) * f)
        by (apply Z.mul_le_mono_nonneg_r; lia).
      symmetry. apply Z.leb_gt. lia.
Qed.

End Binary64.

(** ** Voice-activity gate *)

Section GateProperties.
Context {sample time : Type} (E : Env sample time).

Ltac eq_parts :=
  repeat (match goal with
          | |- (_, _) = (_, _) => apply f_equal2
          | |- Ok _ = Ok _ => apply f_equal
          | |- mk_amb _ _ = mk_amb _ _ => apply f_equal2
          | |- AudioCapture.mk _ _ _ _ _ _ _ _ _ _ _ _ _ _ _ = _ => f_equal
          end);
  try reflexivity; try lia.

Lemma count_cons :
  forall p (r : outcome bool) rest,
    count p (r :: rest) = ((if p r then 1 else 0) + count p rest)%Z.
Proof.
  intros p r rest. unfold count, len. cbn. destruct (p r); cbn [length]; lia.
Qed.

Lemma count_bounds :
  forall answers,
    (0 <= count is_voiced answers <= count is_classified answers)%Z /\
    (count is_classified answers <= len answers)%Z.
Proof.
  induction answers as [|r rest IH].
  - unfold count, len. cbn. lia.
  - rewrite !count_cons. unfold len in *. cbn [length].
    destruct r as [[|]|e]; cbn; lia.
Qed.

(** The loop offers every frame to the classifier, in order; a failure is
    skipped: it advances neither counter and does not end the loop. *)
Lemma vad_loop_spec :
  forall (indices : list Z) (audio : list (bufitem sample)) (fs vc fc : Z)
         (ac : AudioCapture.t sample time) (a : Amb sample),
    let frames := frames_at E audio fs indices in
    let answers := vad_answers E (AudioCapture.sample_rate ac) frames (trace a) in
    AudioCapture.vad_loop E audio fs indices vc fc (ac, a) =
      (Ok ((vc + count is_voiced answers)%Z, (fc + count is_classified answers)%Z),
       (bump (count is_voiced answers) (count is_classified answers) ac,
        mk_amb (rev (map (fun f => EvVadIsSpeech f (AudioCapture.sample_rate ac)) frames)
                  ++ trace a)%list
               (clock_reads a))).
Proof.
  induction indices as [|i rest IH]; intros audio fs vc fc ac a; cbn zeta.
  - cbn. unfold ret, count, len, bump. cbn. rewrite !Z.add_0_r.
    destruct ac, a; reflexivity.
  - cbn [AudioCapture.vad_loop frames_at map vad_answers].
    unfold bind at 1, self at 1, external at 1. cbn.
    rewrite !count_cons.
    destruct (vad_is_speech E (trace a) _ (AudioCapture.sample_rate ac)) as [[|]|e];
      cbn [is_voiced is_classified].
    + unfold bind, update. cbn. rewrite IH. cbn. unfold bump. cbn.
      rewrite <- !app_assoc.
      unfold frames_at, AudioCapture.set_voiced_frames, AudioCapture.set_total_frames.
      cbn. eq_parts.
    + unfold bind, update. cbn. rewrite IH. cbn. unfold bump. cbn.
      rewrite <- !app_assoc.
      unfold frames_at, AudioCapture.set_voiced_frames, AudioCapture.set_total_frames.
      cbn. eq_parts.
    + rewrite IH. cbn. unfold bump. cbn.
      rewrite <- !app_assoc.
      unfold frames_at, AudioCapture.set_voiced_frames, AudioCapture.set_total_frames.
      cbn. eq_parts.
Qed.

(** [_contains_voice] on a legal frame size. *)
Lemma contains_voice_spec :
  forall (audio : list (bufitem sample)) (fs : Z) (indices : list Z)
         (ac : AudioCapture.t sample time) (a : Amb sample),
    py_range 0 (len audio - fs) fs = Ok indices ->
    let frames := frames_at E audio fs indices in
    let answers := vad_answers E (AudioCapture.sample_rate ac) frames (trace a) in
    AudioCapture._contains_voice E audio fs (ac, a) =
      (Ok (decision (count is_voiced answers) (count is_classified answers)),
       (bump (count is_voiced answers) (count is_classified answers) ac,
        mk_amb (rev (map (fun f => EvVadIsSpeech f (AudioCapture.sample_rate ac)) frames)
                  ++ trace a)%list
               (clock_reads a))).
Proof.
  intros audio fs indices ac a Hr. cbn zeta.
  unfold AudioCapture._contains_voice. rewrite Hr.
  unfold bind. rewrite vad_loop_spec. cbn. unfold decision, ret.
  destruct (_ =? 0)%Z; reflexivity.
Qed.

(** When the length is not a multiple of the frame size, the indices of
    the loop are those of all full frames. *)
Lemma range_covers_full_frames :
  forall (n fs : Z),
    (0 < fs)%Z -> (0 <= n)%Z -> (n mod fs <> 0)%Z ->
    py_range 0 (n - fs) fs =
      Ok (map (fun k => (0 + Z.of_nat k * fs)%Z) (seq 0 (Z.to_nat (n / fs)))).
Proof.
  intros n fs Hfs Hn Hmod. unfold py_range.
  replace (fs =? 0)%Z with false by (symmetry; apply Z.eqb_neq; lia).
  replace (0 <? fs)%Z with true by (symmetry; apply Z.ltb_lt; lia).
  replace (n - fs - 0 + fs - 1)%Z with (n - 1)%Z by lia.
  assert (Hdiv : ((n - 1) / fs = n / fs)%Z).
  { pose proof (Z.div_mod n fs ltac:(lia)) as Hdm.
    pose proof (Z.mod_pos_bound n fs Hfs) as Hb.
    symmetry. apply (Z.div_unique (n - 1) fs (n / fs) (n mod fs - 1)); lia. }
  rewrite Hdiv.
  assert (0 <= n / fs)%Z by (apply Z.div_pos; lia).
  rewrite Z.max_r by lia. reflexivity.
Qed.

(** A chunk shorter than one frame has no full frame. *)
Lemma short_chunk_has_no_frame :
  forall (audio : list (bufitem sample)) (fs : Z),
    (len audio < fs)%Z -> full_frames E audio fs = [].
Proof.
  intros audio fs H. unfold full_frames.
  assert (0 <= len audio)%Z by (unfold len; lia).
  rewrite Z.div_small by lia. reflexivity.
Qed.

Lemma count_none_classified :
  forall answers,
    Forall (fun r => is_classified r = false) answers ->
    count is_classified answers = 0%Z /\ count is_voiced answers = 0%Z.
Proof.
  induction 1 as [|r rest Hr _ IH].
  - split; reflexivity.
  - rewrite !count_cons. destruct r as [b|e]; [discriminate|]. cbn. lia.
Qed.

(** C5 as amended: for a chunk whose length is not a multiple of the frame
    size, [_contains_voice] returns normally; it offers every full frame to
    the classifier, first to last; a frame whose classification fails is
    skipped (it counts neither as voiced nor in the denominator, and the
    lifetime counters do not see it); the chunk is accepted when at least
    one frame was classified and voiced / classified >= 0.15.  A chunk
    shorter than one frame, and a chunk on which every classification
    fails, is rejected. *)
Theorem chunk_decision_skips_failed_frames :
  forall (audio : list (bufitem sample)) (fs : Z)
         (ac : AudioCapture.t sample time) (a : Amb sample),
    (0 < fs)%Z ->
    (len audio mod fs <> 0)%Z ->
    let frames := full_frames E audio fs in
    let answers := vad_answers E (AudioCapture.sample_rate ac) frames (trace a) in
    let voiced := count is_voiced answers in
    let classified := count is_classified answers in
    AudioCapture._contains_voice E audio fs (ac, a) =
      (Ok (decision voiced classified),
       (bump voiced classified ac,
        mk_amb (rev (map (fun f => EvVadIsSpeech f (AudioCapture.sample_rate ac)) frames)
                  ++ trace a)%list
               (clock_reads a))) /\
    (len audio < fs -> decision voiced classified = false)%Z /\
    (Forall (fun r => is_classified r = false) answers ->
     decision voiced classified = false).
Proof.
  intros audio fs ac a Hfs Hmod. cbn zeta.
  assert (Hlen : (0 <= len audio)%Z) by (unfold len; lia).
  split; [ | split ].
  - rewrite (contains_voice_spec audio fs _ ac a
               (range_covers_full_frames (len audio) fs Hfs Hlen Hmod)).
    reflexivity.
  - intros Hshort. rewrite short_chunk_has_no_frame by exact Hshort. reflexivity.
  - intros Hall. destruct (count_none_classified _ Hall) as [-> _]. reflexivity.
Qed.

(** The full frames are cut at multiples of the frame size: put end to
    end they are the chunk up to its last full frame. *)
Lemma full_frames_partition :
  forall (audio : list (bufitem sample)) (fs : Z) (n : nat),
    (0 < fs)%Z -> (Z.of_nat n * fs <= len audio)%Z ->
    concat (map (fun k => py_slice audio (0 + Z.of_nat k * fs) (0 + Z.of_nat k * fs + fs))
                (seq 0 n)) =
    firstn (Z.to_nat (Z.of_nat n * fs)) audio.
Proof.
  intros audio fs n Hfs. induction n as [|n IH]; intros Hn.
  - reflexivity.
  - rewrite seq_S, map_app, concat_app, IH by lia. cbn [map concat Nat.add].
    rewrite app_nil_r.
    unfold py_slice, clip_index.
    replace (0 + Z.of_nat n * fs <? 0)%Z with false by (symmetry; apply Z.ltb_ge; lia).
    replace (0 + Z.of_nat n * fs + fs <? 0)%Z with false by (symmetry; apply Z.ltb_ge; lia).
    rewrite !Z.min_l by lia.
    replace (Z.to_nat (0 + Z.of_nat n * fs + fs) - Z.to_nat (0 + Z.of_nat n * fs))
      with (Z.to_nat fs) by lia.
    replace (Z.to_nat (0 + Z.of_nat n * fs)) with (Z.to_nat (Z.of_nat n * fs)) by lia.
    rewrite take_take_drop. f_equal. lia.
Qed.

(** On a legal frame size [_contains_voice] decides from the two
    counters of the chunk alone, the frames classified and the frames
    voiced among them: the lifetime counters [total_frames] and
    [voiced_frames] may hold anything.  The decision is the comparison
    voiced / classified >= 0.15 in binary64; up to 2^51 classified frames
    it is the exact comparison 3 * classified <= 20 * voiced, so a ratio
    of exactly 0.15 is accepted, every ratio below 0.15 is rejected, and
    raising the ratio never turns an accepted chunk into a rejected one. *)
Lemma gate_threshold_is_exact :
  forall (audio : list (bufitem sample)) (fs : Z) (indices : list Z)
         (ac : AudioCapture.t sample time) (a : Amb sample) (seen voiced_so_far : Z),
    py_range 0 (len audio - fs) fs = Ok indices ->
    let answers :=
      vad_answers E (AudioCapture.sample_rate ac) (frames_at E audio fs indices) (trace a) in
    let v := count is_voiced answers in
    let f := count is_classified answers in
    fst (AudioCapture._contains_voice E audio fs (ac, a)) = Ok (decision v f) /\
    fst (AudioCapture._contains_voice E audio fs
           (AudioCapture.set_total_frames seen
              (AudioCapture.set_voiced_frames voiced_so_far ac), a)) =
      Ok (decision v f) /\
    (0 <= v <= f)%Z /\
    ((0 < f <= 2251799813685248)%Z ->
     (decision v f = true <-> (3 * f <= 20 * v)%Z) /\
     ((20 * v = 3 * f)%Z -> decision v f = true) /\
     ((20 * v < 3 * f)%Z -> decision v f = false) /\
     (forall v' f' : Z,
        (0 <= v' <= f')%Z -> (0 < f' <= 2251799813685248)%Z ->
        (v * f' <= v' * f)%Z -> decision v f = true -> decision v' f' = true)).
Proof.
  intros audio fs indices ac a seen voiced_so_far Hr. cbn zeta.
  set (answers := vad_answers E (AudioCapture.sample_rate ac) (frames_at E audio fs indices)
                    (trace a)).
  pose proof (count_bounds answers) as [Hvf _].
  split; [ | split; [ | split; [exact Hvf | ] ] ].
  - rewrite (contains_voice_spec audio fs indices ac a Hr). reflexivity.
  - rewrite (contains_voice_spec audio fs indices _ a Hr). reflexivity.
  - intros Hf.
    assert (Hdec : forall v' f' : Z,
               (0 <= v' <= f')%Z -> (0 < f' <= 2251799813685248)%Z ->
               decision v' f' = (3 * f' <=? 20 * v')%Z).
    { intros v' f' Hv' Hf'. unfold decision.
      replace (f' =? 0)%Z with false by (symmetry; apply Z.eqb_neq; lia).
      apply float_threshold_exact; assumption. }
    rewrite (Hdec _ _ Hvf Hf). repeat split.
    + apply Z.leb_le.
    + apply Z.leb_le.
    + intros H. apply Z.leb_le. lia.
    + intros H. apply Z.leb_gt. lia.
    + intros v' f' Hv' Hf' Hle Hacc. rewrite (Hdec _ _ Hv' Hf').
      apply Z.leb_le in Hacc. apply Z.leb_le. nia.
Qed.

(** The frames of a chunk, cut at the multiples of the frame size. *)
Lemma full_frames_cut :
  forall (audio : list (bufitem sample)) (fs : Z),
    (0 < fs)%Z ->
    full_frames E audio fs =
    map (fun k => concat (map (AudioCapture.item_int16 E)
                            (firstn (Z.to_nat fs) (skipn (k * Z.to_nat fs) audio))))
        (seq 0 (Z.to_nat (len audio / fs))).
Proof.
  intros audio fs Hfs. unfold full_frames, frames_at. rewrite map_map.
  apply map_ext_in. intros k Hk. apply in_seq in Hk.
  unfold AudioCapture.frame_at. do 2 f_equal.
  assert (Hlen : (0 <= len audio)%Z) by (unfold len; lia).
  assert (Hq : (Z.of_nat k + 1 <= len audio / fs)%Z) by lia.
  assert (Hin : ((Z.of_nat k + 1) * fs <= len audio)%Z).
  { pose proof (Z.mul_div_le (len audio) fs Hfs) as Hm. nia. }
  unfold py_slice, clip_index.
  replace (0 + Z.of_nat k * fs <? 0)%Z with false by (symmetry; apply Z.ltb_ge; nia).
  replace (0 + Z.of_nat k * fs + fs <? 0)%Z with false by (symmetry; apply Z.ltb_ge; nia).
  rewrite !Z.min_l by nia.
  replace (Z.to_nat (0 + Z.of_nat k * fs + fs) - Z.to_nat (0 + Z.of_nat k * fs))%nat
    with (Z.to_nat fs) by nia.
  replace (Z.to_nat (0 + Z.of_nat k * fs)) with (k * Z.to_nat fs)%nat by nia.
  reflexivity.
Qed.

Lemma vad_answers_length :
  forall rate frames (h : list (Event sample)),
    length (vad_answers E rate frames h) = length frames.
Proof.
  intros rate frames. induction frames as [|x rest IH]; intros h; [reflexivity|].
  cbn. rewrite IH. reflexivity.
Qed.

(** C6 as amended: for a chunk whose length is not a multiple of the frame
    size, [_contains_voice] cuts the chunk at the multiples of the frame
    size and decides by a threshold on the ratio of the voiced frames among
    the frames the classifier classified (a frame on which it fails is in
    neither number): with [v] voiced of [f] classified frames the chunk is
    accepted exactly when [f > 0] and [v / f >= 0.15], that is
    [3 * f <= 20 * v].  So a ratio of exactly 0.15 is accepted and every
    ratio below 0.15 is rejected; the decision depends on nothing but the
    two numbers of this chunk, and the lifetime counters [total_frames]
    and [voiced_frames] may hold anything. *)
Theorem gate_threshold_over_classified_frames :
  forall (audio : list (bufitem sample)) (fs : Z)
         (ac : AudioCapture.t sample time) (a : Amb sample) (seen voiced_so_far : Z),
    (0 < fs)%Z ->
    (len audio mod fs <> 0)%Z ->
    (len audio / fs <= 2251799813685248)%Z ->
    let frames :=
      map (fun k => concat (map (AudioCapture.item_int16 E)
                              (firstn (Z.to_nat fs) (skipn (k * Z.to_nat fs) audio))))
          (seq 0 (Z.to_nat (len audio / fs))) in
    let answers := vad_answers E (AudioCapture.sample_rate ac) frames (trace a) in
    let v := count is_voiced answers in
    let f := count is_classified answers in
    let accepted := negb (f =? 0)%Z && (3 * f <=? 20 * v)%Z in
    (0 <= v <= f)%Z /\ (f <= len audio / fs)%Z /\
    fst (AudioCapture._contains_voice E audio fs (ac, a)) = Ok accepted /\
    fst (AudioCapture._contains_voice E audio fs
           (AudioCapture.set_total_frames seen
              (AudioCapture.set_voiced_frames voiced_so_far ac), a)) = Ok accepted /\
    ((0 < f)%Z -> (20 * v = 3 * f)%Z -> accepted = true) /\
    ((20 * v < 3 * f)%Z -> accepted = false).
Proof.
  intros audio fs ac a seen voiced_so_far Hfs Hmod Hmax. cbn zeta.
  rewrite <- (full_frames_cut audio fs Hfs).
  set (answers := vad_answers E (AudioCapture.sample_rate ac) (full_frames E audio fs)
                    (trace a)).
  assert (Hlen : (0 <= len audio)%Z) by (unfold len; lia).
  pose proof (count_bounds answers) as [Hvf Hfl].
  assert (Hn : (len answers <= len audio / fs)%Z).
  { unfold len at 1. unfold answers. rewrite vad_answers_length.
    unfold full_frames, frames_at. rewrite !length_map, length_seq.
    assert (0 <= len audio / fs)%Z by (apply Z.div_pos; lia). lia. }
  assert (Hdec : decision (count is_voiced answers) (count is_classified answers) =
                 negb (count is_classified answers =? 0)%Z
                 && (3 * count is_classified answers <=? 20 * count is_voiced answers)%Z).
  { unfold decision. destruct (count is_classified answers =? 0)%Z eqn:Hz; [reflexivity|].
    apply Z.eqb_neq in Hz. cbn [negb andb].
    apply float_threshold_exact; lia. }
  pose proof (range_covers_full_frames (len audio) fs Hfs Hlen Hmod) as Hr.
  split; [exact Hvf|]. split; [lia|]. split; [|split; [|split]].
  - rewrite (contains_voice_spec audio fs _ ac a Hr). cbn [fst].
    fold (full_frames E audio fs). fold answers. rewrite Hdec. reflexivity.
  - rewrite (contains_voice_spec audio fs _ _ a Hr). cbn [fst].
    fold (full_frames E audio fs). cbn [AudioCapture.sample_rate
      AudioCapture.set_total_frames AudioCapture.set_voiced_frames].
    fold answers. rewrite Hdec. reflexivity.
  - intros Hf Heq.
    replace (count is_classified answers =? 0)%Z with false
      by (symmetry; apply Z.eqb_neq; lia).
    cbn [negb andb]. apply Z.leb_le. lia.
  - intros Hlt.
    replace (3 * count is_classified answers <=? 20 * count is_voiced answers)%Z
      with false by (symmetry; apply Z.leb_gt; lia).
    apply andb_false_r.
Qed.

End GateProperties.

(** * Further properties *)

(** ** Proof steps shared by the sections below *)

Ltac run_py :=
  unfold bind, ret, raise, self, update, external, try_except, try_excepts,
    pyperclip_copy_, subprocess_run, TextInjector.log_called_process_error in *;
  cbn in *.

Ltac split_match :=
  repeat (match goal with
          | |- context [match ?x with _ => _ end] =>
              lazymatch x with
              | context [match _ with _ => _ end] => fail
              | _ => destruct x eqn:?; cbn in *
              end
          end).

Ltac inv_bind H :=
  let x := fresh "x" in
  let d := fresh "d" in
  let a := fresh "a" in
  let Hx := fresh "Hx" in
  apply bind_ok_inv in H; destruct H as (x & [d a] & Hx & H).

Ltac inv_bind_as H x d a Hx :=
  apply bind_ok_inv in H; destruct H as (x & [d a] & Hx & H).

Ltac pure_bind H x d a :=
  let Hx := fresh "Hx" in
  inv_bind_as H x d a Hx;
  unfold self, update, ret, time_now in Hx; cbn in Hx;
  inversion Hx; clear Hx; try subst x; try subst d; try subst a.

Ltac inv_pure H :=
  unfold self, update, ret, time_now in H; cbn in H; inversion H; subst; clear H.

Ltac run_client :=
  unfold IPCServer._handle_client, IPCServer.dispatch, IPCServer.recv,
    IPCServer.decode, IPCServer.loads, IPCServer.message_get,
    IPCServer.lookup_handler, IPCServer.call_handler, IPCServer.send_response,
    IPCServer.close, try_finally, try_except, bind, ret, raise, answered, hung_up;
  cbn -[lookup].

(** ** Python strings *)

Lemma blank_width_cases :
  forall s,
    (blank_width s = 0%nat) \/
    (exists a r, s = String a r /\ blank1 a = true /\ blank_width s = 1%nat) \/
    (exists a b r, s = String a (String b r) /\ blank1 a = false /\ blank2 a b = true /\
                   blank_width s = 2%nat) \/
    (exists a b c r, s = String a (String b (String c r)) /\ blank1 a = false /\
                     blank2 a b = false /\ blank3 a b c = true /\ blank_width s = 3%nat).
Proof.
  intros [|a [|b [|c r]]]; cbn -[blank1 blank2 blank3].
  - left. reflexivity.
  - destruct (blank1 a) eqn:H1; [right; left; eauto | left; reflexivity].
  - destruct (blank1 a) eqn:H1; [right; left; eauto |].
    destruct (blank2 a b) eqn:H2; [right; right; left; eauto 10 | left; reflexivity].
  - destruct (blank1 a) eqn:H1; [right; left; eauto |].
    destruct (blank2 a b) eqn:H2; [right; right; left; eauto 10 |].
    destruct (blank3 a b c) eqn:H3; [right; right; right; eauto 12 | left; reflexivity].
Qed.

Lemma lstrip_0 : forall s, blank_width s = 0%nat -> lstrip s = s.
Proof. intros [|a r] H; [reflexivity|]. cbn [lstrip]. rewrite H. reflexivity. Qed.

Lemma lstrip_1 : forall a r, blank1 a = true -> lstrip (String a r) = lstrip r.
Proof.
  intros a r H. cbn [lstrip].
  replace (blank_width (String a r)) with 1%nat; [reflexivity|].
  cbn -[blank1 blank2 blank3]. rewrite H. reflexivity.
Qed.

Lemma lstrip_2 :
  forall a b r, blank1 a = false -> blank2 a b = true ->
    lstrip (String a (String b r)) = lstrip r.
Proof.
  intros a b r H1 H2. cbn [lstrip].
  replace (blank_width (String a (String b r))) with 2%nat; [reflexivity|].
  cbn -[blank1 blank2 blank3]. rewrite H1, H2. reflexivity.
Qed.

Lemma lstrip_3 :
  forall a b c r, blank1 a = false -> blank2 a b = false -> blank3 a b c = true ->
    lstrip (String a (String b (String c r))) = lstrip r.
Proof.
  intros a b c r H1 H2 H3. cbn [lstrip].
  replace (blank_width (String a (String b (String c r)))) with 3%nat; [reflexivity|].
  cbn -[blank1 blank2 blank3]. rewrite H1, H2, H3. reflexivity.
Qed.

(** Induction along the blank characters a string starts with. *)
Lemma leading_blanks_ind :
  forall P : string -> Prop,
    (forall s, blank_width s = 0%nat -> P s) ->
    (forall a r, blank1 a = true -> P r -> P (String a r)) ->
    (forall a b r, blank1 a = false -> blank2 a b = true -> P r ->
                   P (String a (String b r))) ->
    (forall a b c r, blank1 a = false -> blank2 a b = false -> blank3 a b c = true ->
                     P r -> P (String a (String b (String c r)))) ->
    forall s, P s.
Proof.
  intros P H0 H1 H2 H3 s.
  assert (Hn : forall n s, (String.length s < n)%nat -> P s).
  { induction n as [|n IH]; intros t Hlen; [lia|].
    destruct (blank_width_cases t)
      as [Hz | [(a & r & -> & Ha & _) | [(a & b & r & -> & Ha & Hb & _)
                                        | (a & b & c & r & -> & Ha & Hb & Hc & _)]]].
    - apply H0. exact Hz.
    - apply H1; [exact Ha|]. apply IH. cbn in Hlen. lia.
    - apply H2; [exact Ha | exact Hb|]. apply IH. cbn in Hlen. lia.
    - apply H3; [exact Ha | exact Hb | exact Hc|]. apply IH. cbn in Hlen. lia. }
  apply (Hn (S (String.length s))). lia.
Qed.

(** What [lstrip] leaves is empty or starts with a character that is not
    blank. *)
Lemma lstrip_head : forall s, blank_width (lstrip s) = 0%nat.
Proof.
  apply leading_blanks_ind.
  - intros s H. rewrite lstrip_0 by exact H. exact H.
  - intros a r Ha IH. rewrite lstrip_1 by exact Ha. exact IH.
  - intros a b r Ha Hb IH. rewrite lstrip_2 by assumption. exact IH.
  - intros a b c r Ha Hb Hc IH. rewrite lstrip_3 by assumption. exact IH.
Qed.

Lemma lstrip_fixed : forall s, lstrip (lstrip s) = lstrip s.
Proof. intros s. apply lstrip_0, lstrip_head. Qed.

(** Blank characters in front of a string do not change what [lstrip]
    leaves of it. *)
Lemma lstrip_app_blank :
  forall x v, lstrip x = EmptyString -> lstrip (x ++ v) = lstrip v.
Proof.
  intros x v. revert x. apply (leading_blanks_ind (fun x => lstrip x = "" -> lstrip (x ++ v) = lstrip v)).
  - intros s H Hl. rewrite lstrip_0 in Hl by exact H. subst s. reflexivity.
  - intros a r Ha IH Hl. rewrite lstrip_1 in Hl by exact Ha.
    change (lstrip (String a (r ++ v)) = lstrip v).
    rewrite lstrip_1 by exact Ha. apply IH. exact Hl.
  - intros a b r Ha Hb IH Hl. rewrite lstrip_2 in Hl by assumption.
    change (lstrip (String a (String b (r ++ v))) = lstrip v).
    rewrite lstrip_2 by assumption. apply IH. exact Hl.
  - intros a b c r Ha Hb Hc IH Hl. rewrite lstrip_3 in Hl by assumption.
    change (lstrip (String a (String b (String c (r ++ v)))) = lstrip v).
    rewrite lstrip_3 by assumption. apply IH. exact Hl.
Qed.

(** A string that starts with a blank character still does when it is
    extended. *)
Lemma blank_width_prefix :
  forall x v, blank_width (x ++ v) = 0%nat -> blank_width x = 0%nat.
Proof.
  intros x v H.
  destruct (blank_width_cases x)
    as [Hz | [(a & r & -> & Ha & _) | [(a & b & r & -> & Ha & Hb & _)
                                      | (a & b & c & r & -> & Ha & Hb & Hc & _)]]].
  - exact Hz.
  - change (blank_width (String a (r ++ v)) = 0%nat) in H.
    cbn -[blank1 blank2 blank3] in H. rewrite Ha in H. discriminate.
  - change (blank_width (String a (String b (r ++ v))) = 0%nat) in H.
    cbn -[blank1 blank2 blank3] in H. rewrite Ha, Hb in H. discriminate.
  - change (blank_width (String a (String b (String c (r ++ v)))) = 0%nat) in H.
    cbn -[blank1 blank2 blank3] in H. rewrite Ha, Hb, Hc in H. discriminate.
Qed.

Lemma rstrip_split :
  forall s, exists v, s = Transcriber.rstrip s ++ v /\ lstrip v = EmptyString.
Proof.
  induction s as [|a r (v & Hr & Hv)].
  - exists "". split; reflexivity.
  - cbn [Transcriber.rstrip]. destruct (lstrip (String a r)) eqn:Hl.
    + exists (String a r). split; [reflexivity | exact Hl].
    + exists v. split; [|exact Hv].
      change (String a r = String a (Transcriber.rstrip r ++ v)). rewrite <- Hr. reflexivity.
Qed.

Lemma rstrip_fixed :
  forall s, Transcriber.rstrip (Transcriber.rstrip s) = Transcriber.rstrip s.
Proof.
  induction s as [|a r IH]; [reflexivity|].
  cbn [Transcriber.rstrip]. destruct (lstrip (String a r)) eqn:Hl; [reflexivity|].
  cbn [Transcriber.rstrip]. rewrite IH.
  destruct (lstrip (String a (Transcriber.rstrip r))) eqn:Hl2; [|reflexivity].
  destruct (rstrip_split r) as (v & Hr & Hv).
  pose proof (lstrip_app_blank (String a (Transcriber.rstrip r)) v Hl2) as Happ.
  change (lstrip (String a (Transcriber.rstrip r ++ v)) = lstrip v) in Happ.
  rewrite <- Hr, Hv in Happ. rewrite Happ in Hl. discriminate.
Qed.

(** [Transcriber.rstrip] keeps the beginning of a string that does not start with a
    blank character. *)
Lemma rstrip_head :
  forall a r, blank_width (String a r) = 0%nat ->
    Transcriber.rstrip (String a r) = String a (Transcriber.rstrip r) /\
    blank_width (String a (Transcriber.rstrip r)) = 0%nat.
Proof.
  intros a r H. cbn [Transcriber.rstrip]. rewrite (lstrip_0 _ H). split; [reflexivity|].
  destruct (rstrip_split r) as (v & Hr & _).
  apply (blank_width_prefix _ v).
  change (blank_width (String a (Transcriber.rstrip r ++ v)) = 0%nat). rewrite <- Hr. exact H.
Qed.

(** A stripped string is empty or starts with a character that is not
    blank. *)
Lemma strip_head :
  forall s, Transcriber.strip s = EmptyString \/
            exists a r, Transcriber.strip s = String a r /\ blank_width (String a r) = 0%nat.
Proof.
  intros s. unfold Transcriber.strip. pose proof (lstrip_head s) as H.
  destruct (lstrip s) as [|a r]; [left; reflexivity|].
  right. destruct (rstrip_head a r H) as [-> Hw]. eauto.
Qed.

Lemma strip_fixed : forall s, Transcriber.strip (Transcriber.strip s) = Transcriber.strip s.
Proof.
  intros s. destruct (strip_head s) as [-> | (a & r & Hs & Hw)]; [reflexivity|].
  rewrite Hs. unfold Transcriber.strip. rewrite (lstrip_0 _ Hw). rewrite <- Hs.
  unfold Transcriber.strip. apply rstrip_fixed.
Qed.

Lemma stripped_words :
  forall t, Transcriber.strip t = t ->
    (t = "" <-> len_split t = 0%nat) /\
    (str_nonempty t && strip_nonempty t = negb (String.eqb t "")).
Proof.
  intros t Ht. destruct (strip_head t) as [H | (a & r & H & Hw)]; rewrite Ht in H.
  - subst t. split; [split; reflexivity | reflexivity].
  - subst t. split.
    + split; [discriminate|]. unfold len_split. cbn [count_words]. rewrite Hw. discriminate.
    + unfold strip_nonempty. rewrite (lstrip_0 _ Hw). reflexivity.
Qed.


(** [strip] and [split] on blanks outside ASCII, as Python has them:
    ['\xa0hi\xa0'.strip() == 'hi'], ['\u3000'.strip() == ''],
    [len('a\xa0b'.split()) == 2] and [len('a\u3000\x1fb\x85'.split()) == 2]. *)
Example strip_no_break_space :
  Transcriber.strip (nbsp ++ "hi" ++ nbsp) = "hi" /\
  Transcriber.strip ideographic_space = "" /\
  len_split ("a" ++ nbsp ++ "b") = 2 /\
  len_split ("a" ++ ideographic_space ++ String (ascii_of_nat 31) "b"
               ++ String (ascii_of_nat 194) (String (ascii_of_nat 133) "")) = 2.
Proof. repeat split; vm_compute; reflexivity. Qed.

Section InjectorMore.
Context {sample time : Type} (E : Env sample time).

Ltac trace_prefix :=
  match goal with
  | |- exists pre, ?x :: ?y :: ?t = (pre ++ ?t)%list /\ _ => exists [x; y]
  | |- exists pre, ?x :: ?t = (pre ++ ?t)%list /\ _ => exists [x]
  | |- exists pre, ?t = (pre ++ ?t)%list /\ _ => exists []
  end.

Ltac finish_attempt :=
  split; [reflexivity|]; trace_prefix; split; [reflexivity|];
  split; [ first [ discriminate | intros; reflexivity ] | ];
  split; [ first [ discriminate | intros; cbn; lia ] | ];
  first
    [ discriminate
    | intros _; split; [ first [ discriminate | intros; reflexivity ] |];
      split; [ repeat match goal with u : unit |- _ => destruct u end; reflexivity |];
      first [ exists []; split; reflexivity | eexists [_]; split; reflexivity ] ].

(** What one attempt leaves in the trace: nothing, a clipboard copy, or a
    clipboard copy followed by a ydotool process. *)
Lemma attempt_trace :
  forall (m : TextInjector.InsertionMethod) (text : string)
         (inj : TextInjector.t) (a : Amb sample) r w',
    TextInjector.attempt E m text (inj, a) = (r, w') ->
    fst w' = inj /\
    exists pre,
      trace (snd w') = (pre ++ trace a)%list /\
      (TextInjector._ydotool_available inj = false ->
       forallb (fun ev => negb (is_subprocess_run ev)) pre = true) /\
      (TextInjector._ydotool_available inj = false ->
       (length pre <= if TextInjectorStatus.method_eqb m TextInjector.CLIPBOARD
                      then 1 else 0)%nat) /\
      (r = Ok true ->
       (TextInjector._ydotool_available inj = false -> m = TextInjector.CLIPBOARD) /\
       pyperclip_copy E (trace a) text = Ok tt /\
       exists pre', pre = (pre' ++ [EvClipboardCopy text])%list /\
                    forallb (fun ev => negb (is_clipboard_copy ev)) pre' = true).
Proof.
  intros m text inj a r w' H.
  destruct m; cbn in H; unfold TextInjector._insert_direct, TextInjector._insert_auto_paste,
    TextInjector._insert_clipboard in H; run_py;
    destruct (TextInjector._ydotool_available inj) eqn:Hy; cbn in H;
    revert H; split_match; intros H; inversion H; subst; cbn;
    finish_attempt.
Qed.

Lemma insert_loop_trace :
  forall (ms : list TextInjector.InsertionMethod) (text : string) (le : option exn)
         (inj : TextInjector.t) (a : Amb sample) r w',
    TextInjector.insert_loop E ms text le (inj, a) = (r, w') ->
    exists new,
      trace (snd w') = (new ++ trace a)%list /\
      (TextInjector._ydotool_available inj = false ->
       forallb (fun ev => negb (is_subprocess_run ev)) new = true /\
       (length new <= length (List.filter
                                (fun m => TextInjectorStatus.method_eqb m TextInjector.CLIPBOARD)
                                ms))%nat /\
       forall m, r = Ok m -> m = TextInjector.CLIPBOARD).
Proof.
  induction ms as [|m rest IH]; intros text le inj a r w' H; cbn in H.
  - unfold raise in H. inversion H; subst. exists []. split; [reflexivity|].
    intros _. split; [reflexivity|]. split; [cbn; lia|]. discriminate.
  - destruct (TextInjector.attempt E m text (inj, a)) as [[[|]|e] [inj1 a1]] eqn:Hatt;
      destruct (attempt_trace _ _ _ _ _ _ Hatt) as (Hinj & pre & Hpre & Hsub & Hlen & Hok);
      cbn in Hinj, Hpre; subst inj1.
    + unfold bind, update, ret in H. cbn in H. inversion H; subst; cbn.
      exists pre. split; [exact Hpre|]. intros Hy. split; [auto|].
      destruct (Hok eq_refl) as (Hm & _).
      split; [ rewrite (Hm Hy) in *; cbn; specialize (Hlen Hy); cbn in Hlen; lia | ].
      intros m' Hm'. inversion Hm'; subst. apply Hm; auto.
    + destruct (IH _ _ _ _ _ _ H) as (new & Hnew & Hrest).
      exists (new ++ pre)%list. rewrite Hnew, Hpre, app_assoc. split; [reflexivity|].
      intros Hy. destruct (Hrest Hy) as (Hq & Hl & Hm). split; [ | split; [ | exact Hm ] ].
      * rewrite forallb_app, Hq, (Hsub Hy). reflexivity.
      * rewrite length_app. specialize (Hlen Hy). cbn [List.filter].
        destruct (TextInjectorStatus.method_eqb m TextInjector.CLIPBOARD); cbn in *; lia.
    + destruct (IH _ _ _ _ _ _ H) as (new & Hnew & Hrest).
      exists (new ++ pre)%list. rewrite Hnew, Hpre, app_assoc. split; [reflexivity|].
      intros Hy. destruct (Hrest Hy) as (Hq & Hl & Hm). split; [ | split; [ | exact Hm ] ].
      * rewrite forallb_app, Hq, (Hsub Hy). reflexivity.
      * rewrite length_app. specialize (Hlen Hy). cbn [List.filter].
        destruct (TextInjectorStatus.method_eqb m TextInjector.CLIPBOARD); cbn in *; lia.
Qed.

(** An injector without ydotool adds no [subprocess.run] to the trace and
    can only return [CLIPBOARD]. *)
Lemma insert_text_without_ydotool_aux :
  forall (text : string) (inj : TextInjector.t) (a : Amb sample),
    TextInjector._ydotool_available inj = false ->
    exists new,
      trace (snd (snd (TextInjector.insert_text E text (inj, a)))) = (new ++ trace a)%list /\
      forallb (fun ev => negb (is_subprocess_run ev)) new = true /\
      (length new <= 1)%nat /\
      forall m, fst (TextInjector.insert_text E text (inj, a)) = Ok m ->
                m = TextInjector.CLIPBOARD.
Proof.
  intros text inj a Hy. unfold TextInjector.insert_text.
  destruct (str_nonempty text); cbn.
  - unfold bind, self. cbn.
    destruct (TextInjector.insert_loop E
                (TextInjector.methods_for (TextInjector.preferred_method inj)) text None
                (inj, a)) as [r w'] eqn:H.
    destruct (insert_loop_trace _ _ _ _ _ _ _ H) as (new & Hnew & Hrest).
    destruct (Hrest Hy) as (Hq & Hlen & Hm). exists new. cbn.
    split; [exact Hnew|]. split; [exact Hq|]. split; [ | exact Hm ].
    eapply Nat.le_trans; [exact Hlen|]. unfold TextInjector.methods_for.
    repeat match goal with |- context [if ?c then _ else _] => destruct c end; cbn; lia.
  - exists []. split; [reflexivity|]. split; [reflexivity|]. split; [cbn; lia|].
    unfold ret. cbn. intros m Hm. inversion Hm. reflexivity.
Qed.

(** X1: an injector built on a system where [which ydotool] does not exit
    with 0 (it exits with another code, times out or cannot be spawned)
    has [_ydotool_available = False]; its constructor ran that one probe
    and did not raise.  Whatever the preference and the text, its
    [insert_text] then spawns no process, copies to the clipboard at most
    once, and can only return [CLIPBOARD]. *)
Theorem injector_without_ydotool_uses_clipboard_only :
  forall (preferred text : string) (a0 a : Amb sample),
    (forall err, child_process E (trace a0) ["which"; "ydotool"] <> Completed 0 err) ->
    let inj := fst (TextInjector.__init__ E preferred a0) in
    inj = TextInjector.mk preferred false None /\
    snd (TextInjector.__init__ E preferred a0) =
      mk_amb (EvSubprocessRun ["which"; "ydotool"] :: trace a0) (clock_reads a0) /\
    exists new,
      trace (snd (snd (TextInjector.insert_text E text (inj, a)))) = (new ++ trace a)%list /\
      forallb (fun ev => negb (is_subprocess_run ev)) new = true /\
      (length new <= 1)%nat /\
      forall m, fst (TextInjector.insert_text E text (inj, a)) = Ok m ->
                m = TextInjector.CLIPBOARD.
Proof.
  intros preferred text a0 a Hwhich inj.
  assert (Hinit : TextInjector.__init__ E preferred a0 =
                  (TextInjector.mk preferred false None,
                   mk_amb (EvSubprocessRun ["which"; "ydotool"] :: trace a0)
                     (clock_reads a0))).
  { unfold TextInjector.__init__, TextInjector._check_ydotool, try_except, bind,
      subprocess_run, external, ret, raise. cbn.
    destruct (child_process E (trace a0) ["which"; "ydotool"]) as [rc err | | e] eqn:Hc;
      cbn; try reflexivity.
    destruct (rc =? 0)%Z eqn:Hrc; [ | reflexivity ].
    apply Z.eqb_eq in Hrc. subst rc. exfalso. apply (Hwhich err). reflexivity. }
  subst inj. rewrite Hinit. cbn [fst snd].
  split; [reflexivity|]. split; [reflexivity|].
  apply insert_text_without_ydotool_aux. reflexivity.
Qed.

Lemma failed_attempts_same_injector :
  forall (pre : list TextInjector.InsertionMethod) (text : string)
         (inj : TextInjector.t) (a : Amb sample) w1,
    failed_attempts E pre text (inj, a) = Some w1 -> fst w1 = inj.
Proof.
  induction pre as [|p rest IH]; intros text inj a w1 H; cbn in H.
  - inversion H. reflexivity.
  - destruct (TextInjector.attempt E p text (inj, a)) as [r [inj1 a1]] eqn:Hatt.
    destruct (attempt_trace _ _ _ _ _ _ Hatt) as (Hinj & _). cbn in Hinj. subst inj1.
    destruct r as [[|]|e]; [discriminate| |]; eapply IH; exact H.
Qed.

(** X2: when [insert_text] returns a method for a non-empty text, that
    method is one of the candidates of the preference, it is what
    [get_last_method] answers afterwards, and the last thing written to the
    clipboard is the text itself, by a [pyperclip.copy] that succeeded:
    every delivery method leaves the text on the clipboard. *)
Theorem insert_text_leaves_text_on_clipboard :
  forall (text : string) (inj inj' : TextInjector.t) (a a' : Amb sample)
         (m : TextInjector.InsertionMethod),
    str_nonempty text = true ->
    TextInjector.insert_text E text (inj, a) = (Ok m, (inj', a')) ->
    In m (TextInjector.methods_for (TextInjector.preferred_method inj)) /\
    inj' = TextInjector.set_last_method_used m inj /\
    TextInjector.get_last_method (inj', a') = (Ok (Some m), (inj', a')) /\
    exists pre h,
      trace a' = (pre ++ EvClipboardCopy text :: h)%list /\
      pyperclip_copy E h text = Ok tt /\
      forallb (fun ev => negb (is_clipboard_copy ev)) pre = true.
Proof.
  intros text inj inj' a a' m Hne H.
  unfold TextInjector.insert_text in H. rewrite Hne in H. cbn in H.
  unfold bind, self in H. cbn in H.
  apply insert_loop_first_success in H.
  destruct H as (pre & post & [inj1 a1] & [inj2 a2] & Hms & Hfail & Hatt & Hw).
  pose proof (failed_attempts_same_injector _ _ _ _ _ Hfail) as Hi1. cbn in Hi1. subst inj1.
  destruct (attempt_trace _ _ _ _ _ _ Hatt) as (Hi2 & new & Hnew & _ & _ & Hok).
  cbn in Hi2, Hnew. subst inj2.
  destruct (Hok eq_refl) as (_ & Hcopy & pre' & -> & Hq).
  inversion Hw; subst inj' a'. cbn.
  split; [rewrite Hms; apply in_or_app; right; left; reflexivity|].
  split; [reflexivity|]. split; [reflexivity|].
  exists pre', (trace a1). rewrite Hnew, <- app_assoc. cbn. auto.
Qed.

End InjectorMore.

Ltac keeps_step :=
  first
    [ apply keeps_ret | apply keeps_raise | apply keeps_self | apply keeps_time_now
    | apply keeps_external
    | apply keeps_bind; [ | intros ? ]
    | apply keeps_try_except; [ | intros ? ]
    | apply keeps_if ].

Section CaptureMore.
Context {sample time : Type} (E : Env sample time).

Lemma keeps_call_callback :
  forall (P : AudioCapture.t sample time -> Prop) (cb : M (Amb sample) unit),
    keeps P (AudioCapture.call_callback cb).
Proof.
  intros P cb ac a H. unfold AudioCapture.call_callback.
  destruct (cb a) as [r a']. exact H.
Qed.

Lemma keeps_match_option :
  forall {Obj A B} (P : Obj -> Prop) (o : option B) (f : B -> M (W sample Obj) A)
         (m : M (W sample Obj) A),
    (forall x, keeps P (f x)) -> keeps P m ->
    keeps P (match o with Some x => f x | None => m end).
Proof. intros Obj A B P o f m Hf Hm. destruct o; auto. Qed.

Lemma vad_loop_keeps_counters :
  forall (audio : list (bufitem sample)) (fs : Z) (indices : list Z) (v f : Z),
    keeps counters_ok (AudioCapture.vad_loop E audio fs indices v f).
Proof.
  intros audio fs indices. induction indices as [|i rest IH]; intros v f ac a H; cbn.
  - exact H.
  - unfold bind, self, external. cbn.
    destruct (vad_is_speech E (trace a) _ _) as [[|]|e]; cbn.
    + apply IH. unfold counters_ok in *. cbn. lia.
    + apply IH. unfold counters_ok in *. cbn. lia.
    + apply IH. exact H.
Qed.

Lemma contains_voice_keeps_counters :
  forall (audio : list (bufitem sample)) (fs : Z),
    keeps counters_ok (AudioCapture._contains_voice E audio fs).
Proof.
  intros audio fs. unfold AudioCapture._contains_voice.
  destruct (py_range 0 (len audio - fs) fs); [ | apply keeps_raise ].
  apply keeps_bind; [ apply vad_loop_keeps_counters | intros [v f] ].
  destruct (f =? 0)%Z; apply keeps_ret.
Qed.

Lemma process_audio_body_keeps_counters :
  keeps counters_ok (AudioCapture._process_audio_body E).
Proof.
  unfold AudioCapture._process_audio_body.
  repeat (apply keeps_bind; [ apply keeps_self | intros ? ]).
  apply keeps_if; [ apply keeps_ret | ].
  apply keeps_bind; [ apply keeps_update; intros ? ?; assumption | intros ? ].
  apply keeps_bind; [ apply contains_voice_keeps_counters | intros voiced ].
  apply keeps_bind; [ | intros ?; apply keeps_ret ].
  apply keeps_if; [ | apply keeps_ret ].
  apply keeps_bind; [ apply keeps_self | intros cb ].
  apply keeps_match_option; [ intros f | apply keeps_ret ].
  apply keeps_try_except; [ | intros ?; apply keeps_ret ].
  apply keeps_bind; [ apply keeps_time_now | intros ? ].
  apply keeps_bind; [ apply keeps_self | intros ? ].
  apply keeps_bind; [ apply keeps_call_callback | intros ? ].
  apply keeps_update. intros ? ?; assumption.
Qed.

Lemma process_audio_keeps_counters :
  forall n, keeps counters_ok (AudioCapture._process_audio E n).
Proof.
  induction n as [|n IH]; cbn.
  - apply keeps_ret.
  - repeat (apply keeps_bind; [ apply keeps_self | intros ? ]).
    apply keeps_if.
    + apply keeps_try_except.
      * apply keeps_bind; [ apply process_audio_body_keeps_counters | intros ?; exact IH ].
      * intros ?. apply keeps_update. intros ? ?; assumption.
    + apply keeps_update. intros ? ?; assumption.
Qed.

Lemma start_keeps_counters : keeps counters_ok (AudioCapture.start E).
Proof.
  intros ac a H.
  unfold AudioCapture.start, bind, self, update, try_except, external, time_now, raise, ret.
  cbn. destruct (AudioCapture.recording ac); cbn; [exact H|].
  assert (Z0 : forall x : AudioCapture.t sample time,
             AudioCapture.voiced_frames x = 0%Z -> AudioCapture.total_frames x = 0%Z ->
             counters_ok x).
  { intros x Hv Ht. unfold counters_ok. rewrite Hv, Ht. lia. }
  destruct (sd_InputStream E (trace a)); cbn; [ | apply Z0; reflexivity ].
  destruct (sd_stream_start E (EvStreamOpen :: trace a)); cbn; [ | apply Z0; reflexivity ].
  destruct (AudioCapture.chunk_callback ac); cbn; apply Z0; reflexivity.
Qed.

Lemma stop_keeps_counters : keeps counters_ok (AudioCapture.stop E).
Proof.
  unfold AudioCapture.stop.
  apply keeps_bind; [ apply keeps_update; intros ? ?; assumption | intros ? ].
  apply keeps_bind; [ apply keeps_self | intros st ].
  apply keeps_bind.
  { destruct st; [ | apply keeps_ret ].
    apply keeps_bind; [ apply keeps_external | intros ? ].
    apply keeps_bind; [ apply keeps_external | intros ? ].
    apply keeps_update; intros ? ?; assumption. }
  intros ?. apply keeps_bind; [ apply keeps_self | intros th ].
  apply keeps_bind.
  { destruct th as [[[|]]|]; try apply keeps_ret.
    apply keeps_bind; [ apply keeps_external | intros n ].
    apply process_audio_keeps_counters. }
  intros ?. apply keeps_bind; [ apply keeps_self | intros ? ].
  apply keeps_bind; [ apply keeps_time_now | intros ? ]. apply keeps_ret.
Qed.

Lemma audio_callback_keeps_counters :
  forall indata, keeps (counters_ok (sample := sample) (time := time))
                   (AudioCapture._audio_callback indata).
Proof.
  intros indata. unfold AudioCapture._audio_callback.
  apply keeps_bind; [ apply keeps_self | intros rec ].
  apply keeps_if; [ apply keeps_ret | ].
  apply keeps_bind; [ apply keeps_self | intros ? ].
  apply keeps_bind; [ apply keeps_update; intros ? ?; assumption | intros ? ].
  apply keeps_bind; [ apply keeps_self | intros cb ].
  apply keeps_match_option; [ intros f | apply keeps_ret ].
  apply keeps_try_except; [ apply keeps_call_callback | intros ?; apply keeps_ret ].
Qed.

(** X3: the lifetime counters of the gate stay consistent: whatever
    sequence of [start], [stop], [get_status], driver callbacks, chunk
    decisions and streaming passes runs on a capture engine, and whatever
    the driver, the classifier and the callbacks do, the number of voiced
    frames stays between 0 and the number of classified frames. *)
Theorem gate_counters_stay_consistent :
  forall (cs : list (capture_call (sample := sample)))
         (w : W sample (AudioCapture.t sample time)),
    counters_ok (fst w) -> counters_ok (fst (capture_run E cs w)).
Proof.
  induction cs as [|c rest IH]; intros [ac a] H; cbn; [exact H|].
  apply IH. cbn in H.
  assert (Hk : keeps counters_ok (capture_do E c)).
  { destruct c; cbn.
    - apply start_keeps_counters.
    - apply keeps_bind; [ apply stop_keeps_counters | intros ?; apply keeps_ret ].
    - apply keeps_bind; [ | intros ?; apply keeps_ret ].
      unfold AudioCapture.get_status.
      repeat (apply keeps_bind; [ first [ apply keeps_self | apply keeps_if; repeat keeps_step ]
                                | intros ? ]).
      apply keeps_self.
    - apply audio_callback_keeps_counters.
    - apply keeps_bind; [ apply contains_voice_keeps_counters | intros ?; apply keeps_ret ].
    - apply process_audio_keeps_counters. }
  specialize (Hk ac a H).
  destruct (capture_do E c (ac, a)) as [r [ac' a']]. exact Hk.
Qed.



Lemma vad_loop_holds_buffer :
  forall x b (audio : list (bufitem sample)) (fs : Z) (indices : list Z) (v f : Z),
    keeps (holds_buffer x b) (AudioCapture.vad_loop E audio fs indices v f).
Proof.
  intros x b audio fs indices. induction indices as [|i rest IH]; intros v f ac a H; cbn.
  - exact H.
  - unfold bind, self, external. cbn.
    destruct (vad_is_speech E (trace a) _ _) as [[|]|e]; cbn; apply IH; exact H.
Qed.

Lemma tail_holds_buffer :
  forall x b (chunk : list (bufitem sample)) (fs : Z),
    keeps (holds_buffer x b)
      (voiced <- AudioCapture._contains_voice E chunk fs ;;
       (if (voiced : bool) then
          cb <- self AudioCapture.chunk_callback ;;
          match cb with
          | Some f =>
              try_except
                (now <- time_now E ;;
                 t0 <- self AudioCapture.start_time ;;
                 AudioCapture.call_callback (f chunk (time_sub E now t0)) ;;;
                 update (fun s => AudioCapture.set_total_chunks
                                    (AudioCapture.total_chunks s + 1) s))
                Exception (fun _ => ret tt)
          | None => ret tt
          end
        else ret tt) ;;;
       ret true).
Proof.
  intros x b chunk fs.
  apply keeps_bind.
  { unfold AudioCapture._contains_voice.
    destruct (py_range 0 (len chunk - fs) fs); [ | apply keeps_raise ].
    apply keeps_bind; [ apply vad_loop_holds_buffer | intros [v f] ].
    destruct (f =? 0)%Z; apply keeps_ret. }
  intros voiced. apply keeps_bind; [ | intros ?; apply keeps_ret ].
  apply keeps_if; [ | apply keeps_ret ].
  apply keeps_bind; [ apply keeps_self | intros cb ].
  destruct cb as [f|]; [ | apply keeps_ret ].
  apply keeps_try_except; [ | intros ?; apply keeps_ret ].
  apply keeps_bind; [ apply keeps_time_now | intros ? ].
  apply keeps_bind; [ apply keeps_self | intros ? ].
  apply keeps_bind; [ apply keeps_call_callback | intros ? ].
  apply keeps_update. intros ? ?; assumption.
Qed.

(** One pass of the streaming loop leaves the buffer alone or removes
    its first [chunk_samples] elements. *)
Lemma process_audio_body_buffer :
  forall (ac : AudioCapture.t sample time) (a : Amb sample),
    (0 < AudioCapture.chunk_samples_of ac)%Z ->
    let cs := Z.to_nat (AudioCapture.chunk_samples_of ac) in
    let ac' := fst (snd (AudioCapture._process_audio_body E (ac, a))) in
    holds_buffer ac (AudioCapture.audio_buffer ac) ac' \/
    ((cs <= length (AudioCapture.audio_buffer ac))%nat /\
     holds_buffer ac (skipn cs (AudioCapture.audio_buffer ac)) ac').
Proof.
  intros ac a Hcs cs ac'. subst ac'.
  set (buf := AudioCapture.audio_buffer ac).
  set (n := AudioCapture.chunk_samples_of ac) in *.
  assert (Heq : AudioCapture._process_audio_body E (ac, a) =
    if (len buf <? n)%Z then (Ok false, (ac, a))
    else
      (voiced <- AudioCapture._contains_voice E (slice_to buf n)
                   (AudioCapture.frame_samples_of ac) ;;
       (if (voiced : bool) then
          cb <- self AudioCapture.chunk_callback ;;
          match cb with
          | Some f =>
              try_except
                (now <- time_now E ;;
                 t0 <- self AudioCapture.start_time ;;
                 AudioCapture.call_callback (f (slice_to buf n) (time_sub E now t0)) ;;;
                 update (fun s => AudioCapture.set_total_chunks
                                    (AudioCapture.total_chunks s + 1) s))
                Exception (fun _ => ret tt)
          | None => ret tt
          end
        else ret tt) ;;;
       ret true) (AudioCapture.set_audio_buffer (slice_from buf n) ac, a)).
  { unfold AudioCapture._process_audio_body, bind at 1 2 3, self at 1 2 3. cbn [fst snd].
    fold buf n. destruct (len buf <? n)%Z; reflexivity. }
  rewrite Heq. clear Heq.
  destruct (len buf <? n)%Z eqn:Hlt.
  - left. cbn. repeat split.
  - right. apply Z.ltb_ge in Hlt. unfold len in Hlt.
    assert (Hle : (cs <= length buf)%nat) by (subst cs; lia).
    split; [exact Hle|].
    apply (tail_holds_buffer ac (skipn cs buf)).
    unfold holds_buffer. cbn. repeat split.
    unfold slice_from, clip_index, len.
    replace (Z.to_nat _) with cs; [reflexivity|].
    subst cs. destruct (n <? 0)%Z eqn:Hneg; [apply Z.ltb_lt in Hneg; lia|].
    rewrite Z.min_l by lia. reflexivity.
Qed.

Lemma holds_buffer_chunk_samples :
  forall (x y : AudioCapture.t sample time) b,
    holds_buffer x b y -> AudioCapture.chunk_samples_of y = AudioCapture.chunk_samples_of x.
Proof.
  intros x y b (H1 & H2 & _). unfold AudioCapture.chunk_samples_of. rewrite H1, H2. reflexivity.
Qed.

(** X4: the streaming loop only ever removes whole chunks from the front
    of the buffer.  After any number of passes, [k] chunks of
    [chunk_samples] elements each have been taken, [k] at most the number
    of passes, and what is left is the buffer without its first
    [k * chunk_samples] elements: no sample is reordered or taken twice,
    whatever the classifier and the chunk callback do. *)
Theorem streaming_takes_whole_chunks :
  forall (n : nat) (ac : AudioCapture.t sample time) (a : Amb sample),
    (0 < AudioCapture.chunk_samples_of ac)%Z ->
    let cs := Z.to_nat (AudioCapture.chunk_samples_of ac) in
    exists k : nat,
      (k <= n)%nat /\
      (k * cs <= length (AudioCapture.audio_buffer ac))%nat /\
      AudioCapture.audio_buffer (fst (snd (AudioCapture._process_audio E n (ac, a)))) =
        skipn (k * cs) (AudioCapture.audio_buffer ac).
Proof.
  induction n as [|n IH]; intros ac a Hcs cs.
  - exists 0%nat. cbn. split; [lia|]. split; [lia | reflexivity].
  - cbn [AudioCapture._process_audio].
    unfold bind at 1. unfold self at 1. cbn [fst snd].
    unfold bind at 1. unfold self at 1. cbn [fst snd].
    destruct (AudioCapture.recording ac || (0 <? len (AudioCapture.audio_buffer ac))%Z).
    2:{ exists 0%nat. cbn. split; [lia|]. split; [lia | reflexivity]. }
    pose proof (process_audio_body_buffer ac a Hcs) as Hbody. cbn zeta in Hbody.
    unfold try_except, bind.
    destruct (AudioCapture._process_audio_body E (ac, a)) as [[r|e] [ac1 a1]] eqn:Hb;
      cbn [fst snd] in Hbody.
    + assert (Hcs1 : AudioCapture.chunk_samples_of ac1 = AudioCapture.chunk_samples_of ac).
      { destruct Hbody as [H | [_ H]]; eapply holds_buffer_chunk_samples; exact H. }
      assert (Hpos : (0 < AudioCapture.chunk_samples_of ac1)%Z) by (rewrite Hcs1; exact Hcs).
      destruct (IH ac1 a1 Hpos) as (k & Hk & Hlen & Hbuf). rewrite Hcs1 in Hlen, Hbuf.
      fold cs in Hlen, Hbuf.
      assert (Hfin :
        AudioCapture.audio_buffer
          (fst (snd (match AudioCapture._process_audio E n (ac1, a1) with
                     | (Raise e, s') =>
                         if exn_isinstance e Exception
                         then update (AudioCapture.set_capture_thread
                                        (Some (AudioCapture.mk_thread false))) s'
                         else (Raise e, s')
                     | r0 => r0
                     end))) =
        AudioCapture.audio_buffer (fst (snd (AudioCapture._process_audio E n (ac1, a1))))).
      { destruct (AudioCapture._process_audio E n (ac1, a1)) as [[u|e] [ac2 a2]];
          reflexivity. }
      rewrite Hfin, Hbuf.
      destruct Hbody as [(_ & _ & _ & H) | (Hle & _ & _ & _ & H)]; rewrite H in *.
      * exists k. split; [lia|]. split; [exact Hlen | reflexivity].
      * exists (S k). rewrite length_skipn in Hlen.
        split; [lia|]. split; [cbn; lia|].
        rewrite skipn_skipn. f_equal. cbn. lia.
    + cbn. destruct Hbody as [(_ & _ & _ & H) | (Hle & _ & _ & _ & H)].
      * exists 0%nat. cbn. split; [lia|]. split; [lia | exact H].
      * exists 1%nat. cbn. rewrite Nat.add_0_r. split; [lia|]. split; [exact Hle | exact H].
Qed.


(** X5: [stop] returns the recorded audio without clearing the buffer.
    With no streaming thread and a stream that stops and closes, the
    engine after [stop] ignores what the driver still delivers, and a
    second [stop] returns the same audio again without touching the
    stream. *)
Theorem stop_keeps_the_recorded_audio :
  forall (ac : AudioCapture.t sample time) (a : Amb sample)
         (blocks : list (list (sample * list sample))),
    AudioCapture.capture_thread ac = None ->
    (forall h, sd_stream_stop E h = Ok tt) ->
    (forall h, sd_stream_close E h = Ok tt) ->
    exists w1 w2,
      AudioCapture.stop E (ac, a) = (Ok (AudioCapture.audio_buffer ac), w1) /\
      audio_driver blocks w1 = w1 /\
      AudioCapture.stop E w1 = (Ok (AudioCapture.audio_buffer ac), w2) /\
      trace (snd w2) = trace (snd w1) /\
      AudioCapture.audio_buffer (fst w2) = AudioCapture.audio_buffer ac.
Proof.
  intros ac a blocks Hth Hstop Hclose.
  assert (Hdrop : forall (w : W sample (AudioCapture.t sample time)),
             AudioCapture.recording (fst w) = false -> audio_driver blocks w = w).
  { induction blocks as [|b rest IH]; intros [x ax] Hx; cbn; [reflexivity|].
    cbn in Hx. unfold AudioCapture._audio_callback, bind, self, ret. cbn.
    rewrite Hx. cbn. apply IH. exact Hx. }
  unfold AudioCapture.stop, bind, self, update, external, time_now, ret.
  cbn. destruct (AudioCapture.stream ac) eqn:Hs; cbn.
  - rewrite Hstop. cbn. rewrite Hclose. cbn. rewrite Hth. cbn.
    eexists _, _. split; [reflexivity|]. split; [apply Hdrop; reflexivity|].
    cbn. rewrite Hth. cbn. repeat split.
  - rewrite Hth. cbn.
    eexists _, _. split; [reflexivity|]. split; [apply Hdrop; reflexivity|].
    cbn. rewrite Hs. cbn. rewrite Hth. cbn. repeat split.
Qed.

End CaptureMore.

Section TranscriberMore.
Context {sample time : Type} (E : Env sample time).

(** X6: [transcribe_full_audio] raises [RuntimeError] without a model and
    calls nothing.  With a model it never raises: it calls the model once
    and returns the segments joined by blanks and stripped, or the empty
    string when the model failed; the transcriber itself is unchanged and
    the text returned has no blank at either end. *)
Theorem transcribe_full_audio_outcome :
  forall (audio : list (bufitem sample)) (tr : Transcriber.t) (a : Amb sample),
    (Transcriber.model tr = false ->
     Transcriber.transcribe_full_audio E audio (tr, a) =
       (Raise (new_exn RuntimeError "Model not loaded"), (tr, a))) /\
    (Transcriber.model tr = true ->
     exists text a',
       Transcriber.transcribe_full_audio E audio (tr, a) = (Ok text, (tr, a')) /\
       trace a' = EvModelTranscribe audio :: trace a /\
       text = match model_transcribe E (trace a) audio with
              | Ok text_parts => Transcriber.strip (String.concat " " text_parts)
              | Raise _ => ""
              end /\
       Transcriber.strip text = text).
Proof.
  intros audio tr a. split; intros Hm;
    unfold Transcriber.transcribe_full_audio, bind, self, raise, time_now, try_except,
      external, ret; cbn; rewrite Hm; cbn; [reflexivity|].
  destruct (model_transcribe E (trace a) audio) as [parts|e]; cbn.
  - eexists _, _. split; [reflexivity|]. split; [reflexivity|]. split; [reflexivity|].
    apply strip_fixed.
  - eexists _, _. split; [reflexivity|]. split; [reflexivity|]. split; reflexivity.
Qed.

End TranscriberMore.

Section DaemonMore.
Context {sample time : Type} (E : Env sample time).

Lemma transcribed_text_is_stripped :
  forall (audio : list (bufitem sample)) (tr tr' : Transcriber.t) (a a' : Amb sample) text,
    Transcriber.transcribe_full_audio E audio (tr, a) = (Ok text, (tr', a')) ->
    Transcriber.strip text = text.
Proof.
  intros audio tr tr' a a' text.
  unfold Transcriber.transcribe_full_audio, bind, self, raise, time_now, try_except,
    external, ret; cbn.
  destruct (Transcriber.model tr); cbn; [ | discriminate ].
  destruct (model_transcribe E (trace a) audio) as [parts|e]; cbn;
    intros H; inversion H; [ apply strip_fixed | reflexivity ].
Qed.

Lemma insert_text_raise_keeps_injector :
  forall (text : string) (inj inj' : TextInjector.t) (a a' : Amb sample) (e : exn),
    TextInjector.insert_text E text (inj, a) = (Raise e, (inj', a')) -> inj' = inj.
Proof.
  intros text inj inj' a a' e. unfold TextInjector.insert_text.
  destruct (str_nonempty text); cbn; [ | discriminate ].
  unfold bind, self. cbn. intros H.
  apply insert_loop_exhausted in H. destruct H as [Hfail _].
  apply failed_attempts_same_injector in Hfail. exact Hfail.
Qed.

Lemma insert_text_needs_clipboard :
  forall (text : string) (inj : TextInjector.t) (a : Amb sample) m w',
    str_nonempty text = true ->
    TextInjector.insert_text E text (inj, a) = (Ok m, w') ->
    exists h, pyperclip_copy E h text = Ok tt.
Proof.
  intros text inj a m w' Hne. unfold TextInjector.insert_text. rewrite Hne. cbn.
  unfold bind, self. cbn. intros H.
  apply insert_loop_first_success in H.
  destruct H as (pre & post & [i1 b1] & w2 & _ & _ & Hatt & _).
  destruct (attempt_trace E _ _ _ _ _ _ Hatt) as (_ & new & _ & _ & _ & Hok).
  destruct (Hok eq_refl) as (_ & Hcopy & _). eauto.
Qed.

(** X7: the entries of a successful [stop] result agree with each other:
    the transcription is stripped, the word count is the number of its
    words, the insertion method is ["none"] exactly when the transcription
    is empty, which is exactly when the word count is 0, and otherwise it
    is one of ["direct"], ["auto_paste"] and ["clipboard"]. *)
Theorem stop_result_is_consistent :
  forall (d : Daemon.t sample time) (a : Amb sample) (r : Daemon.result time) w',
    Daemon._handle_stop_command E (d, a) = (Ok r, w') ->
    Daemon.succeeded r = true ->
    exists text method,
      Daemon.get r "transcription" = Some (Daemon.VStr text) /\
      Daemon.get r "insertion_method" = Some (Daemon.VStr method) /\
      Daemon.get r "word_count" = Some (Daemon.VInt (Z.of_nat (len_split text))) /\
      Transcriber.strip text = text /\
      (text = "" <-> method = "none") /\
      (text = "" <-> len_split text = 0%nat) /\
      In method ["none"; "direct"; "auto_paste"; "clipboard"].
Proof.
  intros d a r [d' a'] H Hs.
  destruct (Daemon.state_eqb (Daemon.state d) Daemon.RECORDING) eqn:Hst.
  2:{ rewrite stop_rejected in H by (destruct (Daemon.state d); cbn in Hst; congruence).
      inversion H; subst. discriminate. }
  unfold Daemon._handle_stop_command, try_except in H.
  match type of H with context [match ?b (d, a) with _ => _ end] =>
    destruct (b (d, a)) as [[r0|e] [d0 a0]] eqn:Hb end.
  2:{ cbn in H. inversion H; subst. discriminate. }
  inversion H; subst r0 d0 a0; clear H.
  pure_bind Hb st ds as_.
  rewrite Hst in Hb. cbn [negb] in Hb.
  pure_bind Hb gui dg ag.
  inv_bind_as Hb u1 d1 a1 Hemit.
  pure_bind Hb u2 d2 a2.
  inv_bind_as Hb audio d3 a3 Hcap.
  inv_bind_as Hb text d4 a4 Htrans.
  pure_bind Hb now d5 a5.
  pure_bind Hb t0 d6 a6.
  inv_bind_as Hb im d7 a7 Hins.
  pure_bind Hb u3 d8 a8.
  unfold ret in Hb; inversion Hb; subst r d' a'; clear Hb.
  assert (Hstrip : Transcriber.strip text = text).
  { destruct (8000 <? len audio)%Z.
    - apply on_transcriber_state in Htrans. destruct Htrans as (tr' & Ht & _).
      eapply transcribed_text_is_stripped. exact Ht.
    - unfold ret in Htrans. inversion Htrans. reflexivity. }
  destruct (stripped_words text Hstrip) as [Hw Hne].
  rewrite Hne in Hins.
  exists text.
  destruct (String.eqb_spec text "") as [-> | Hnz]; cbn [negb] in Hins.
  - unfold ret in Hins. inversion Hins; subst im. exists "none". cbn.
    repeat split; auto.
  - assert (Him : exists m, im = Some m).
    { unfold try_except in Hins.
      match type of Hins with context [match ?X with _ => _ end] =>
        destruct X as [[x|e] [dx ax]] eqn:Hb end.
      - inv_bind Hb. unfold ret in Hb. inversion Hb; subst. inversion Hins; subst. eauto.
      - cbn in Hins. unfold ret in Hins. inversion Hins; subst. eauto. }
    destruct Him as (m & ->). exists (TextInjector.value m). cbn.
    assert (Hsz : (if str_nonempty text then Z.of_nat (len_split text) else 0%Z) =
                  Z.of_nat (len_split text)).
    { destruct text; [contradiction Hnz; reflexivity | reflexivity]. }
    rewrite Hsz.
    repeat split; auto.
    + intros ->. contradiction Hnz; reflexivity.
    + destruct m; discriminate.
    + apply Hw.
    + apply Hw.
    + destruct m; cbn; auto.
Qed.


(** X8: when the signal that hides the window cannot be delivered, [stop]
    answers with a failure and sets the state to Idle before the capture
    engine was stopped.  The next [start] then succeeds on an engine that
    still records: it opens no stream and keeps the buffer of the session
    that was not closed. *)
Theorem failed_hide_signal_leaves_capture_running :
  forall (d : Daemon.t sample time) (a : Amb sample) (e : exn),
    Daemon.state d = Daemon.RECORDING ->
    Daemon.gui_window d = true ->
    AudioCapture.recording (Daemon.audio_capture d) = true ->
    signal_emit E (trace a) hide_window_signal = Raise e ->
    (forall h, signal_emit E h show_window_signal = Ok tt) ->
    let w1 := (Daemon.set_state Daemon.IDLE d,
               mk_amb (EvSignalEmit hide_window_signal :: trace a) (clock_reads a)) in
    Daemon._handle_stop_command E (d, a) =
      (Ok (failure ("Failed to stop recording: " ++ exn_str e)), w1) /\
    exists r2 w2,
      Daemon._handle_start_command E w1 = (Ok r2, w2) /\
      Daemon.succeeded r2 = true /\
      state_of w2 = Daemon.RECORDING /\
      AudioCapture.audio_buffer (Daemon.audio_capture (fst w2)) =
        AudioCapture.audio_buffer (Daemon.audio_capture d) /\
      trace (snd w2) = EvSignalEmit show_window_signal :: trace (snd w1).
Proof.
  intros d a e Hst Hgui Hrec Hhide Hshow w1. subst w1. split.
  - unfold Daemon._handle_stop_command, try_except, bind, self, emit, external, update, ret.
    cbn. rewrite Hst. cbn. rewrite Hgui. cbn. rewrite Hhide. cbn. reflexivity.
  - unfold Daemon._handle_start_command, try_except, bind, self, on_field, zoom,
      Transcriber.reset_transcription, update, time_now, emit, external, ret.
    cbn -[AudioCapture.start].
    assert (Hnoop : forall a0,
               AudioCapture.start E (Daemon.audio_capture d, a0) =
               (Ok tt, (Daemon.audio_capture d, a0))).
    { intros a0. unfold AudioCapture.start, bind, self. cbn. rewrite Hrec. reflexivity. }
    rewrite Hnoop. cbn.
    rewrite Hgui. cbn. rewrite Hshow. cbn.
    eexists _, _. split; [reflexivity|]. cbn. repeat split.
Qed.

(** X9: when the capture engine cannot be started, [start] answers with
    a failure that carries the text of the exception; the state is Idle,
    no session is counted, the start time is untouched, and the engine and
    the transcript are as [start] had reset them: not recording, empty. *)
Theorem failed_start_leaves_session_idle :
  forall (d : Daemon.t sample time) (a : Amb sample) (e : exn),
    Daemon.state d = Daemon.IDLE ->
    fst (AudioCapture.start E (Daemon.audio_capture d, a)) = Raise e ->
    exists w',
      Daemon._handle_start_command E (d, a) =
        (Ok (failure ("Failed to start recording: " ++ exn_str e)), w') /\
      state_of w' = Daemon.IDLE /\
      Daemon.sessions_count (fst w') = Daemon.sessions_count d /\
      Daemon.session_start_time (fst w') = Daemon.session_start_time d /\
      AudioCapture.recording (Daemon.audio_capture (fst w')) = false /\
      AudioCapture.audio_buffer (Daemon.audio_capture (fst w')) = [] /\
      Transcriber.current_transcription (Daemon.transcriber (fst w')) = [].
Proof.
  intros d a e Hst Hcap.
  assert (Hac : AudioCapture.recording (fst (snd (AudioCapture.start E (Daemon.audio_capture d, a)))) = false /\
                AudioCapture.audio_buffer (fst (snd (AudioCapture.start E (Daemon.audio_capture d, a)))) = []).
  { revert Hcap.
    unfold AudioCapture.start, bind, self, update, try_except, external, time_now, raise, ret.
    cbn. destruct (AudioCapture.recording (Daemon.audio_capture d)); cbn; [discriminate|].
    destruct (sd_InputStream E (trace a)); cbn; [ | auto ].
    destruct (sd_stream_start E (EvStreamOpen :: trace a)); cbn; [ | auto ].
    destruct (AudioCapture.chunk_callback (Daemon.audio_capture d)); cbn; discriminate. }
  unfold Daemon._handle_start_command, try_except, bind, self, on_field, zoom,
    Transcriber.reset_transcription, update, time_now, emit, external, ret.
  cbn -[AudioCapture.start]. rewrite Hst. cbn -[AudioCapture.start].
  destruct (AudioCapture.start E (Daemon.audio_capture d, a)) as [[[]|e'] [ac1 a1]];
    cbn in Hcap; [ discriminate | ].
  inversion Hcap; subst e'. cbn in Hac. destruct Hac as [Hr Hb].
  cbn. eexists. split; [reflexivity|]. cbn. repeat split; assumption.
Qed.

(** X10: [status] always returns a result and changes neither the daemon
    nor the trace.  A successful result reports the state, whether it is
    Recording, the number of sessions and whether the model is loaded; the
    only failure is a memory estimate that raised something other than
    [ImportError], and it carries the text of that exception. *)
Theorem status_always_answers :
  forall (d : Daemon.t sample time) (a : Amb sample),
    exists r a',
      Daemon._handle_status_command E (d, a) = (Ok r, (d, a')) /\
      trace a' = trace a /\
      (Daemon.succeeded r = true ->
       Daemon.get r "state" = Some (Daemon.VStr (Daemon.value (Daemon.state d))) /\
       Daemon.get r "recording" =
         Some (Daemon.VBool (Daemon.state_eqb (Daemon.state d) Daemon.RECORDING)) /\
       Daemon.get r "sessions_count" = Some (Daemon.VInt (Daemon.sessions_count d)) /\
       Daemon.get r "model_loaded" =
         Some (Daemon.VBool (Transcriber.model_loaded (Daemon.transcriber d)))) /\
      (Daemon.succeeded r = false ->
       exists e, psutil_rss_mb E = Raise e /\ exn_isinstance e ImportError = false /\
                 r = failure ("Failed to get status: " ++ exn_str e)).
Proof.
  intros d a. destruct d as [st t0 n t1 tr ac ti gui run].
  unfold Daemon._handle_status_command, Daemon._estimate_memory_usage,
    AudioCapture.get_status, try_except, on_field, zoom, bind, self, ret, raise,
    time_now.
  cbn. destruct (AudioCapture.recording ac) eqn:Hrec; cbn;
    destruct ac; cbn; destruct (psutil_rss_mb E) as [mb|e]; cbn;
    try destruct (exn_class_eqb (exn_cls e) ImportError) eqn:Hcls; cbn;
    eexists _, _; (split; [reflexivity|]); (split; [reflexivity|]);
    split; cbn; try discriminate; intros _; auto; eauto.
Qed.

(** X11: [shutdown] always answers with success and arms the timer that
    quits the application, after having run [stop] when (and only when)
    the state was Recording; whatever [stop] answered, the state is Idle
    then, and otherwise it is as it was. *)
Theorem shutdown_command_ends_the_session :
  forall (d : Daemon.t sample time) (a : Amb sample),
    let w1 := if Daemon.state_eqb (Daemon.state d) Daemon.RECORDING
              then snd (Daemon._handle_stop_command E (d, a))
              else (d, a) in
    Daemon._handle_shutdown_command E (d, a) =
      (Ok [ ("success", Daemon.VBool true);
            ("message", Daemon.VStr "Daemon shutting down") ],
       (fst w1, mk_amb (EvTimerStart :: trace (snd w1)) (clock_reads (snd w1)))) /\
    state_of w1 =
      (if Daemon.state_eqb (Daemon.state d) Daemon.RECORDING then Daemon.IDLE
       else Daemon.state d).
Proof.
  intros d a.
  unfold Daemon._handle_shutdown_command.
  unfold bind at 1. unfold self at 1. cbn [fst snd].
  destruct (Daemon.state_eqb (Daemon.state d) Daemon.RECORDING) eqn:Hst; cbn zeta.
  - assert (Hrec : Daemon.state d = Daemon.RECORDING)
      by (destruct (Daemon.state d); cbn in Hst; congruence).
    destruct (stop_from_recording E d a Hrec) as (r & d' & a' & Hstop & Hidle).
    unfold bind, external, ret. rewrite Hstop. cbn. split; [reflexivity | exact Hidle].
  - unfold bind, external, ret. cbn. split; reflexivity.
Qed.

(** X12: when nothing can be written to the clipboard, [stop] still
    returns a result, and a successful result with a non-empty
    transcription reports the insertion method ["clipboard"] although
    every method of the chain failed; the injector is left as it was. *)
Theorem failed_insertion_is_reported_as_clipboard :
  forall (d : Daemon.t sample time) (a : Amb sample),
    (forall h text, pyperclip_copy E h text <> Ok tt) ->
    exists r d' a',
      Daemon._handle_stop_command E (d, a) = (Ok r, (d', a')) /\
      (Daemon.succeeded r = true ->
       forall text,
         Daemon.get r "transcription" = Some (Daemon.VStr text) ->
         text <> "" ->
         Daemon.get r "insertion_method" = Some (Daemon.VStr "clipboard") /\
         Daemon.text_injector d' = Daemon.text_injector d).
Proof.
  intros d a Hclip.
  destruct (Daemon.state_eqb (Daemon.state d) Daemon.RECORDING) eqn:Hst.
  2:{ rewrite stop_rejected by (destruct (Daemon.state d); cbn in Hst; congruence).
      eexists _, _, _. split; [reflexivity|]. discriminate. }
  assert (Hrec : Daemon.state d = Daemon.RECORDING)
    by (destruct (Daemon.state d); cbn in Hst; congruence).
  destruct (stop_from_recording E d a Hrec) as (r & d' & a' & H & _).
  exists r, d', a'. split; [exact H|]. intros Hs text Hget Hne.
  unfold Daemon._handle_stop_command, try_except in H.
  match type of H with context [match ?X with _ => _ end] =>
    destruct X as [[r0|e] [d0 a0]] eqn:Hb end.
  2:{ cbn in H. inversion H; subst. discriminate. }
  inversion H; subst r0 d0 a0; clear H.
  pure_bind Hb st ds as_.
  rewrite Hst in Hb. cbn [negb] in Hb.
  pure_bind Hb gui dg ag.
  inv_bind_as Hb u1 d1 a1 Hemit.
  pure_bind Hb u2 d2 a2.
  inv_bind_as Hb audio d3 a3 Hcap.
  inv_bind_as Hb text' d4 a4 Htrans.
  pure_bind Hb now d5 a5.
  pure_bind Hb t0 d6 a6.
  inv_bind_as Hb im d7 a7 Hins.
  pure_bind Hb u3 d8 a8.
  unfold ret in Hb; inversion Hb; subst r d' a'; clear Hb.
  cbn in Hget. inversion Hget; subst text'. clear Hget.
  assert (Hd1 : d1 = d).
  { destruct (Daemon.gui_window d); unfold emit, external, ret in Hemit; cbn in Hemit.
    - destruct (signal_emit E (trace a) hide_window_signal); inversion Hemit; reflexivity.
    - inversion Hemit; reflexivity. }
  subst d1.
  apply on_audio_capture_state in Hcap. destruct Hcap as (ac' & _ & ->).
  assert (Hd4 : Daemon.text_injector d4 = Daemon.text_injector d /\
                Transcriber.strip text = text).
  { destruct (8000 <? len audio)%Z.
    - apply on_transcriber_state in Htrans. destruct Htrans as (tr' & Ht & ->).
      split; [reflexivity|]. eapply transcribed_text_is_stripped. exact Ht.
    - unfold ret in Htrans. inversion Htrans; subst. split; reflexivity. }
  destruct Hd4 as [Hd4 Hstrip].
  destruct (stripped_words text Hstrip) as [_ Hnb]. rewrite Hnb in Hins.
  destruct (String.eqb_spec text "") as [-> | _]; [contradiction Hne; reflexivity|].
  cbn [negb] in Hins. unfold try_except in Hins.
  match type of Hins with context [match ?X with _ => _ end] =>
    destruct X as [[x|e] [dx ax]] eqn:Hb end.
  - exfalso. inv_bind Hb.
    apply on_text_injector_state in Hx. destruct Hx as (ti' & Hx & _).
    assert (Hnz : str_nonempty text = true)
      by (destruct text; [contradiction Hne; reflexivity | reflexivity]).
    destruct (insert_text_needs_clipboard _ _ _ _ _ Hnz Hx) as (h & Hcopy).
    exact (Hclip _ _ Hcopy).
  - cbn in Hins. unfold ret in Hins. inversion Hins; subst im d7 a7. cbn.
    split; [reflexivity|]. rewrite <- Hd4. unfold bind in Hb.
    match type of Hb with context [match ?X with _ => _ end] =>
      destruct X as [[m|e0] [dy ay]] eqn:Hon end;
      [ unfold ret in Hb; discriminate | ].
    inversion Hb; subst.
    apply on_text_injector_state in Hon. destruct Hon as (ti' & Hon & ->). cbn.
    eapply insert_text_raise_keeps_injector. exact Hon.
Qed.


End DaemonMore.

Section ServerMore.
Context {sample time : Type} (E : Env sample time).
Context (dumps_error : Daemon.result time -> option exn).

(** Every command handler returns a result; none raises. *)
Lemma command_handlers_return :
  forall (c : Daemon.command) (d : Daemon.t sample time) (a : Amb sample),
    c <> Daemon.stop_requested ->
    exists r w', Daemon.handle E c (d, a) = (Ok r, w').
Proof.
  intros c d a Hc. destruct c; cbn [Daemon.handle]; [ | | | | contradiction ].
  - destruct (start_outcome E d a) as (r & d' & a' & H & _). eauto.
  - destruct (Daemon.state d) eqn:Hst.
    + rewrite stop_rejected by congruence. eauto.
    + destruct (stop_from_recording E d a Hst) as (r & d' & a' & H & _). eauto.
    + rewrite stop_rejected by congruence. eauto.
  - destruct (status_keeps_daemon E d a) as (r & a' & H). eauto.
  - unfold Daemon._handle_shutdown_command, bind, self, external, ret. cbn.
    destruct (Daemon.state d) eqn:Hst; cbn; eauto.
    destruct (stop_from_recording E d a Hst) as (r & d' & a' & H & _).
    rewrite H. cbn. eauto.
Qed.

Lemma registered_handler :
  forall (srv0 : IPCServer.t (W sample (Daemon.t sample time)) (Daemon.result time))
         (c : Daemon.command) (name : string),
    command_name c = Some name ->
    IPCServer.command_handlers (Daemon.register_handlers E srv0) !! name =
      Some (Daemon.no_kwargs E (method_name c) (Daemon.handle E c)
            : IPCServer.handler (W sample (Daemon.t sample time)) (Daemon.result time)).
Proof.
  intros srv0 c name Hc.
  unfold Daemon.register_handlers, IPCServer.register_handler. cbn -[lookup insert].
  destruct c; cbn in Hc; inversion Hc; subst name; cbn [Daemon.handle].
  - rewrite !lookup_insert_ne by discriminate. apply lookup_insert_eq.
  - rewrite !lookup_insert_ne by discriminate. apply lookup_insert_eq.
  - rewrite !lookup_insert_ne by discriminate. apply lookup_insert_eq.
  - apply lookup_insert_eq.
Qed.

(** X14: a request that names one of the four commands of the daemon and
    carries no arguments is answered over the socket with status
    ["success"] and the result of the handler, whatever the handler
    decided: a refused [start] or [stop] is a transport success whose
    result says [success = False].  The connection is closed afterwards.
    (Assumes the results serialise and [sendall] works.) *)
Theorem daemon_commands_are_answered_with_success :
  forall (srv0 : IPCServer.t (W sample (Daemon.t sample time)) (Daemon.result time))
         (sk : IPCServer.socket (Daemon.result time))
         (d : Daemon.t sample time) (a : Amb sample)
         (text : string) (m : gmap string json) (c : Daemon.command) (name : string),
    command_name c = Some name ->
    receives E sk text ->
    json_loads E text = Ok (JObj m) ->
    m !! "command" = Some (JStr name) ->
    (m !! "args" = None \/ m !! "args" = Some (JObj ∅)) ->
    IPCServer.sendall_error sk = None ->
    (forall r, dumps_error r = None) ->
    exists r w',
      Daemon.handle E c (d, a) = (Ok r, w') /\
      IPCServer._handle_client E dumps_error (Daemon.register_handlers E srv0) (sk, (d, a)) =
        (Ok tt, (answered sk (IPCServer.success r), w')).
Proof.
  intros srv0 sk d a text m c name Hname (data & Hin & Hdec & Hne) Hj Hc Hargs Hsend Hdumps.
  assert (Hnot : c <> Daemon.stop_requested) by (intros ->; discriminate).
  destruct (command_handlers_return c d a Hnot) as (r & w' & Hrun).
  exists r, w'. split; [exact Hrun|].
  pose proof (registered_handler srv0 c name Hname) as Hreg.
  generalize dependent (Daemon.register_handlers E srv0). intros srv Hreg.
  destruct sk as [inb out serr cl]; cbn in Hin, Hsend; subst.
  run_client. rewrite Hdec. cbn -[lookup]. rewrite Hne. cbn -[lookup].
  rewrite Hj. cbn -[lookup]. rewrite Hc.
  assert (Hkw : match m !! "args" with Some v => v | None => JObj ∅ end = JObj ∅).
  { destruct Hargs as [-> | ->]; reflexivity. }
  rewrite Hkw. cbn -[lookup]. rewrite Hreg. cbn -[lookup].
  unfold Daemon.no_kwargs. destruct (decide (∅ = ∅)) as [_|Hx]; [ | contradiction Hx; reflexivity ].
  rewrite Hrun. cbn -[lookup]. rewrite Hdumps. reflexivity.
Qed.

(** X15: the server of the daemon knows ["start"], ["stop"], ["status"]
    and ["shutdown"] only.  A request that names any other command is
    answered with the error ["Unknown command: <name>"], and the daemon
    and the trace are untouched: in particular the wrapper
    [_handle_gui_stop_request] cannot be reached over the socket. *)
Theorem daemon_serves_four_commands_only :
  forall (path : string) (sk : IPCServer.socket (Daemon.result time))
         (d : Daemon.t sample time) (a : Amb sample)
         (text : string) (m : gmap string json) (name : string),
    receives E sk text ->
    json_loads E text = Ok (JObj m) ->
    m !! "command" = Some (JStr name) ->
    ~ In name ["start"; "stop"; "status"; "shutdown"] ->
    IPCServer.sendall_error sk = None ->
    IPCServer._handle_client E dumps_error
      (Daemon.register_handlers E (IPCServer.__init__ path)) (sk, (d, a)) =
      (Ok tt, (answered sk (IPCServer.error ("Unknown command: " ++ name)), (d, a))).
Proof.
  intros path sk d a text m name Hrecv Hj Hc Hnot Hsend.
  apply (unknown_command_is_named E dumps_error _ sk (d, a) text m name Hrecv Hj Hc);
    [ | exact Hsend ].
  unfold Daemon.register_handlers, IPCServer.register_handler, IPCServer.__init__.
  cbn -[lookup insert].
  rewrite !lookup_insert_ne; [ apply lookup_empty | | | | ];
    intros <-; apply Hnot; cbn; auto.
Qed.

End ServerMore.

Section ConfigProperties.
Import Config.

Lemma merged_value_dicts :
  forall base overlay,
    Config.merged_value (Some (Config.VDict base)) (Config.VDict overlay) =
    Config.VDict (Config._deep_merge base overlay).
Proof.
  intros base overlay. cbn. f_equal. unfold Config._deep_merge.
  revert base. induction overlay as [|[k v] rest IH]; intros base; cbn; [reflexivity|].
  apply IH.
Qed.


Lemma dict_get_set_eq :
  forall (d : dict) key v, dict_get (dict_set d key v) key = Some v.
Proof.
  induction d as [|[k x] rest IH]; intros key v; cbn.
  - rewrite String.eqb_refl. reflexivity.
  - destruct (String.eqb k key) eqn:Hk; cbn; rewrite Hk; [reflexivity | apply IH].
Qed.

Lemma dict_get_set_ne :
  forall (d : dict) key key' v,
    key <> key' -> dict_get (dict_set d key v) key' = dict_get d key'.
Proof.
  induction d as [|[k x] rest IH]; intros key key' v Hne; cbn.
  - destruct (String.eqb_spec key key'); [contradiction | reflexivity].
  - destruct (String.eqb_spec k key) as [-> | Hk]; cbn.
    + destruct (String.eqb_spec key key'); [contradiction | reflexivity].
    + destruct (String.eqb k key'); [reflexivity | apply IH; exact Hne].
Qed.

Lemma dict_set_same :
  forall (d : dict) key v, dict_get d key = Some v -> dict_set d key v = d.
Proof.
  induction d as [|[k x] rest IH]; intros key v H; cbn in *; [discriminate|].
  destruct (String.eqb k key); [inversion H; reflexivity | rewrite IH by exact H; reflexivity].
Qed.

Lemma deep_merge_cons :
  forall base key v rest,
    _deep_merge base ((key, v) :: rest) =
    _deep_merge (dict_set base key (merged_value (dict_get base key) v)) rest.
Proof. reflexivity. Qed.

Lemma distinct_keys_cons :
  forall k (v : value) rest,
    distinct_keys ((k, v) :: rest) = true ->
    dict_get rest k = None /\ distinct_keys rest = true.
Proof.
  intros k v rest H. unfold distinct_keys in H. cbn in H.
  apply andb_prop in H. destruct H as [H1 H2]. split; [ | exact H2 ].
  apply negb_true_iff in H1. clear H2.
  induction rest as [|[k' x] r IH]; cbn in *; [reflexivity|].
  apply orb_false_elim in H1. destruct H1 as [H1 H2].
  rewrite String.eqb_sym, H1. apply IH. exact H2.
Qed.

(** Looking a key up in a merge. *)
Lemma deep_merge_get :
  forall overlay base key,
    distinct_keys overlay = true ->
    dict_get (_deep_merge base overlay) key =
      match dict_get overlay key with
      | None => dict_get base key
      | Some v => Some (merged_value (dict_get base key) v)
      end.
Proof.
  induction overlay as [|[k v] rest IH]; intros base key Hd; [reflexivity|].
  destruct (distinct_keys_cons _ _ _ Hd) as [Hk Hrest].
  rewrite deep_merge_cons, IH by exact Hrest. cbn [dict_get].
  destruct (String.eqb_spec k key) as [-> | Hne].
  - rewrite Hk, dict_get_set_eq. reflexivity.
  - rewrite dict_get_set_ne by exact Hne. reflexivity.
Qed.

Lemma get_from_find :
  forall keys v default,
    get_from v keys default = match find v keys with Some x => x | None => default end.
Proof.
  induction keys as [|k rest IH]; intros v default; cbn; [reflexivity|].
  destruct v; try reflexivity.
  destruct (dict_get items k); [apply IH | reflexivity].
Qed.

Lemma well_formed_dict :
  forall items, well_formed (VDict items) = true ->
    distinct_keys items = true /\
    forall k x, dict_get items k = Some x -> well_formed x = true.
Proof.
  intros items H. cbn in H. apply andb_prop in H. destruct H as [Hd Hall].
  split; [exact Hd|]. clear Hd.
  induction items as [|[k0 x0] rest IH]; intros k x Hget; cbn in Hget; [discriminate|].
  apply andb_prop in Hall. destruct Hall as [H0 Hr].
  destruct (String.eqb k0 k); [inversion Hget; subst; exact H0 | eapply IH; eauto].
Qed.

(** What the overlay gives at a key path, the merge gives too. *)
Lemma find_overlay_in_merge :
  forall keys overlay base v,
    well_formed (VDict overlay) = true ->
    keys <> [] ->
    find (VDict overlay) keys = Some v ->
    is_dict v = false ->
    find (VDict (_deep_merge base overlay)) keys = Some v.
Proof.
  induction keys as [|k rest IH]; intros overlay base v Hwf Hne Hfind Hleaf;
    [contradiction Hne; reflexivity|].
  destruct (well_formed_dict _ Hwf) as [Hd Hsub].
  cbn in Hfind. cbn. rewrite deep_merge_get by exact Hd.
  destruct (dict_get overlay k) as [x|] eqn:Hx; [ | discriminate ].
  destruct rest as [|k2 rest2].
  - cbn in Hfind. inversion Hfind; subst x. cbn.
    destruct v; try reflexivity. discriminate.
  - destruct x; try discriminate.
    destruct (dict_get base k) as [[| | | | | |bitems]|] eqn:Hb;
      try (cbn [merged_value]; exact Hfind).
    rewrite merged_value_dicts.
    apply IH; [ eapply Hsub; exact Hx | discriminate | exact Hfind | exact Hleaf ].
Qed.

Lemma leaves_alone_not_found :
  forall keys v, leaves_alone v keys = true -> find v keys = None.
Proof.
  induction keys as [|k rest IH]; intros v H; cbn in H; [discriminate|].
  cbn. destruct v; try discriminate.
  destruct (dict_get items k); [ | reflexivity ].
  apply andb_prop in H. destruct H as [_ H]. apply IH. exact H.
Qed.

(** What the overlay leaves alone, the merge takes from the base. *)
Lemma find_base_in_merge :
  forall keys overlay base,
    well_formed (VDict overlay) = true ->
    leaves_alone (VDict overlay) keys = true ->
    find (VDict (_deep_merge base overlay)) keys = find (VDict base) keys.
Proof.
  induction keys as [|k rest IH]; intros overlay base Hwf Hla; cbn in Hla; [discriminate|].
  destruct (well_formed_dict _ Hwf) as [Hd Hsub].
  cbn. rewrite deep_merge_get by exact Hd.
  destruct (dict_get overlay k) as [x|] eqn:Hx; [ | reflexivity ].
  apply andb_prop in Hla. destruct Hla as [Hdict Hla].
  destruct x; try discriminate.
  assert (Hrest : rest <> []) by (destruct rest; [cbn in Hla; discriminate | discriminate]).
  destruct (dict_get base k) as [[| | | | | |bitems]|] eqn:Hb;
    try (cbn [merged_value]; rewrite (leaves_alone_not_found _ _ Hla);
         destruct rest; [contradiction Hrest; reflexivity|]; reflexivity).
  rewrite merged_value_dicts. apply IH; [ eapply Hsub; exact Hx | exact Hla ].
Qed.

(** X16: a setting of the user's file wins.  When a path of keys leads to
    a value that is not a dictionary in an overlay with distinct keys,
    [get] of that path on the merged configuration is that value, whatever
    the base holds there. *)
Theorem user_settings_override_defaults :
  forall (base overlay : dict) (keys : list string) (v default : value),
    well_formed (VDict overlay) = true ->
    keys <> [] ->
    find (VDict overlay) keys = Some v ->
    is_dict v = false ->
    get (_deep_merge base overlay) keys default = v.
Proof.
  intros base overlay keys v default Hwf Hne Hfind Hleaf.
  unfold get. rewrite get_from_find.
  rewrite (find_overlay_in_merge keys overlay base v Hwf Hne Hfind Hleaf). reflexivity.
Qed.

(** X17: a setting the user's file does not mention keeps its default.
    When the path leaves the overlay at a missing key, having met only
    dictionaries before, [get] of that path on the merged configuration is
    [get] of it on the base. *)
Theorem unmentioned_settings_keep_defaults :
  forall (base overlay : dict) (keys : list string) (default : value),
    well_formed (VDict overlay) = true ->
    leaves_alone (VDict overlay) keys = true ->
    get (_deep_merge base overlay) keys default = get base keys default.
Proof.
  intros base overlay keys default Hwf Hla.
  unfold get. rewrite !get_from_find.
  rewrite (find_base_in_merge keys overlay base Hwf Hla). reflexivity.
Qed.

Lemma value_nested_ind :
  forall (P : value -> Prop),
    P VNone -> (forall b, P (VBool b)) -> (forall z, P (VInt z)) ->
    (forall x, P (VFloat x)) -> (forall s, P (VStr s)) ->
    (forall l, Forall P l -> P (VList l)) ->
    (forall items, Forall (fun kv => P (snd kv)) items -> P (VDict items)) ->
    forall v, P v.
Proof.
  intros P HNone HBool HInt HFloat HStr HList HDict.
  fix IH 1. intros [ | b | z | x | s | l | items ].
  - exact HNone.
  - apply HBool.
  - apply HInt.
  - apply HFloat.
  - apply HStr.
  - apply HList. induction l as [|x r IHl]; constructor; [apply IH | exact IHl].
  - apply HDict. induction items as [|[k x] r IHl]; constructor; [apply IH | exact IHl].
Qed.

Lemma in_dict_get :
  forall (items : dict) k x,
    distinct_keys items = true -> In (k, x) items -> dict_get items k = Some x.
Proof.
  induction items as [|[k0 x0] rest IH]; intros k x Hd Hin; [contradiction|].
  destruct (distinct_keys_cons _ _ _ Hd) as [Hk Hrest].
  cbn. destruct Hin as [Heq | Hin].
  - inversion Heq; subst. rewrite String.eqb_refl. reflexivity.
  - destruct (String.eqb_spec k0 k) as [-> | Hne]; [ | apply IH; assumption ].
    rewrite (IH _ _ Hrest Hin) in Hk. discriminate.
Qed.

Lemma well_formed_in :
  forall (items : dict) k x,
    well_formed (VDict items) = true -> In (k, x) items -> well_formed x = true.
Proof.
  intros items k x Hwf Hin. destruct (well_formed_dict _ Hwf) as [Hd Hsub].
  eapply Hsub. apply in_dict_get; eassumption.
Qed.

(** An overlay whose every item is already in place changes nothing. *)
Lemma deep_merge_noop :
  forall (overlay result : dict),
    (forall k x, In (k, x) overlay ->
       exists c, dict_get result k = Some c /\ merged_value (Some c) x = c) ->
    _deep_merge result overlay = result.
Proof.
  induction overlay as [|[k x] rest IH]; intros result H; [reflexivity|].
  rewrite deep_merge_cons.
  destruct (H k x (or_introl eq_refl)) as (c & Hc & Hm).
  rewrite Hc, Hm, (dict_set_same _ _ _ Hc).
  apply IH. intros k' x' Hin. apply H. right. exact Hin.
Qed.

Lemma merged_value_self :
  forall v, well_formed v = true -> merged_value (Some v) v = v.
Proof.
  induction v as [ | | | | | | items IH ] using value_nested_ind; intros Hwf;
    try reflexivity.
  rewrite merged_value_dicts. f_equal.
  destruct (well_formed_dict _ Hwf) as [Hd _].
  apply deep_merge_noop. intros k x Hin. exists x.
  split; [apply in_dict_get; assumption|].
  rewrite List.Forall_forall in IH. apply (IH (k, x) Hin).
  eapply well_formed_in; eassumption.
Qed.

Lemma merged_value_twice :
  forall v old,
    well_formed v = true ->
    merged_value (Some (merged_value old v)) v = merged_value old v.
Proof.
  induction v as [ | | | | | | items IH ] using value_nested_ind; intros old Hwf;
    try reflexivity.
  destruct old as [[| | | | | |bitems]|];
    try (change (merged_value _ (VDict items)) with (VDict items) at 2 3;
         apply merged_value_self; exact Hwf);
    try (apply merged_value_self; exact Hwf).
  rewrite !merged_value_dicts. f_equal.
  destruct (well_formed_dict _ Hwf) as [Hd _].
  apply deep_merge_noop. intros k x Hin.
  exists (merged_value (dict_get bitems k) x). split.
  - rewrite deep_merge_get by exact Hd. rewrite (in_dict_get _ _ _ Hd Hin). reflexivity.
  - rewrite List.Forall_forall in IH. apply (IH (k, x) Hin).
    eapply well_formed_in; eassumption.
Qed.

(** X18: merging the same overlay a second time changes nothing, for an
    overlay whose dictionaries have distinct keys. *)
Theorem deep_merge_is_idempotent :
  forall (base overlay : dict),
    well_formed (VDict overlay) = true ->
    _deep_merge (_deep_merge base overlay) overlay = _deep_merge base overlay.
Proof.
  intros base overlay Hwf.
  pose proof (merged_value_twice (VDict overlay) (Some (VDict base)) Hwf) as H.
  rewrite !merged_value_dicts in H. injection H as H. exact H.
Qed.

Lemma deep_merge_contains :
  forall (overlay base : dict) key,
    dict_contains base key = true -> dict_contains (_deep_merge base overlay) key = true.
Proof.
  induction overlay as [|[k x] rest IH]; intros base key H; [exact H|].
  rewrite deep_merge_cons. apply IH. unfold dict_contains in *.
  destruct (String.eqb_spec k key) as [-> | Hne].
  - rewrite dict_get_set_eq. reflexivity.
  - rewrite dict_get_set_ne by exact Hne. exact H.
Qed.

(** X19: [_load_config] never raises and does not change the class
    attribute [DEFAULT_CONFIG]; it returns a configuration with every
    section the attribute has when it runs.  When the file exists and
    parses to a dictionary, the result is the attribute's value merged
    with it; when there is no path, no file, a parse error or a document
    that is not a dictionary, it is the attribute's value.  That value is
    the one at the time of the call: [Config.set] writes into the
    dictionaries a configuration shares with the attribute, so it need
    not be what the class statement wrote. *)
Theorem load_config_falls_back_to_defaults :
  forall (path_exists : string -> bool) (safe_load_file : string -> outcome value)
         (config_path : option string) (defaults : dict),
    exists config,
      _load_config path_exists safe_load_file config_path defaults =
        (Ok config, defaults) /\
      (forall section, dict_contains defaults section = true ->
                       dict_contains config section = true) /\
      (forall path overlay,
         config_path = Some path -> path_exists path = true ->
         safe_load_file path = Ok (VDict overlay) ->
         config = _deep_merge defaults overlay) /\
      ((forall path, config_path = Some path -> path_exists path = true ->
                     forall overlay, safe_load_file path <> Ok (VDict overlay)) ->
       config = defaults).
Proof.
  intros path_exists safe_load_file config_path defaults.
  unfold _load_config, gets. unfold bind at 1.
  destruct config_path as [path|].
  2:{ exists defaults. split; [reflexivity|]. split; [auto|].
      split; [intros; discriminate | reflexivity]. }
  destruct (path_exists path) eqn:Hex.
  2:{ exists defaults. split; [reflexivity|]. split; [auto|].
      split; [intros p o Hp; inversion Hp; subst; congruence | reflexivity]. }
  unfold try_except, bind, merge_document, ret, raise.
  destruct (safe_load_file path) as [doc|e] eqn:Hload; cbn.
  2:{ exists defaults. split; [reflexivity|]. split; [auto|].
      split; [intros p o Hp; inversion Hp; subst; congruence | reflexivity]. }
  destruct doc as [ | b | z | x | s | l | items ]; cbn [truthy];
    try (exists defaults;
         repeat match goal with |- context [if ?c then _ else _] => destruct c end;
         cbn; (split; [reflexivity|]); (split; [auto|]);
         (split; [intros p o Hp; inversion Hp; subst; congruence | reflexivity])).
  exists (_deep_merge defaults items).
  destruct items as [|kv rest]; cbn [truthy].
  - split; [reflexivity|]. split; [auto|].
    split; [ intros p o Hp _ Ho; inversion Hp; subst; rewrite Hload in Ho;
             inversion Ho; reflexivity
           | reflexivity ].
  - split; [reflexivity|].
    split; [intros section Hs; apply deep_merge_contains; exact Hs|].
    split; [ intros p o Hp _ Ho; inversion Hp; subst; rewrite Hload in Ho;
             inversion Ho; reflexivity | ].
    intros H. exfalso. exact (H path eq_refl Hex _ Hload).
Qed.

Lemma set_from_fresh :
  forall init last v,
    exists d', set_from (VDict []) init last v = (Returned, VDict d') /\
               find (VDict d') (init ++ [last]) = Some v /\
               forall keys', apart (init ++ [last]) keys' = true ->
                             find (VDict d') keys' = None.
Proof.
  induction init as [|key rest IH]; intros last v.
  - exists [(last, v)]. split; [reflexivity|]. cbn -[String.eqb]. rewrite String.eqb_refl.
    split; [reflexivity|]. intros [|k' r']; [discriminate|]. cbn -[String.eqb].
    destruct (String.eqb last k'); [ destruct r'; discriminate | reflexivity ].
  - destruct (IH last v) as (d' & Hset & Hfind & Hframe).
    cbn -[String.eqb]. rewrite String.eqb_refl. rewrite Hset. cbn -[String.eqb].
    eexists. split; [reflexivity|]. cbn -[String.eqb]. rewrite String.eqb_refl.
    split; [exact Hfind|]. intros [|k' r']; [discriminate|]. cbn -[String.eqb].
    destruct (String.eqb key k'); [ apply Hframe | reflexivity ].
Qed.

Lemma set_from_returned :
  forall init config last v config',
    set_from config init last v = (Returned, config') ->
    find config' (init ++ [last]) = Some v /\
    forall keys', apart (init ++ [last]) keys' = true -> find config' keys' = find config keys'.
Proof.
  induction init as [|key rest IH]; intros config last v config' H;
    destruct config as [ | | | | | | d ]; try discriminate; cbn in H.
  - inversion H; subst config'. cbn. rewrite dict_get_set_eq. split; [reflexivity|].
    intros [|k' r']; [discriminate|]. cbn.
    destruct (String.eqb_spec last k') as [-> | Hne]; [discriminate|].
    intros _. rewrite dict_get_set_ne by exact Hne. reflexivity.
  - unfold dict_contains in H.
    destruct (dict_get d key) as [child|] eqn:Hchild.
    + rewrite Hchild in H.
      destruct (set_from child rest last v) as [r child'] eqn:Hrec.
      inversion H; subst r config'. destruct (IH _ _ _ _ Hrec) as [Hfind Hframe].
      cbn. rewrite dict_get_set_eq. split; [exact Hfind|].
      intros [|k' r']; [discriminate|]. cbn.
      destruct (String.eqb_spec key k') as [-> | Hne].
      * rewrite dict_get_set_eq, Hchild. apply Hframe.
      * intros _. rewrite dict_get_set_ne by exact Hne. reflexivity.
    + rewrite dict_get_set_eq in H.
      destruct (set_from_fresh rest last v) as (d' & Hset & Hfind & Hframe).
      rewrite Hset in H. inversion H; subst config'.
      cbn. rewrite dict_get_set_eq. split; [exact Hfind|].
      intros [|k' r']; [discriminate|]. cbn.
      destruct (String.eqb_spec key k') as [-> | Hne].
      * rewrite dict_get_set_eq, Hchild. apply Hframe.
      * intros _. rewrite !dict_get_set_ne by exact Hne. reflexivity.
Qed.

Lemma set_from_raised :
  forall init config last v r config',
    set_from config init last v = (r, config') -> r <> Returned -> config' = config.
Proof.
  induction init as [|key rest IH]; intros config last v r config' H Hr;
    destruct config as [ | | | | | | d ]; cbn in H; try (inversion H; reflexivity).
  - inversion H; subst. contradiction Hr; reflexivity.
  - unfold dict_contains in H.
    destruct (dict_get d key) as [child|] eqn:Hchild.
    + rewrite Hchild in H.
      destruct (set_from child rest last v) as [r0 child'] eqn:Hrec.
      inversion H; subst r0 config'.
      rewrite (IH _ _ _ _ _ Hrec Hr), (dict_set_same _ _ _ Hchild). reflexivity.
    + rewrite dict_get_set_eq in H.
      destruct (set_from_fresh rest last v) as (d' & Hset & _).
      rewrite Hset in H. inversion H; subst. contradiction Hr; reflexivity.
Qed.

Lemma set_from_dict :
  forall init d last v, exists d', snd (set_from (VDict d) init last v) = VDict d'.
Proof.
  intros [|key rest] d last v; cbn; [eauto|].
  destruct (dict_get _ key); [ | eauto ].
  destruct (set_from v0 rest last v). cbn. eauto.
Qed.

(** X20: [set] followed by [get] of the same keys gives the value set, and
    [get] of keys that part from them at some position gives what it
    gave before.  A [set] that raises leaves the configuration as it was;
    it raises [IndexError] exactly when no key is given.  (The
    configuration is taken as a tree: no two paths reach the same
    dictionary object, as YAML aliases would make them.) *)
Theorem set_then_get :
  forall (config config' : dict) (keys : list string) (v : value) (r : ending),
    set config keys v = (r, config') ->
    (r = Returned ->
     forall default,
       get config' keys default = v /\
       forall keys', apart keys keys' = true ->
                     get config' keys' default = get config keys' default) /\
    (r <> Returned -> config' = config) /\
    (r = RaisedIndexError <-> keys = []).
Proof.
  intros config config' keys v r H. unfold set in H.
  destruct keys as [|k0 ks] eqn:Hkeys.
  { inversion H; subst. split; [discriminate|]. split; [reflexivity|]. split; reflexivity. }
  rewrite <- Hkeys in *.
  assert (Hne : keys <> []) by (rewrite Hkeys; discriminate).
  pose proof (app_removelast_last "" Hne) as Hsplit.
  destruct (set_from (VDict config) (removelast keys) (List.last keys "") v)
    as [r0 c'] eqn:Hset.
  destruct (set_from_dict (removelast keys) config (List.last keys "") v) as (d' & Hd').
  rewrite Hset in Hd'. cbn in Hd'. subst c'. inversion H; subst r0 d'. clear H.
  split; [ | split ].
  - intros -> default. destruct (set_from_returned _ _ _ _ _ Hset) as [Hfind Hframe].
    rewrite <- Hsplit in Hfind, Hframe. unfold get. rewrite !get_from_find, Hfind.
    split; [reflexivity|]. intros keys' Hap. rewrite !get_from_find, (Hframe keys' Hap).
    reflexivity.
  - intros Hr. pose proof (set_from_raised _ _ _ _ _ _ Hset Hr) as Heq.
    inversion Heq. reflexivity.
  - split; [ | intros ->; discriminate ].
    intros ->. exfalso.
    assert (Hcase : forall init c l x, fst (set_from c init l x) <> RaisedIndexError).
    { induction init as [|key rest IH]; intros c l x; destruct c; cbn; try discriminate.
      destruct (dict_get _ key); [ | discriminate ].
      specialize (IH v0 l x). destruct (set_from v0 rest l x). cbn in *. exact IH. }
    apply (Hcase (removelast keys) (VDict config) (List.last keys "") v).
    rewrite Hset. reflexivity.
Qed.

End ConfigProperties.

Section LevelMonitorProperties.
Context {sample : Type} (peak : list sample -> sample).
Import AudioLevelMonitor.

Lemma py_slice_inside :
  forall (l : list sample) (a b : Z),
    (0 <= a <= b)%Z -> (b <= len l)%Z ->
    py_slice l a b = firstn (Z.to_nat (b - a)) (skipn (Z.to_nat a) l).
Proof.
  intros l a b Hab Hb. unfold py_slice, clip_index.
  destruct (b <? 0)%Z eqn:Hb0; [apply Z.ltb_lt in Hb0; lia|].
  destruct (a <? 0)%Z eqn:Ha0; [apply Z.ltb_lt in Ha0; lia|].
  rewrite !Z.min_l by lia. f_equal. lia.
Qed.

(** The loop over indices that all have a full window. *)
Lemma downsample_full_windows :
  forall (audio : list sample) (w : nat) (indices : list nat),
    (1 <= w)%nat ->
    (forall i, In i indices -> (i * w + w <= length audio)%nat) ->
    downsample peak audio (Z.of_nat w) (map Z.of_nat indices) =
      Returned (map (fun i => peak (firstn w (skipn (i * w) audio))) indices).
Proof.
  intros audio w indices Hw. induction indices as [|i rest IH]; intros Hin; [reflexivity|].
  cbn [map downsample].
  assert (Hi : (i * w + w <= length audio)%nat) by (apply Hin; left; reflexivity).
  rewrite py_slice_inside by (unfold len; lia).
  replace (Z.to_nat (Z.of_nat i * Z.of_nat w + Z.of_nat w - Z.of_nat i * Z.of_nat w)) with w by lia.
  replace (Z.to_nat (Z.of_nat i * Z.of_nat w)) with (i * w)%nat by lia.
  rewrite IH by (intros j Hj; apply Hin; right; exact Hj).
  destruct (firstn w (skipn (i * w) audio)) as [|x window] eqn:Hwin; [ | reflexivity ].
  exfalso. apply (f_equal (@length sample)) in Hwin.
  rewrite length_firstn, length_skipn in Hwin. cbn in Hwin. lia.
Qed.

Lemma window_in_prefix :
  forall (l : list sample) (i w p : nat),
    (i * w + w <= p)%nat ->
    firstn w (skipn (i * w) (firstn p l)) = firstn w (skipn (i * w) l).
Proof.
  intros l i w p H. rewrite skipn_firstn_comm, firstn_firstn. f_equal. lia.
Qed.

Lemma normalize_windows :
  forall (audio : list sample) (target : Z),
    (0 < target < len audio)%Z ->
    let w := Z.to_nat (len audio / target) in
    (1 <= w)%nat /\
    (Z.to_nat target * w <= length audio)%nat /\
    normalize_for_visualization peak audio target =
      Returned (map (fun i => peak (firstn w (skipn (i * w) audio)))
                    (seq 0 (Z.to_nat target))).
Proof.
  intros audio target [Hpos Hlt] w.
  assert (Hq : (1 <= len audio / target)%Z).
  { apply Z.div_le_lower_bound; lia. }
  assert (Hm : (target * (len audio / target) <= len audio)%Z).
  { apply Z.mul_div_le. lia. }
  assert (Hw : (1 <= w)%nat) by (subst w; lia).
  assert (Htw : (Z.to_nat target * w <= length audio)%nat).
  { subst w. unfold len in *. nia. }
  split; [exact Hw|]. split; [exact Htw|].
  unfold normalize_for_visualization.
  destruct (len audio <=? target)%Z eqn:Hle; [apply Z.leb_le in Hle; lia|].
  destruct (target =? 0)%Z eqn:Hz; [apply Z.eqb_eq in Hz; lia|].
  cbn zeta. unfold range.
  replace (len audio / target)%Z with (Z.of_nat w) by (subst w; lia).
  apply downsample_full_windows; [exact Hw|].
  intros i Hi. apply in_seq in Hi.
  assert ((i + 1) * w <= Z.to_nat target * w)%nat by (apply Nat.mul_le_mono_r; lia).
  lia.
Qed.

(** X21: [normalize_for_visualization] returns a block of at most
    [target_samples] samples unchanged, raises [ZeroDivisionError] for a
    target of 0 and a non-empty block, and returns nothing for a negative
    target.  Otherwise it returns [target_samples] peaks of consecutive
    windows of [len // target_samples] samples: the samples after the
    last window do not reach the result. *)
Theorem normalize_for_visualization_cases :
  forall (audio : list sample) (target : Z),
    ((len audio <= target)%Z ->
     normalize_for_visualization peak audio target = Returned audio) /\
    (target = 0%Z -> audio <> [] ->
     normalize_for_visualization peak audio target = RaisedZeroDivisionError) /\
    ((target < 0)%Z ->
     normalize_for_visualization peak audio target = Returned []) /\
    ((0 < target < len audio)%Z ->
     let w := Z.to_nat (len audio / target) in
     (1 <= w)%nat /\
     normalize_for_visualization peak audio target =
       Returned (map (fun i => peak (firstn w (skipn (i * w) audio)))
                     (seq 0 (Z.to_nat target))) /\
     forall audio',
       length audio' = length audio ->
       firstn (Z.to_nat target * w) audio' = firstn (Z.to_nat target * w) audio ->
       normalize_for_visualization peak audio' target =
       normalize_for_visualization peak audio target).
Proof.
  intros audio target. split; [ | split; [ | split ] ].
  - intros H. unfold normalize_for_visualization.
    apply Z.leb_le in H. rewrite H. reflexivity.
  - intros -> Hne. unfold normalize_for_visualization.
    destruct (len audio <=? 0)%Z eqn:Hle; [ | reflexivity ].
    apply Z.leb_le in Hle. destruct audio; [contradiction Hne; reflexivity|].
    unfold len in Hle. cbn in Hle. lia.
  - intros Hneg. unfold normalize_for_visualization.
    destruct (len audio <=? target)%Z eqn:Hle; [apply Z.leb_le in Hle; unfold len in Hle; lia|].
    destruct (target =? 0)%Z eqn:Hz; [apply Z.eqb_eq in Hz; lia|].
    cbn zeta. unfold range. destruct target; try lia. reflexivity.
  - intros H w. destruct (normalize_windows audio target H) as (Hw & Htw & Heq).
    fold w in Hw, Htw, Heq. split; [exact Hw|]. split; [exact Heq|].
    intros audio' Hlen Hpre.
    assert (H' : (0 < target < len audio')%Z) by (unfold len in *; rewrite Hlen; exact H).
    destruct (normalize_windows audio' target H') as (_ & _ & Heq').
    unfold len in Heq'. rewrite Hlen in Heq'. fold (len audio) in Heq'. fold w in Heq'.
    rewrite Heq, Heq'. f_equal. apply map_ext_in. intros i Hi. apply in_seq in Hi.
    assert (Hiw : (i * w + w <= Z.to_nat target * w)%nat).
    { assert ((i + 1) * w <= Z.to_nat target * w)%nat by (apply Nat.mul_le_mono_r; lia). lia. }
    rewrite <- (window_in_prefix audio' i w _ Hiw), <- (window_in_prefix audio i w _ Hiw).
    rewrite Hpre. reflexivity.
Qed.

End LevelMonitorProperties.

Section StatusProperties.
Context {sample time : Type} (E : Env sample time).

Lemma insert_text_keeps_ydotool :
  forall (text : string) (inj inj' : TextInjector.t) (a a' : Amb sample) r,
    TextInjector.insert_text E text (inj, a) = (r, (inj', a')) ->
    TextInjector._ydotool_available inj' = TextInjector._ydotool_available inj /\
    TextInjector.preferred_method inj' = TextInjector.preferred_method inj.
Proof.
  intros text inj inj' a a' r. unfold TextInjector.insert_text.
  destruct (str_nonempty text); cbn.
  - unfold bind, self. cbn. intros H. destruct r as [m|e].
    + apply insert_loop_first_success in H.
      destruct H as (pre & post & [i1 b1] & [i2 b2] & _ & Hfail & Hatt & Hw).
      apply failed_attempts_same_injector in Hfail. cbn in Hfail. subst i1.
      pose proof (attempt_keeps_fields E m text inj b1) as Hk. rewrite Hatt in Hk.
      cbn in Hk. subst i2. inversion Hw; subst. split; reflexivity.
    + apply insert_loop_exhausted in H. destruct H as [Hfail _].
      apply failed_attempts_same_injector in Hfail. cbn in Hfail. subst inj'.
      split; reflexivity.
  - unfold ret. intros H. inversion H; subst. split; reflexivity.
Qed.

(** X22: the method [insert_text] returns is one [get_status] lists as
    available afterwards.  The list is ["clipboard"] alone without
    [ydotool] and all three methods with it, [insert_text] does not change
    it, and for a non-empty text the status names the method as the last
    one used. *)
Theorem returned_method_is_listed_as_available :
  forall (text : string) (inj inj' : TextInjector.t) (a a' : Amb sample)
         (m : TextInjector.InsertionMethod),
    TextInjector.insert_text E text (inj, a) = (Ok m, (inj', a')) ->
    exists st,
      TextInjectorStatus.get_status (inj', a') = (Ok st, (inj', a')) /\
      In (TextInjector.value m) (TextInjectorStatus.available_methods st) /\
      TextInjectorStatus.available_methods st =
        (if TextInjector._ydotool_available inj
         then ["direct"; "auto_paste"; "clipboard"] else ["clipboard"]) /\
      TextInjectorStatus.ydotool_available st = TextInjector._ydotool_available inj /\
      (str_nonempty text = true ->
       TextInjectorStatus.last_method_used st = Some (TextInjector.value m)).
Proof.
  intros text inj inj' a a' m H.
  destruct (insert_text_keeps_ydotool _ _ _ _ _ _ H) as [Hy _].
  eexists. split; [reflexivity|]. cbn. rewrite Hy.
  assert (Hm : TextInjector._ydotool_available inj = false -> m = TextInjector.CLIPBOARD).
  { intros Hno. destruct (insert_text_without_ydotool_aux E text inj a Hno) as (new & _ & _ & _ & Hc).
    apply Hc. rewrite H. reflexivity. }
  split; [ | split; [ | split ] ].
  - destruct (TextInjector._ydotool_available inj); cbn.
    + destruct m; cbn; auto.
    + rewrite (Hm eq_refl). cbn. auto.
  - destruct (TextInjector._ydotool_available inj); reflexivity.
  - reflexivity.
  - intros Hne. unfold TextInjector.insert_text in H. rewrite Hne in H. cbn in H.
    unfold bind, self in H. cbn in H. apply insert_loop_first_success in H.
    destruct H as (pre & post & w1 & w2 & _ & _ & _ & Hw). inversion Hw; subst.
    reflexivity.
Qed.

End StatusProperties.

Section CallbackProperties.
Context {sample time : Type} (E : Env sample time).

(** The callback reads the daemon and leaves it as it is; it never
    raises. *)
Lemma on_waveform_data_effect :
  forall (audio_data : list (bufitem sample)) (d : Daemon.t sample time) (a : Amb sample),
    DaemonCallbacks._on_waveform_data E audio_data (d, a) =
      (Ok tt,
       (d, if Daemon.gui_window d
           then mk_amb (EvSignalEmit (update_waveform_signal audio_data) :: trace a)
                  (clock_reads a)
           else a)).
Proof.
  intros audio_data d a.
  unfold DaemonCallbacks._on_waveform_data, bind, self, try_except, emit, external, ret.
  cbn. destruct (Daemon.gui_window d); cbn; [ | reflexivity ].
  destruct (signal_emit E (trace a) (update_waveform_signal audio_data)) as [[]|e];
    reflexivity.
Qed.

Lemma waveform_driver :
  forall (d : Daemon.t sample time) (blocks : list (list (sample * list sample)))
         (ac : AudioCapture.t sample time) (a : Amb sample),
    AudioCapture.recording ac = true ->
    AudioCapture.waveform_callback ac =
      Some (fun audio_data =>
              DaemonCallbacks.bound d (DaemonCallbacks._on_waveform_data E audio_data)) ->
    let data := map (AudioCapture.audio_data_of (AudioCapture.channels ac)) blocks in
    let w' := audio_driver blocks (ac, a) in
    fst w' = AudioCapture.set_audio_buffer
               (AudioCapture.audio_buffer ac ++ concat data)%list ac /\
    trace (snd w') =
      ((if Daemon.gui_window d
        then rev (map (fun x => EvSignalEmit (update_waveform_signal x)) data)
        else []) ++ trace a)%list.
Proof.
  intros d blocks. induction blocks as [|b rest IH]; intros ac a Hrec Hcb; cbn zeta.
  - cbn. rewrite app_nil_r. split; [destruct ac; reflexivity|].
    destruct (Daemon.gui_window d); reflexivity.
  - cbn [audio_driver].
    assert (Hstep : AudioCapture._audio_callback b (ac, a) =
              (Ok tt,
               (AudioCapture.set_audio_buffer
                  (AudioCapture.audio_buffer ac
                   ++ AudioCapture.audio_data_of (AudioCapture.channels ac) b)%list ac,
                if Daemon.gui_window d
                then mk_amb (EvSignalEmit (update_waveform_signal
                               (AudioCapture.audio_data_of (AudioCapture.channels ac) b))
                             :: trace a) (clock_reads a)
                else a))).
    { unfold AudioCapture._audio_callback, bind, self, update, ret. cbn.
      rewrite Hrec. cbn. rewrite Hcb. cbn.
      unfold try_except, AudioCapture.call_callback, DaemonCallbacks.bound.
      rewrite on_waveform_data_effect. reflexivity. }
    rewrite Hstep. cbn [snd].
    match goal with |- context [audio_driver rest (?x, ?y)] =>
      destruct (IH x y) as [IH1 IH2]; [cbn; exact Hrec | cbn; exact Hcb | ] end.
    cbn zeta in IH1, IH2. cbn [AudioCapture.channels AudioCapture.set_audio_buffer
                               AudioCapture.audio_buffer] in IH1, IH2.
    split.
    + rewrite IH1. cbn. rewrite <- app_assoc. reflexivity.
    + rewrite IH2. cbn [map rev].
      destruct (Daemon.gui_window d); cbn; [ | reflexivity ].
      rewrite <- app_assoc. reflexivity.
Qed.

(** X23: with [_on_waveform_data] connected as the waveform callback, a
    recording engine appends every block the driver delivers to the
    buffer, and the daemon with a window emits one waveform signal per
    block, in the order of the blocks and with the audio of the block,
    whether or not the signals can be delivered.  Without a window nothing
    is emitted. *)
Theorem waveform_signals_follow_the_audio :
  forall (d : Daemon.t sample time) (a : Amb sample)
         (blocks : list (list (sample * list sample))),
    let ac := Daemon.audio_capture (DaemonCallbacks.connect_waveform E d) in
    AudioCapture.recording (Daemon.audio_capture d) = true ->
    let data := map (AudioCapture.audio_data_of (AudioCapture.channels ac)) blocks in
    let w' := audio_driver blocks (ac, a) in
    AudioCapture.audio_buffer (fst w') =
      (AudioCapture.audio_buffer (Daemon.audio_capture d) ++ concat data)%list /\
    trace (snd w') =
      ((if Daemon.gui_window d
        then rev (map (fun x => EvSignalEmit (update_waveform_signal x)) data)
        else []) ++ trace a)%list.
Proof.
  intros d a blocks ac Hrec data w'.
  destruct (waveform_driver d blocks ac a) as [H1 H2]; [exact Hrec | reflexivity | ].
  split; [ | exact H2 ]. subst w'. rewrite H1. reflexivity.
Qed.

End CallbackProperties.

Section StreamingProperties.
Context {sample : Type} (H : StreamingTranscriber.Host sample).
Import StreamingTranscriber.

Lemma holds_ret : forall {A} (P : t sample -> Prop) (x : A), holds P (ret x).
Proof. intros A P x o a Ho. exact Ho. Qed.

Lemma holds_raise : forall {A} (P : t sample -> Prop) (e : exn), holds (A := A) P (raise e).
Proof. intros A P e o a Ho. exact Ho. Qed.

Lemma holds_this : forall {A} (P : t sample -> Prop) (f : t sample -> A), holds P (this f).
Proof. intros A P f o a Ho. exact Ho. Qed.

Lemma holds_now : forall (P : t sample -> Prop), holds P (now H).
Proof. intros P o a Ho. exact Ho. Qed.

Lemma holds_call :
  forall {A} (P : t sample -> Prop) ev (answer : list (HostEvent sample) -> outcome A),
    holds P (call ev answer).
Proof. intros A P ev answer o a Ho. exact Ho. Qed.

Lemma holds_assign :
  forall (P : t sample -> Prop) (f : t sample -> t sample),
    (forall o, P o -> P (f o)) -> holds P (assign f).
Proof. intros P f Hf o a Ho. apply Hf. exact Ho. Qed.

Lemma holds_bind :
  forall {A B} (P : t sample -> Prop) (m : M (t sample * HAmb sample) A)
         (k : A -> M (t sample * HAmb sample) B),
    holds P m -> (forall x, holds P (k x)) -> holds P (bind m k).
Proof.
  intros A B P m k Hm Hk o a Ho. unfold bind.
  specialize (Hm o a Ho). destruct (m (o, a)) as [[x|e] [o1 a1]]; cbn in *.
  - apply Hk. exact Hm.
  - exact Hm.
Qed.

Lemma holds_try_except :
  forall {A} (P : t sample -> Prop) (m : M (t sample * HAmb sample) A) c h,
    holds P m -> (forall e, holds P (h e)) -> holds P (try_except m c h).
Proof.
  intros A P m c h Hm Hh o a Ho. unfold try_except.
  specialize (Hm o a Ho). destruct (m (o, a)) as [[x|e] [o1 a1]]; cbn in *.
  - exact Hm.
  - destruct (exn_isinstance e c); [apply Hh; exact Hm | exact Hm].
Qed.

Lemma holds_if :
  forall {A} (P : t sample -> Prop) (b : bool) (m1 m2 : M (t sample * HAmb sample) A),
    holds P m1 -> holds P m2 -> holds P (if b then m1 else m2).
Proof. intros A P b m1 m2 H1 H2. destruct b; assumption. Qed.

(** Two assignments in a row count as one step. *)
Lemma holds_assign_twice :
  forall {B} (P : t sample -> Prop) (f g : t sample -> t sample)
         (k : M (t sample * HAmb sample) B),
    (forall o, P o -> P (g (f o))) -> holds P k ->
    holds P (assign f ;;; assign g ;;; k).
Proof.
  intros B P f g k Hfg Hk o a Ho. unfold bind, assign. cbn.
  apply Hk. apply Hfg. exact Ho.
Qed.

Ltac holds_auto :=
  repeat first
    [ apply holds_ret | apply holds_raise | apply holds_this | apply holds_now
    | apply holds_call
    | apply holds_assign; intros ? ?; assumption
    | apply holds_bind; [ | intros ? ]
    | apply holds_try_except; [ | intros ? ]
    | apply holds_if ].

(** ** [_transcribe_audio] and one pass of the thread *)

Lemma transcribe_audio_holds :
  forall (P : t sample -> Prop) audio_data,
    (forall x o, P o -> P (set_total_audio_duration x o)) ->
    (forall x o, P o -> P (set_total_processing_time x o)) ->
    holds P (_transcribe_audio H audio_data).
Proof.
  intros P audio_data H1 H2. unfold _transcribe_audio.
  holds_auto.
  - apply holds_assign. intros o Ho. apply H1. exact Ho.
  - apply holds_assign. intros o Ho. apply H2. exact Ho.
Qed.

Lemma strip_nonempty_entry :
  forall text, strip_nonempty text = true -> stripped_entry (Transcriber.strip text).
Proof.
  intros text Ht. split; [|apply strip_fixed].
  unfold strip_nonempty in Ht. unfold Transcriber.strip.
  pose proof (lstrip_head text) as Hw.
  destruct (lstrip text) as [|c r]; [discriminate|].
  destruct (rstrip_head c r Hw) as [-> _]. discriminate.
Qed.

Lemma settled_append :
  forall text (o : t sample),
    strip_nonempty text = true -> settled o ->
    settled (set_transcriptions_count (transcriptions_count o + 1)
               (set_current_transcription
                  (current_transcription o ++ [Transcriber.strip text]) o)).
Proof.
  intros text o Ht (H1 & H2 & H3 & H4 & H5).
  repeat split; cbn; try tauto.
  - apply Forall_app. split; [exact H4|].
    constructor; [apply strip_nonempty_entry; exact Ht | constructor].
  - unfold len in *. rewrite length_app. cbn. lia.
Qed.

Lemma chunk_holds :
  forall (P : t sample -> Prop) audio_data,
    (forall x o, P o -> P (set_total_audio_duration x o)) ->
    (forall x o, P o -> P (set_total_processing_time x o)) ->
    (forall text o, strip_nonempty text = true -> P o ->
       P (set_transcriptions_count (transcriptions_count o + 1)
            (set_current_transcription
               (current_transcription o ++ [Transcriber.strip text]) o))) ->
    holds P (_process_queue_chunk H audio_data).
Proof.
  intros P audio_data H1 H2 H3. unfold _process_queue_chunk.
  apply holds_try_except; [|intros e; apply holds_ret].
  apply holds_bind; [apply transcribe_audio_holds; assumption|]. intros text.
  destruct (str_nonempty text && strip_nonempty text) eqn:Hc; [|apply holds_ret].
  apply andb_true_iff in Hc. destruct Hc as [_ Hc].
  apply holds_assign_twice.
  - intros o Ho. apply (H3 text o Hc Ho).
  - apply holds_bind; [apply holds_this|]. intros [f|]; holds_auto.
Qed.

(** A chunk leaves alone whatever does not look at the transcript and the
    statistics. *)
Lemma chunk_keeps_field :
  forall {A} (f : t sample -> A) (v : A) audio_data,
    (forall x o, f (set_total_audio_duration x o) = f o) ->
    (forall x o, f (set_total_processing_time x o) = f o) ->
    (forall x o, f (set_transcriptions_count x o) = f o) ->
    (forall x o, f (set_current_transcription x o) = f o) ->
    holds (fun s => f s = v) (_process_queue_chunk H audio_data).
Proof.
  intros A f v audio_data H1 H2 H3 H4. apply chunk_holds.
  - intros x o Ho. rewrite H1. exact Ho.
  - intros x o Ho. rewrite H2. exact Ho.
  - intros text o _ Ho. rewrite H3, H4. exact Ho.
Qed.

Lemma chunk_returns :
  forall audio_data w, fst (_process_queue_chunk H audio_data w) = Ok tt.
Proof.
  intros audio_data w. unfold _process_queue_chunk, try_except.
  destruct (bind _ _ w) as [[[]|e] w']; reflexivity.
Qed.

Lemma pass_nil :
  forall o a, transcription_queue o = [] -> _process_queue_pass H (o, a) = (Ok tt, (o, a)).
Proof.
  intros o a Hq. unfold _process_queue_pass, try_except, bind, this. rewrite Hq.
  reflexivity.
Qed.

Lemma pass_cons :
  forall o a audio_data timestamp rest,
    transcription_queue o = (audio_data, timestamp) :: rest ->
    _process_queue_pass H (o, a) =
    _process_queue_chunk H audio_data (set_transcription_queue rest o, a).
Proof.
  intros o a audio_data timestamp rest Hq.
  unfold _process_queue_pass, try_except, bind at 1, this. rewrite Hq.
  unfold bind, assign.
  pose proof (chunk_returns audio_data (set_transcription_queue rest o, a)) as Hr.
  destruct (_process_queue_chunk H audio_data (set_transcription_queue rest o, a))
    as [[[]|e] w']; [reflexivity | discriminate].
Qed.

Lemma pass_returns :
  forall w, fst (_process_queue_pass H w) = Ok tt.
Proof.
  intros [o a]. destruct (transcription_queue o) as [|[audio_data timestamp] rest] eqn:Hq.
  - rewrite pass_nil by exact Hq. reflexivity.
  - rewrite (pass_cons _ _ _ _ _ Hq). apply chunk_returns.
Qed.

Lemma process_queue_step :
  forall n o a,
    _process_queue H (S n) (o, a) =
    if running o || match transcription_queue o with [] => false | _ => true end
    then _process_queue H n (snd (_process_queue_pass H (o, a)))
    else (Ok tt, (set_processing_thread (Some (AudioCapture.mk_thread false)) o, a)).
Proof.
  intros n o a. cbn [_process_queue]. unfold bind, this.
  destruct (running o || match transcription_queue o with [] => false | _ => true end);
    [|reflexivity].
  pose proof (pass_returns (o, a)) as Hp.
  destruct (_process_queue_pass H (o, a)) as [[[]|e] w']; [reflexivity | discriminate].
Qed.

Lemma process_queue_returns :
  forall n w, fst (_process_queue H n w) = Ok tt.
Proof.
  induction n as [|n IH]; intros [o a]; [reflexivity|].
  rewrite process_queue_step.
  destruct (running o || match transcription_queue o with [] => false | _ => true end);
    [apply IH | reflexivity].
Qed.

(** With a model, a chunk is handed to it once. *)
Lemma chunk_log :
  forall audio_data o a,
    model o = true ->
    exists new,
      hlog (snd (snd (_process_queue_chunk H audio_data (o, a)))) = (new ++ hlog a)%list /\
      omap transcribed_audio new = [audio_data].
Proof.
  intros audio_data o a Hm.
  unfold _process_queue_chunk, _transcribe_audio, try_except, bind, this, now, call,
    assign, ret.
  rewrite Hm. cbn.
  destruct (model_transcribe H (hlog a) audio_data (language o) _) as [parts|e]; cbn.
  - destruct (str_nonempty _ && strip_nonempty _); cbn.
    + destruct (transcription_callback o) as [f|]; cbn.
      * destruct (f _ _ _); cbn;
          eexists [_; _]; split; reflexivity.
      * eexists [_]; split; reflexivity.
    + eexists [_]; split; reflexivity.
  - eexists [_]; split; reflexivity.
Qed.

(** X24: once [running] is off, the processing thread empties the queue:
    given more passes than chunks, it hands every queued chunk to the
    model once, in the order queued (the log is newest first), and ends.
    It never raises, whatever the model and the callback do. *)
Theorem stopped_thread_drains_the_queue :
  forall n tr a,
    running tr = false -> model tr = true ->
    length (transcription_queue tr) < n ->
    exists tr' a' new,
      _process_queue H n (tr, a) = (Ok tt, (tr', a')) /\
      transcription_queue tr' = [] /\
      processing_thread tr' = Some (AudioCapture.mk_thread false) /\
      hlog a' = (new ++ hlog a)%list /\
      omap transcribed_audio new = rev (map fst (transcription_queue tr)).
Proof.
  induction n as [|n IH]; intros tr a Hrun Hm Hn; [lia|].
  rewrite process_queue_step, Hrun. cbn [orb].
  destruct (transcription_queue tr) as [|[audio_data timestamp] rest] eqn:Hq.
  - exists (set_processing_thread (Some (AudioCapture.mk_thread false)) tr), a, [].
    cbn. rewrite Hq. repeat split; reflexivity.
  - rewrite (pass_cons _ _ _ _ _ Hq).
    pose proof (chunk_keeps_field running false audio_data
                  ltac:(reflexivity) ltac:(reflexivity) ltac:(reflexivity)
                  ltac:(reflexivity) (set_transcription_queue rest tr) a Hrun) as Hrun1.
    pose proof (chunk_keeps_field model true audio_data
                  ltac:(reflexivity) ltac:(reflexivity) ltac:(reflexivity)
                  ltac:(reflexivity) (set_transcription_queue rest tr) a Hm) as Hm1.
    pose proof (chunk_keeps_field transcription_queue rest audio_data
                  ltac:(reflexivity) ltac:(reflexivity) ltac:(reflexivity)
                  ltac:(reflexivity) (set_transcription_queue rest tr) a eq_refl) as Hq1.
    destruct (chunk_log audio_data (set_transcription_queue rest tr) a Hm)
      as (new1 & Hlog1 & Hev1).
    destruct (_process_queue_chunk H audio_data (set_transcription_queue rest tr, a))
      as [r1 [tr1 a1]]. cbn in Hrun1, Hm1, Hq1, Hlog1. cbn [snd].
    destruct (IH tr1 a1 Hrun1 Hm1) as (tr' & a' & new2 & Hrun2 & Hq2 & Hth & Hlog2 & Hev2).
    { rewrite Hq1. cbn in Hn. lia. }
    exists tr', a', (new2 ++ new1)%list. split; [exact Hrun2|].
    split; [exact Hq2|]. split; [exact Hth|]. split.
    + rewrite Hlog2, Hlog1, app_assoc. reflexivity.
    + rewrite omap_app, Hev2, Hev1, Hq1. reflexivity.
Qed.

(** ** What the methods keep *)

Lemma chunk_settled :
  forall audio_data, holds settled (_process_queue_chunk H audio_data).
Proof.
  intros audio_data. apply chunk_holds.
  - intros x o Ho. exact Ho.
  - intros x o Ho. exact Ho.
  - intros text o Ht Ho. apply settled_append; assumption.
Qed.

Lemma pass_settled : holds settled (_process_queue_pass H).
Proof.
  intros o a Ho.
  destruct (transcription_queue o) as [|[audio_data timestamp] rest] eqn:Hq.
  - rewrite pass_nil by exact Hq. exact Ho.
  - rewrite (pass_cons _ _ _ _ _ Hq). apply chunk_settled.
    destruct Ho as (H1 & H2 & H3 & H4 & H5).
    repeat split; cbn; try tauto.
    intros _. apply H3. rewrite Hq. discriminate.
Qed.

Lemma pass_keeps_field :
  forall {A} (f : t sample -> A) (v : A),
    (forall x o, f (set_total_audio_duration x o) = f o) ->
    (forall x o, f (set_total_processing_time x o) = f o) ->
    (forall x o, f (set_transcriptions_count x o) = f o) ->
    (forall x o, f (set_current_transcription x o) = f o) ->
    (forall x o, f (set_transcription_queue x o) = f o) ->
    holds (fun s => f s = v) (_process_queue_pass H).
Proof.
  intros A f v H1 H2 H3 H4 H5 o a Ho.
  destruct (transcription_queue o) as [|[audio_data timestamp] rest] eqn:Hq.
  - rewrite pass_nil by exact Hq. exact Ho.
  - rewrite (pass_cons _ _ _ _ _ Hq). apply chunk_keeps_field; try assumption.
    rewrite H5. exact Ho.
Qed.

Lemma process_queue_settled : forall n, holds settled (_process_queue H n).
Proof.
  induction n as [|n IH]; intros o a Ho; [exact Ho|].
  rewrite process_queue_step.
  destruct (running o) eqn:Hr; cbn [orb].
  - pose proof (pass_settled o a Ho) as Hp.
    destruct (_process_queue_pass H (o, a)) as [r [o1 a1]]. apply IH. exact Hp.
  - destruct (transcription_queue o) eqn:Hq.
    + destruct Ho as (H1 & H2 & H3 & H4 & H5).
      unfold settled. cbn. rewrite Hr, Hq.
      split; [exact H1|]. split; [discriminate|]. split; [intros X; contradiction|].
      split; assumption.
    + pose proof (pass_settled o a Ho) as Hp.
      destruct (_process_queue_pass H (o, a)) as [r [o1 a1]]. apply IH. exact Hp.
Qed.

Lemma process_queue_keeps_field :
  forall {A} (f : t sample -> A) (v : A) n,
    (forall x o, f (set_total_audio_duration x o) = f o) ->
    (forall x o, f (set_total_processing_time x o) = f o) ->
    (forall x o, f (set_transcriptions_count x o) = f o) ->
    (forall x o, f (set_current_transcription x o) = f o) ->
    (forall x o, f (set_transcription_queue x o) = f o) ->
    (forall x o, f (set_processing_thread x o) = f o) ->
    holds (fun s => f s = v) (_process_queue H n).
Proof.
  intros A f v n H1 H2 H3 H4 H5 H6.
  induction n as [|n IH]; intros o a Ho; [exact Ho|].
  rewrite process_queue_step.
  destruct (running o || match transcription_queue o with [] => false | _ => true end).
  - pose proof (pass_keeps_field f v H1 H2 H3 H4 H5 o a Ho) as Hp.
    destruct (_process_queue_pass H (o, a)) as [r [o1 a1]]. apply IH. exact Hp.
  - cbn. rewrite H6. exact Ho.
Qed.

(** While [running] is on the thread does not end, and with nothing
    queued it takes nothing. *)
Lemma process_queue_consistent : forall n, holds consistent (_process_queue H n).
Proof.
  intros n o a [Hs Hq]. split; [apply process_queue_settled; exact Hs|].
  destruct (running o) eqn:Hr.
  - intros _.
    apply (process_queue_keeps_field running true n); try reflexivity. exact Hr.
  - assert (Hq0 : transcription_queue o = []).
    { destruct (transcription_queue o); [reflexivity|].
      assert (false = true) by (apply Hq; discriminate). discriminate. }
    destruct n as [|n]; [cbn; rewrite Hq0; intros X; contradiction|].
    rewrite process_queue_step, Hr, Hq0. cbn. rewrite Hq0. intros X. contradiction.
Qed.

(** [stop_processing] as one step: the passes of the join, then the
    clearing. *)
Lemma stop_processing_eq :
  forall tr a,
    let w :=
      if thread_alive tr
      then snd (_process_queue H (join_passes H (hlog a))
                  (set_running false tr, mk_hamb (HvThreadJoin :: hlog a) (hreads a)))
      else (set_running false tr, a) in
    stop_processing H (tr, a) =
    (Ok tt, (set_transcription_queue [] (set_current_transcription [] (fst w)),
             mk_hamb (HvGcCollect :: hlog (snd w)) (hreads (snd w)))).
Proof.
  intros tr a. unfold stop_processing, thread_alive, bind, assign, this, call, ret.
  cbn -[_process_queue].
  destruct (processing_thread tr) as [[[|]]|]; cbn -[_process_queue]; try reflexivity.
  pose proof (process_queue_returns (join_passes H (hlog a))
                (set_running false tr, mk_hamb (HvThreadJoin :: hlog a) (hreads a)))
    as Hr.
  destruct (_process_queue H _ _) as [[[]|e] [tr2 a2]]; [|discriminate].
  reflexivity.
Qed.

Lemma stop_processing_clears :
  forall tr a,
    exists tr' a',
      stop_processing H (tr, a) = (Ok tt, (tr', a')) /\
      running tr' = false /\ transcription_queue tr' = [] /\
      current_transcription tr' = [] /\
      model tr' = model tr /\ model_loaded tr' = model_loaded tr /\
      (settled tr -> settled tr').
Proof.
  intros tr a. rewrite stop_processing_eq. cbn zeta.
  eexists _, _. split; [reflexivity|]. cbn [running transcription_queue
    current_transcription model model_loaded set_transcription_queue
    set_current_transcription].
  destruct (thread_alive tr).
  - pose proof (process_queue_keeps_field running false (join_passes H (hlog a))
                  ltac:(reflexivity) ltac:(reflexivity) ltac:(reflexivity)
                  ltac:(reflexivity) ltac:(reflexivity) ltac:(reflexivity)
                  (set_running false tr)
                  (mk_hamb (HvThreadJoin :: hlog a) (hreads a)) eq_refl) as Hrun.
    pose proof (process_queue_keeps_field model (model tr) (join_passes H (hlog a))
                  ltac:(reflexivity) ltac:(reflexivity) ltac:(reflexivity)
                  ltac:(reflexivity) ltac:(reflexivity) ltac:(reflexivity)
                  (set_running false tr)
                  (mk_hamb (HvThreadJoin :: hlog a) (hreads a)) eq_refl) as Hm.
    pose proof (process_queue_keeps_field model_loaded (model_loaded tr)
                  (join_passes H (hlog a))
                  ltac:(reflexivity) ltac:(reflexivity) ltac:(reflexivity)
                  ltac:(reflexivity) ltac:(reflexivity) ltac:(reflexivity)
                  (set_running false tr)
                  (mk_hamb (HvThreadJoin :: hlog a) (hreads a)) eq_refl) as Hl.
    pose proof (process_queue_settled (join_passes H (hlog a)) (set_running false tr)
                  (mk_hamb (HvThreadJoin :: hlog a) (hreads a))) as Hs.
    destruct (_process_queue H _ _) as [r [tr2 a2]]. cbn in *.
    repeat (split; [assumption || reflexivity|]).
    intros Htr.
    assert (Hs0 : settled (set_running false tr)).
    { destruct Htr as (H1 & H2 & H3 & H4 & H5). unfold settled. cbn.
      split; [exact H1|]. split; [discriminate|]. split; [exact H3|].
      split; assumption. }
    destruct (Hs Hs0) as (H1 & H2 & H3 & H4 & H5). unfold settled. cbn.
    split; [exact H1|]. split; [exact H2|]. split; [intros X; contradiction|].
    split; [constructor|]. unfold len in *. cbn. lia.
  - cbn. repeat (split; [reflexivity|]).
    intros (H1 & H2 & H3 & H4 & H5). unfold settled. cbn.
    split; [exact H1|]. split; [discriminate|]. split; [intros X; contradiction|].
    split; [constructor|]. unfold len in *. cbn. lia.
Qed.

(** [load_model] step by step. *)
Lemma load_model_cases :
  forall tr a,
    model_loaded tr = false ->
    let ev1 := HvWhisperModel (model_identifier_of tr) (device tr) (compute_type tr) in
    let ev2 := HvWhisperModel (model_size tr) "cpu" "int8" in
    let cpu := set_compute_type "int8" (set_device "cpu" tr) in
    load_model H (tr, a) =
    match WhisperModel H (hlog a) (model_identifier_of tr) (device tr) (compute_type tr) with
    | Ok _ =>
        (Ok tt, (set_model_loaded true (set_model true tr),
                 mk_hamb (ev1 :: hlog a) (S (S (hreads a)))))
    | Raise e =>
        if String.eqb (device tr) "cpu"
        then (Ok tt, (tr, mk_hamb (ev1 :: hlog a) (S (hreads a))))
        else
          match WhisperModel H (ev1 :: hlog a) (model_size tr) "cpu" "int8" with
          | Ok _ =>
              (Ok tt, (set_model_loaded true (set_model true cpu),
                       mk_hamb (ev2 :: ev1 :: hlog a) (S (hreads a))))
          | Raise e2 =>
              (Raise e2, (cpu, mk_hamb (ev2 :: ev1 :: hlog a) (S (hreads a))))
          end
    end.
Proof.
  intros tr a Hl. unfold load_model, try_except, bind, this, now, call, assign, ret, raise.
  cbn. rewrite Hl. cbn.
  destruct (WhisperModel H (hlog a) _ _ _) as [[]|e]; cbn; [reflexivity|].
  destruct (String.eqb (device tr) "cpu"); cbn; [reflexivity|].
  destruct (WhisperModel H _ _ _ _) as [[]|e2]; reflexivity.
Qed.

Lemma load_model_loaded :
  forall tr a, model_loaded tr = true -> load_model H (tr, a) = (Ok tt, (tr, a)).
Proof.
  intros tr a Hl. unfold load_model, bind, this. cbn. rewrite Hl. reflexivity.
Qed.

Lemma load_model_consistent : holds consistent (load_model H).
Proof.
  intros tr a Htr. destruct (model_loaded tr) eqn:Hl.
  - rewrite load_model_loaded by exact Hl. exact Htr.
  - rewrite load_model_cases by exact Hl. cbn zeta.
    destruct Htr as ((H1 & H2 & H3 & H4 & H5) & H6).
    assert (Hrun : running tr = false).
    { destruct (running tr); [|reflexivity]. destruct H2 as [_ H2]; [reflexivity|].
      congruence. }
    assert (Hq : transcription_queue tr = []).
    { destruct (transcription_queue tr); [reflexivity|].
      assert (running tr = true) by (apply H6; discriminate). congruence. }
    destruct (WhisperModel H (hlog a) _ _ _) as [[]|e].
    + unfold consistent, settled. cbn. rewrite Hrun, Hq. intuition congruence.
    + destruct (String.eqb (device tr) "cpu").
      * unfold consistent, settled. cbn. intuition congruence.
      * destruct (WhisperModel H _ _ _ _) as [[]|e2];
          unfold consistent, settled; cbn; rewrite Hrun, Hq; intuition congruence.
Qed.

Lemma start_processing_consistent : holds consistent (start_processing (sample := sample)).
Proof.
  intros tr a Htr.
  unfold start_processing, bind, this, assign, call, raise, ret. cbn.
  destruct (running tr) eqn:Hr; cbn; [exact Htr|].
  destruct (model_loaded tr) eqn:Hl; cbn; [|exact Htr].
  revert Htr. unfold consistent, settled, thread_alive. cbn. rewrite Hr, Hl.
  intuition congruence.
Qed.

Lemma transcribe_chunk_consistent :
  forall audio_data timestamp,
    holds consistent (transcribe_chunk (sample := sample) audio_data timestamp).
Proof.
  intros audio_data timestamp tr a Htr.
  unfold transcribe_chunk, bind, this, assign, ret. cbn.
  destruct (running tr) eqn:Hr; cbn; [|exact Htr].
  revert Htr. unfold consistent, settled, thread_alive. cbn. rewrite Hr.
  intuition congruence.
Qed.

Lemma stop_processing_consistent : holds consistent (stop_processing H).
Proof.
  intros tr a [Hs _].
  destruct (stop_processing_clears tr a) as (tr' & a' & -> & Hr & Hq & _ & _ & _ & Hs').
  cbn. split; [apply Hs'; exact Hs|]. rewrite Hq. intros X. contradiction.
Qed.

(** [unload_model] as one step. *)
Lemma unload_model_eq :
  forall tr a,
    let w := if thread_alive tr then snd (stop_processing H (tr, a)) else (tr, a) in
    unload_model H (tr, a) =
    (Ok tt, (if model (fst w) then set_model_loaded false (set_model false (fst w))
             else fst w,
             snd w)).
Proof.
  intros tr a. unfold unload_model, thread_alive.
  unfold bind at 1, this at 1.
  destruct (processing_thread tr) as [[[|]]|]; cbn zeta.
  - destruct (stop_processing_clears tr a) as (tr' & a' & Hstop & _).
    unfold bind at 1. rewrite Hstop. unfold bind, this, assign, ret. cbn.
    destruct (model tr'); reflexivity.
  - unfold bind, this, assign, ret. cbn. destruct (model tr); reflexivity.
  - unfold bind, this, assign, ret. cbn. destruct (model tr); reflexivity.
Qed.

Lemma unload_model_consistent : holds consistent (unload_model H).
Proof.
  intros tr a Htr. rewrite unload_model_eq. cbn zeta. cbn [fst snd].
  assert (Hw : consistent
                 (fst (if thread_alive tr then snd (stop_processing H (tr, a))
                       else (tr, a))) /\
               running (fst (if thread_alive tr then snd (stop_processing H (tr, a))
                             else (tr, a))) = false).
  { destruct (thread_alive tr) eqn:Hal.
    - split; [apply stop_processing_consistent; exact Htr|].
      destruct (stop_processing_clears tr a) as (tr' & a' & -> & Hr & _). exact Hr.
    - split; [exact Htr|]. cbn.
      destruct Htr as ((H1 & H2 & H3 & H4 & H5) & H6).
      destruct (running tr); [|reflexivity].
      destruct H2 as [H2 _]; [reflexivity|]. congruence. }
  destruct (if thread_alive tr then snd (stop_processing H (tr, a)) else (tr, a))
    as [tr1 a1].
  cbn in *. destruct Hw as [Hc Hr].
  destruct (model tr1) eqn:Hm; [|exact Hc].
  assert (Hq : transcription_queue tr1 = []).
  { destruct (transcription_queue tr1) eqn:Hq0; [reflexivity|].
    assert (running tr1 = true) by (apply (proj2 Hc); rewrite Hq0; discriminate).
    congruence. }
  revert Hc. unfold consistent, settled, thread_alive. cbn. rewrite Hr, Hq.
  intuition congruence.
Qed.

Lemma api_do_consistent : forall c, holds consistent (api_do H c).
Proof.
  intros [| |cb| | |audio_data timestamp|final| |passes]; cbn [api_do].
  - apply load_model_consistent.
  - apply unload_model_consistent.
  - apply holds_assign. intros o Ho. exact Ho.
  - apply start_processing_consistent.
  - apply stop_processing_consistent.
  - apply transcribe_chunk_consistent.
  - unfold get_full_transcription. holds_auto. destruct x0; holds_auto.
  - unfold reset_transcription. apply holds_assign.
    intros o ((H1 & H2 & H3 & H4 & H5) & H6). unfold consistent, settled. cbn.
    repeat split; try assumption; try tauto; [constructor|].
    unfold len in *. cbn. lia.
  - intros o a Ho. cbn [fst]. destruct (thread_alive o).
    + apply process_queue_consistent. exact Ho.
    + exact Ho.
Qed.

Lemma api_run_consistent :
  forall cs w, consistent (fst w) -> consistent (fst (api_run H cs w)).
Proof.
  induction cs as [|c cs IH]; intros [o a] Hw; [exact Hw|].
  cbn. apply IH. apply api_do_consistent. exact Hw.
Qed.

(** X25: whatever a client calls on a fresh transcriber and however the
    processing thread is scheduled between the calls, the transcriber stays
    consistent: [model_loaded] only with a model, [running] only with a live
    thread and a loaded model, chunks queued only while running (so with a
    model to take them), every entry of the running transcript stripped and
    not empty, and never more entries than transcriptions counted. *)
Theorem transcriber_stays_consistent :
  forall model_size device compute_type language model_path cs a,
    consistent
      (fst (api_run H cs (__init__ model_size device compute_type language model_path, a))).
Proof.
  intros model_size device compute_type language model_path cs a.
  apply api_run_consistent. unfold consistent, settled. cbn.
  repeat split; try discriminate; try constructor; intros X; contradiction.
Qed.

(** X26: [load_model] returns with the model loaded, or, on device ["cpu"]
    only, returns without one when the constructor failed, the transcriber
    as it was.  It raises only when the CPU fallback failed too: then the
    exception is the fallback's, the fallback asked for [model_size] (not
    for [model_path]) on ["cpu"] with ["int8"], and the transcriber is left
    on ["cpu"] and ["int8"] without a model loaded. *)
Theorem load_model_outcome :
  forall tr a r tr' a',
    load_model H (tr, a) = (r, (tr', a')) ->
    match r with
    | Ok _ =>
        (model_loaded tr' = true /\ (model_loaded tr = false -> model tr' = true)) \/
        (device tr = "cpu" /\ tr' = tr /\
         exists e, WhisperModel H (hlog a) (model_identifier_of tr) "cpu" (compute_type tr)
                   = Raise e)
    | Raise e =>
        model_loaded tr = false /\ device tr <> "cpu" /\
        tr' = set_compute_type "int8" (set_device "cpu" tr) /\
        WhisperModel H
          (HvWhisperModel (model_identifier_of tr) (device tr) (compute_type tr) :: hlog a)
          (model_size tr) "cpu" "int8" = Raise e
    end.
Proof.
  intros tr a r tr' a' Hrun. destruct (model_loaded tr) eqn:Hl.
  - rewrite load_model_loaded in Hrun by exact Hl. inversion Hrun; subst.
    left. split; [exact Hl | discriminate].
  - rewrite load_model_cases in Hrun by exact Hl. cbn zeta in Hrun.
    destruct (WhisperModel H (hlog a) _ _ _) as [[]|e] eqn:H1.
    + inversion Hrun; subst. left. split; [reflexivity | intros _; reflexivity].
    + destruct (String.eqb (device tr) "cpu") eqn:Hd.
      * apply String.eqb_eq in Hd. inversion Hrun; subst. right.
        split; [exact Hd|]. split; [reflexivity|]. exists e. rewrite <- Hd. exact H1.
      * apply String.eqb_neq in Hd.
        destruct (WhisperModel H (_ :: hlog a) _ _ _) as [[]|e2] eqn:H2; inversion Hrun; subst.
        -- left. split; [reflexivity | intros _; reflexivity].
        -- split; [reflexivity|]. split; [exact Hd|]. split; reflexivity.
Qed.


(** X28: after [unload_model] a consistent transcriber has no model, is
    not running, and refuses work: [start_processing] raises
    [RuntimeError] and starts nothing, and [transcribe_chunk] drops the
    chunk. *)
Theorem unloaded_transcriber_refuses_work :
  forall tr a,
    consistent tr ->
    exists tr' a',
      unload_model H (tr, a) = (Ok tt, (tr', a')) /\
      model tr' = false /\ model_loaded tr' = false /\ running tr' = false /\
      start_processing (tr', a') =
        (Raise (new_exn RuntimeError "Model not loaded. Call load_model() first."),
         (tr', a')) /\
      forall audio_data timestamp,
        transcribe_chunk audio_data timestamp (tr', a') = (Ok tt, (tr', a')).
Proof.
  intros tr a Htr.
  pose proof (unload_model_consistent tr a Htr) as Hc.
  rewrite unload_model_eq in Hc |- *. cbn zeta in *. cbn [fst snd] in Hc.
  assert (Hr : running
                 (fst (if thread_alive tr then snd (stop_processing H (tr, a))
                       else (tr, a))) = false).
  { destruct (thread_alive tr) eqn:Hal.
    - destruct (stop_processing_clears tr a) as (tr1 & a1 & -> & Hr & _). exact Hr.
    - cbn. destruct (running tr) eqn:Hrun; [|reflexivity].
      destruct Htr as ((_ & H2 & _) & _). destruct H2 as [H2 _]; [exact Hrun|].
      congruence. }
  destruct (if thread_alive tr then snd (stop_processing H (tr, a)) else (tr, a))
    as [tr1 a1]. cbn [fst snd] in *.
  eexists _, _. split; [reflexivity|].
  assert (Hm : model (if model tr1 then set_model_loaded false (set_model false tr1)
                      else tr1) = false)
    by (destruct (model tr1) eqn:Hm; [reflexivity | exact Hm]).
  assert (Hl : model_loaded (if model tr1 then set_model_loaded false (set_model false tr1)
                             else tr1) = false).
  { destruct (model_loaded (if model tr1 then _ else tr1)) eqn:Hl; [|reflexivity].
    destruct Hc as ((H1 & _) & _). rewrite (H1 Hl) in Hm. discriminate. }
  assert (Hr' : running (if model tr1 then set_model_loaded false (set_model false tr1)
                         else tr1) = false)
    by (destruct (model tr1); exact Hr).
  split; [exact Hm|]. split; [exact Hl|]. split; [exact Hr'|]. split.
  - unfold start_processing, bind, this, raise. cbn. rewrite Hr', Hl. reflexivity.
  - intros audio_data timestamp. unfold transcribe_chunk, bind, this, ret. cbn.
    rewrite Hr'. reflexivity.
Qed.

End StreamingProperties.

Section WidgetProperties.
Context {sample : Type} (bar : list sample -> spec_float).
Import WaveformWidget.

Lemma SFltb_irrefl : forall x, SFltb x x = false.
Proof.
  intros [[|]|[|]| |[|] m e]; unfold SFltb, SFcompare; try reflexivity;
    rewrite Z.compare_refl, Pos.compare_refl; reflexivity.
Qed.

Lemma update_peaks_sized :
  forall values i peaks,
    (i + length values <= length peaks)%nat ->
    exists peak',
      update_peaks i values peaks = (Returned, peak') /\
      length peak' = length peaks /\
      (forall j, (j < i)%nat -> peak' !! j = peaks !! j) /\
      (forall k s, values !! k = Some s ->
         exists p, peaks !! (i + k)%nat = Some p /\
                   peak' !! (i + k)%nat = Some (if SFltb p s then s else p)).
Proof.
  induction values as [|s rest IH]; intros i peaks Hlen.
  - exists peaks. split; [reflexivity|]. split; [reflexivity|].
    split; [intros; reflexivity|]. intros k s Hk. discriminate.
  - cbn [update_peaks]. cbn [length] in Hlen.
    destruct (peaks !! i) as [p|] eqn:Hp.
    2:{ apply lookup_ge_None in Hp. lia. }
    set (ph1 := if SFltb p s then <[i := s]> peaks else peaks).
    assert (Hl1 : length ph1 = length peaks)
      by (unfold ph1; destruct (SFltb p s); [apply length_insert | reflexivity]).
    destruct (IH (S i) ph1) as (peak' & Hrun & Hlen' & Hlow & Hhigh); [lia|].
    exists peak'. split; [exact Hrun|]. split; [lia|]. split.
    + intros j Hj. rewrite Hlow by lia. unfold ph1.
      destruct (SFltb p s); [apply list_lookup_insert_ne; lia | reflexivity].
    + intros [|k] s' Hk.
      * cbn in Hk. injection Hk as <-. rewrite Nat.add_0_r.
        exists p. split; [exact Hp|]. rewrite Hlow by lia. unfold ph1.
        destruct (SFltb p s); [apply list_lookup_insert_eq | exact Hp].
        apply lookup_lt_Some in Hp. exact Hp.
      * cbn in Hk. destruct (Hhigh k s' Hk) as (q & Hq & Hq').
        replace (i + S k)%nat with (S i + k)%nat by lia.
        exists q. split; [|exact Hq']. unfold ph1 in Hq.
        destruct (SFltb p s); [|exact Hq].
        rewrite list_lookup_insert_ne in Hq by lia. exact Hq.
Qed.

Lemma new_samples_length :
  forall audio_data window_size n,
    length (new_samples bar audio_data window_size n) = Z.to_nat n.
Proof.
  intros. unfold new_samples, AudioLevelMonitor.range.
  rewrite !length_map, length_seq. reflexivity.
Qed.

(** [update_data] on a widget whose peak marks are as many as its bars. *)
Lemma update_data_sized_run :
  forall audio_data w,
    length (peak_hold w) = Z.to_nat (sample_count w) ->
    audio_data <> [] -> sample_count w <> 0%Z ->
    let window_size := Z.max (len audio_data / sample_count w) 1 in
    let bars := new_samples bar audio_data window_size (sample_count w) in
    exists peak',
      update_data bar audio_data w =
        (Returned, mk (sample_count w) bars peak' (peak_decay w) (S (updates w))) /\
      length peak' = Z.to_nat (sample_count w) /\
      forall k s, bars !! k = Some s ->
        exists p, peak_hold w !! k = Some p /\
                  peak' !! k = Some (if SFltb p s then s else p).
Proof.
  intros audio_data w Hlen Hne Hn window_size bars. unfold update_data.
  destruct (len audio_data =? 0)%Z eqn:H0.
  { apply Z.eqb_eq in H0. destruct audio_data; [contradiction|].
    unfold len in H0. cbn in H0. lia. }
  destruct (sample_count w =? 0)%Z eqn:Hz; [apply Z.eqb_eq in Hz; contradiction|].
  cbn zeta. fold window_size. fold bars.
  destruct (update_peaks_sized bars 0 (peak_hold w)) as (peak' & Hrun & Hl & _ & Hhigh).
  { unfold bars. rewrite new_samples_length. lia. }
  exists peak'. rewrite Hrun. split; [reflexivity|]. split; [lia|]. exact Hhigh.
Qed.

Lemma update_data_sized :
  forall audio_data w, sized w -> sized (snd (update_data bar audio_data w)).
Proof.
  intros audio_data w [Hs Hp].
  destruct audio_data as [|x rest]; [exact (conj Hs Hp)|].
  destruct (Z.eq_dec (sample_count w) 0%Z) as [Hz|Hz].
  { unfold update_data. rewrite Hz. cbn. exact (conj Hs Hp). }
  destruct (update_data_sized_run (x :: rest) w Hp ltac:(discriminate) Hz)
    as (peak' & -> & Hl & _).
  split; cbn; [apply new_samples_length | exact Hl].
Qed.

Lemma update_data_sample_count :
  forall audio_data w, sample_count (snd (update_data bar audio_data w)) = sample_count w.
Proof.
  intros audio_data w. unfold update_data.
  destruct (len audio_data =? 0)%Z; [reflexivity|].
  destruct (sample_count w =? 0)%Z; [reflexivity|]. cbn zeta.
  destruct (update_peaks _ _ _) as [[| |] peak']; reflexivity.
Qed.

Lemma widget_run_sized :
  forall cs w,
    sized w ->
    sized (widget_run bar cs w) /\ sample_count (widget_run bar cs w) = sample_count w.
Proof.
  induction cs as [|c cs IH]; intros w Hw; [split; [exact Hw | reflexivity]|].
  cbn [widget_run fold_left].
  assert (Hstep : sized (widget_do bar c w) /\
                  sample_count (widget_do bar c w) = sample_count w).
  { destruct c as [audio_data| |]; cbn [widget_do].
    - split; [apply update_data_sized; exact Hw | apply update_data_sample_count].
    - destruct Hw as [Hs Hp]. split; [|reflexivity]. split; cbn; [exact Hs|].
      rewrite length_map. exact Hp.
    - split; [|reflexivity]. split; cbn; apply repeat_length. }
  destruct Hstep as [Hs Hc]. destruct (IH _ Hs) as [Hs' Hc'].
  split; [exact Hs'|]. fold (widget_run bar cs (widget_do bar c w)).
  rewrite Hc'. exact Hc.
Qed.

(** X29: on a widget with as many peak marks as bars, new audio replaces
    every bar, asks for one repaint and leaves no bar above its peak mark:
    a mark below the new bar is raised to it, any other mark is kept. *)
Theorem update_data_holds_the_peaks :
  forall audio_data w,
    length (peak_hold w) = Z.to_nat (sample_count w) ->
    audio_data <> [] -> sample_count w <> 0%Z ->
    exists w',
      update_data bar audio_data w = (Returned, w') /\
      sample_count w' = sample_count w /\
      updates w' = S (updates w) /\
      length (samples w') = Z.to_nat (sample_count w) /\
      length (peak_hold w') = Z.to_nat (sample_count w) /\
      forall k s, samples w' !! k = Some s ->
        exists p p',
          peak_hold w !! k = Some p /\ peak_hold w' !! k = Some p' /\
          p' = (if SFltb p s then s else p) /\
          SFltb p' s = false.
Proof.
  intros audio_data w Hlen Hne Hn.
  destruct (update_data_sized_run audio_data w Hlen Hne Hn) as (peak' & Hrun & Hl & Hk).
  eexists. split; [exact Hrun|]. cbn.
  split; [reflexivity|]. split; [reflexivity|]. split; [apply new_samples_length|].
  split; [exact Hl|].
  intros k s Hs. destruct (Hk k s Hs) as (p & Hp & Hp').
  exists p, (if SFltb p s then s else p).
  split; [exact Hp|]. split; [exact Hp'|]. split; [reflexivity|].
  destruct (SFltb p s) eqn:Hlt; [apply SFltb_irrefl | exact Hlt].
Qed.

(** X30: a widget made by [__init__] keeps as many bars and peak marks as
    its [sample_count] through any updates, decay ticks and resets, so
    [update_data] never fails on an index; it raises [ZeroDivisionError]
    exactly when [sample_count] is [0] and the audio is not empty. *)
Theorem widget_indexing_is_safe :
  forall n cs audio_data,
    let w := widget_run bar cs (__init__ n) in
    sized w /\ sample_count w = n /\
    fst (update_data bar audio_data w) =
      (if (len audio_data =? 0)%Z then Returned
       else if (n =? 0)%Z then RaisedZeroDivisionError else Returned).
Proof.
  intros n cs audio_data w.
  assert (H0 : sized (__init__ n)) by (split; cbn; apply repeat_length).
  destruct (widget_run_sized cs (__init__ n) H0) as [Hs Hc].
  fold w in Hs, Hc. cbn in Hc. split; [exact Hs|]. split; [exact Hc|].
  destruct (len audio_data =? 0)%Z eqn:Ha.
  { unfold update_data. rewrite Ha. reflexivity. }
  destruct (n =? 0)%Z eqn:Hn.
  { unfold update_data. rewrite Ha, Hc, Hn. reflexivity. }
  apply Z.eqb_neq in Hn.
  destruct (update_data_sized_run audio_data w) as (peak' & -> & _).
  - destruct Hs as [_ Hp]. exact Hp.
  - intros ->. discriminate.
  - rewrite Hc. exact Hn.
  - reflexivity.
Qed.

End WidgetProperties.

(** * The claims on concrete inputs *)

(** C4, the exhausted chain: with no clipboard mechanism on the system and
    the [clipboard] preference, [insert_text "hello"] tries the clipboard
    once and raises the aggregated error, whose text ends in
    ["Last error: None"]: [_insert_clipboard] caught the exception of
    [pyperclip.copy] and returned [False], so [last_error] was never set
    and the cause of the failure is not in the message. *)
Theorem exhausted_chain_reports_none :
  TextInjector.insert_text no_clipboard_env "hello" (injector0, amb0) =
    (Raise (new_exn Exception "All text insertion methods failed. Last error: None"),
     (injector0, mk_amb [EvClipboardCopy "hello"] 0)) /\
  pyperclip_copy no_clipboard_env [] "hello" =
    Raise (new_exn Exception
             "Pyperclip could not find a copy/paste mechanism for your system.") /\
  str_contains "Pyperclip" "All text insertion methods failed. Last error: None" = false.
Proof.
  split; [ | split ]; reflexivity.
Qed.

(** C5, the counterexample: ten full frames, speech in the first and a
    classifier failure on the other nine.  Counting the failures as
    non-voiced frames gives 1/10 and a rejection; the code drops them,
    computes 1/1 and accepts. *)
Lemma failed_frames_leave_the_denominator :
  fst (AudioCapture._contains_voice flaky_vad_env audio21 2 (capture0, amb0)) = Ok true /\
  claimed_chunk_is_voiced flaky_vad_env 16000 audio21 2 [] = false /\
  fst (AudioCapture._contains_voice flaky_vad_env audio21 2 (capture0, amb0)) <>
    Ok (claimed_chunk_is_voiced flaky_vad_env (AudioCapture.sample_rate capture0)
          audio21 2 (trace amb0)).
Proof.
  split; [ vm_compute; reflexivity | ].
  split; [ vm_compute; reflexivity | ].
  vm_compute. discriminate.
Qed.

(** C7, the counterexample: the failure of a [stop] in Idle says
    ["No recording in progress"], which does not name the state Idle; nor
    would it name Processing. *)
Lemma stop_failure_does_not_name_state :
  Daemon._handle_stop_command quiet_env (daemon0, amb0) =
    (Ok (failure "No recording in progress"), (daemon0, amb0)) /\
  Daemon.state daemon0 = Daemon.IDLE /\
  names_state (message_of (failure (time := Z) "No recording in progress"))
              (Daemon.state daemon0) = false /\
  names_state "No recording in progress" Daemon.PROCESSING = false.
Proof.
  repeat split; reflexivity.
Qed.

(** C8, the unanswered request: the two bytes of the JSON text [[]] reach
    the server of the daemon.  They decode and parse, [message.get] raises
    [AttributeError], and [_handle_client] closes the connection without
    having written a response. *)
Theorem array_request_gets_no_response :
  json_loads quiet_env "[]" = Ok (JArr []) /\
  IPCServer._handle_client quiet_env (fun _ => None) server0
    (array_request, (daemon0, amb0)) =
    (Ok tt, (IPCServer.mk_socket (Ok (list_byte_of_string "[]")) [] None true,
             (daemon0, amb0))).
Proof.
  split; [ reflexivity | ].
  apply (non_object_request_unanswered quiet_env (fun _ => None) server0
           array_request (daemon0, amb0) "[]" []).
  - exists (list_byte_of_string "[]"). repeat split; reflexivity.
  - reflexivity.
Qed.

(** The same server answers a well-formed [start] request once, with the
    result of the handler. *)
Example start_request_is_answered :
  IPCServer.outbox
    (fst (snd (IPCServer._handle_client quiet_env (fun _ => None) server0
                 (IPCServer.mk_socket (Ok (list_byte_of_string start_request)) [] None false,
                  (daemon0, amb0))))) =
  [IPCServer.success started_result].
Proof. vm_compute. reflexivity. Qed.

Lemma session_never_left_processing_witness :
  state_of (daemon0, amb0) = Daemon.IDLE /\
  state_of (snd (Daemon.run quiet_env
                   [Daemon.start; Daemon.start; Daemon.stop; Daemon.stop; Daemon.shutdown]
                   (daemon0, amb0))) <> Daemon.PROCESSING.
Proof.
  split; [ reflexivity | ].
  exact (proj1 (session_never_left_processing quiet_env
                  [Daemon.start; Daemon.start; Daemon.stop; Daemon.stop; Daemon.shutdown]
                  (daemon0, amb0) eq_refl)).
Defined.

Lemma start_twice_witness :
  Daemon.state daemon0 = Daemon.IDLE /\
  fst (AudioCapture.start quiet_env (Daemon.audio_capture daemon0, amb0)) = Ok tt /\
  exists r1 w1,
    Daemon._handle_start_command quiet_env (daemon0, amb0) = (Ok r1, w1) /\
    Daemon.succeeded r1 = true /\
    Daemon._handle_start_command quiet_env w1 =
      (Ok (failure "Cannot start: already recording"), w1).
Proof.
  assert (H : fst (AudioCapture.start quiet_env (Daemon.audio_capture daemon0, amb0)) = Ok tt)
    by (vm_compute; reflexivity).
  split; [ reflexivity | ]. split; [ exact H | ].
  destruct (start_twice_one_success_one_failure quiet_env daemon0 amb0 eq_refl H
              (fun _ => eq_refl))
    as (r1 & w1 & H1 & Hs & _ & _ & H2 & _).
  exists r1, w1. repeat split; assumption.
Defined.

Lemma short_audio_guard_witness :
  Daemon._handle_stop_command quiet_env started_world = (Ok stopped_result, stopped_world) /\
  Daemon.succeeded stopped_result = true /\
  AudioCapture.capture_thread (Daemon.audio_capture (fst started_world)) = None /\
  (len (AudioCapture.audio_buffer (Daemon.audio_capture (fst started_world))) < 8000)%Z /\
  Daemon.get stopped_result "word_count" = Some (Daemon.VInt 0).
Proof.
  assert (H : Daemon._handle_stop_command quiet_env (fst started_world, snd started_world) =
              (Ok stopped_result, (fst stopped_world, snd stopped_world)))
    by (vm_compute; reflexivity).
  split; [ exact H | ]. split; [ reflexivity | ]. split; [ reflexivity | ].
  split; [ reflexivity | ].
  pose proof (short_audio_guard quiet_env _ _ _ _ _ H eq_refl eq_refl eq_refl) as G.
  apply G.
Defined.

Lemma chunk_decision_witness :
  (0 < 2)%Z /\
  (len audio21 mod 2 <> 0)%Z /\
  fst (AudioCapture._contains_voice flaky_vad_env audio21 2 (capture0, amb0)) =
    Ok (decision 1 1).
Proof.
  assert (H1 : (0 < 2)%Z) by reflexivity.
  assert (H2 : (len audio21 mod 2 <> 0)%Z) by (vm_compute; discriminate).
  split; [ exact H1 | ]. split; [ exact H2 | ].
  rewrite (proj1 (chunk_decision_skips_failed_frames flaky_vad_env audio21 2 capture0 amb0
                    H1 H2)).
  reflexivity.
Defined.

(** C6, the counterexample: a chunk of 20 frames and one sample more, of
    which the classifier hears speech in the first frame, none in the next
    two, and fails on the other seventeen.  One voiced frame of twenty is a
    voiced-frame ratio of 0.05, below 0.15, so the claim has the chunk
    rejected; the code leaves the seventeen out, computes 1/3 and accepts
    it. *)
Lemma failed_frames_raise_the_ratio :
  len chunk_with_failures = 41%Z /\
  answers_with_failures =
    (Ok true :: Ok false :: Ok false ::
     repeat (Raise (new_exn Exception "Error while processing frame")) 17)%list /\
  len answers_with_failures = 20%Z /\
  count is_voiced answers_with_failures = 1%Z /\
  (20 * count is_voiced answers_with_failures < 3 * len answers_with_failures)%Z /\
  claimed_chunk_is_voiced marked_vad_env 16000 chunk_with_failures 2 [] = false /\
  fst (AudioCapture._contains_voice marked_vad_env chunk_with_failures 2 (capture0, amb0)) =
    Ok true.
Proof.
  repeat split; vm_compute; reflexivity.
Qed.

(** C6 on the boundary: 3 voiced frames of 20 are accepted and 149 of 1000
    rejected, by an engine whose lifetime counters stand at 7 and 5 as by
    one whose counters are zero. *)
Lemma gate_threshold_boundary_witness :
  (0 < 2)%Z /\
  (len chunk_at_threshold mod 2 <> 0)%Z /\
  (len chunk_below_threshold mod 2 <> 0)%Z /\
  AudioCapture.total_frames counted_capture = 7%Z /\
  AudioCapture.voiced_frames counted_capture = 5%Z /\
  (let answers :=
     vad_answers marked_vad_env 16000 (full_frames marked_vad_env chunk_at_threshold 2) [] in
   count is_voiced answers = 3%Z /\ count is_classified answers = 20%Z) /\
  (let answers :=
     vad_answers marked_vad_env 16000 (full_frames marked_vad_env chunk_below_threshold 2) [] in
   count is_voiced answers = 149%Z /\ count is_classified answers = 1000%Z) /\
  fst (AudioCapture._contains_voice marked_vad_env chunk_at_threshold 2
         (counted_capture, amb0)) = Ok true /\
  fst (AudioCapture._contains_voice marked_vad_env chunk_at_threshold 2
         (capture0, amb0)) = Ok true /\
  fst (AudioCapture._contains_voice marked_vad_env chunk_below_threshold 2
         (counted_capture, amb0)) = Ok false /\
  fst (AudioCapture._contains_voice marked_vad_env chunk_below_threshold 2
         (capture0, amb0)) = Ok false.
Proof.
  assert (H0 : (0 < 2)%Z) by reflexivity.
  assert (H1 : (len chunk_at_threshold mod 2 <> 0)%Z) by (vm_compute; discriminate).
  assert (H2 : (len chunk_below_threshold mod 2 <> 0)%Z) by (vm_compute; discriminate).
  assert (B1 : (len chunk_at_threshold / 2 <= 2251799813685248)%Z)
    by (vm_compute; discriminate).
  assert (B2 : (len chunk_below_threshold / 2 <= 2251799813685248)%Z)
    by (vm_compute; discriminate).
  split; [exact H0|]. split; [exact H1|]. split; [exact H2|].
  split; [reflexivity|]. split; [reflexivity|].
  split; [cbv zeta; split; vm_compute; reflexivity|].
  split; [cbv zeta; split; vm_compute; reflexivity|].
  destruct (gate_threshold_over_classified_frames marked_vad_env chunk_at_threshold 2
              counted_capture amb0 0 0 H0 H1 B1) as (_ & _ & Hrun1 & Hany1 & _).
  destruct (gate_threshold_over_classified_frames marked_vad_env chunk_below_threshold 2
              counted_capture amb0 0 0 H0 H2 B2) as (_ & _ & Hrun2 & Hany2 & _).
  split; [rewrite Hrun1; vm_compute; reflexivity|].
  split; [etransitivity; [|etransitivity; [exact Hany1|]]; vm_compute; reflexivity|].
  split; [rewrite Hrun2; vm_compute; reflexivity|].
  etransitivity; [|etransitivity; [exact Hany2|]]; vm_compute; reflexivity.
Defined.

Lemma stop_outside_recording_witness :
  Daemon.state daemon0 <> Daemon.RECORDING /\
  Daemon._handle_stop_command quiet_env (daemon0, amb0) =
    (Ok (failure "No recording in progress"), (daemon0, amb0)).
Proof.
  assert (H : Daemon.state daemon0 <> Daemon.RECORDING) by discriminate.
  split; [ exact H | ].
  exact (stop_outside_recording_is_rejected quiet_env daemon0 amb0 H).
Defined.

Lemma batch_drain_witness :
  AudioCapture.recording capture0 = false /\
  AudioCapture.chunk_callback capture0 = None /\
  AudioCapture.capture_thread capture0 = None /\
  AudioCapture.start quiet_env (capture0, amb0) = (Ok tt, capture_started) /\
  exists w3,
    AudioCapture.stop quiet_env
      (audio_driver [[(1%Z, []); (2%Z, [])]; [(3%Z, [])]] capture_started) =
    (Ok [Mono 1%Z; Mono 2%Z; Mono 3%Z], w3).
Proof.
  assert (H : AudioCapture.start quiet_env (capture0, amb0) = (Ok tt, capture_started))
    by (vm_compute; reflexivity).
  split; [ reflexivity | ]. split; [ reflexivity | ]. split; [ reflexivity | ].
  split; [ exact H | ].
  destruct (batch_drain_returns_all_samples quiet_env capture0 amb0
              [[(1%Z, []); (2%Z, [])]; [(3%Z, [])]] capture_started
              eq_refl eq_refl eq_refl (fun _ => eq_refl) (fun _ => eq_refl) H)
    as (w3 & Hs & _).
  exists w3. exact Hs.
Defined.

Lemma start_while_recording_witness :
  AudioCapture.recording (Daemon.audio_capture (fst started_world)) = true /\
  AudioCapture.start quiet_env (Daemon.audio_capture (fst started_world), amb0) =
    (Ok tt, (Daemon.audio_capture (fst started_world), amb0)).
Proof.
  split; [ reflexivity | ].
  exact (start_while_recording_is_noop quiet_env
           (Daemon.audio_capture (fst started_world)) amb0 eq_refl).
Defined.

(** * The further properties on concrete inputs *)

Lemma injector_without_ydotool_witness :
  (forall err, child_process no_ydotool_env (trace amb0) ["which"; "ydotool"]
               <> Completed 0 err) /\
  fst (TextInjector.__init__ no_ydotool_env "direct" amb0) =
    TextInjector.mk "direct" false None.
Proof.
  assert (H : forall err, child_process no_ydotool_env (trace amb0) ["which"; "ydotool"]
                          <> Completed 0 err) by (intros err; discriminate).
  split; [exact H|].
  exact (proj1 (injector_without_ydotool_uses_clipboard_only no_ydotool_env
                  "direct" "hello" amb0 amb0 H)).
Defined.

Lemma insert_text_leaves_text_witness :
  str_nonempty "hello" = true /\
  TextInjector.insert_text quiet_env "hello" (injector0, amb0) =
    (Ok TextInjector.CLIPBOARD, inserted_world) /\
  TextInjector.get_last_method inserted_world =
    (Ok (Some TextInjector.CLIPBOARD), inserted_world).
Proof.
  assert (H : TextInjector.insert_text quiet_env "hello" (injector0, amb0) =
              (Ok TextInjector.CLIPBOARD, (fst inserted_world, snd inserted_world)))
    by (vm_compute; reflexivity).
  split; [reflexivity|]. split; [exact H|].
  exact (proj1 (proj2 (proj2 (insert_text_leaves_text_on_clipboard quiet_env
                                "hello" _ _ _ _ _ eq_refl H)))).
Defined.

Lemma gate_counters_witness :
  counters_ok capture0 /\
  counters_ok
    (fst (capture_run flaky_vad_env
            [call_start; call_audio_callback [(1%Z, []); (2%Z, [])];
             call_contains_voice audio21 2; call_stop]
            (capture0, amb0))).
Proof.
  assert (H : counters_ok capture0) by (split; discriminate).
  split; [exact H|].
  exact (gate_counters_stay_consistent flaky_vad_env _ (capture0, amb0) H).
Defined.

Lemma streaming_takes_whole_chunks_witness :
  (0 < AudioCapture.chunk_samples_of streaming_capture)%Z /\
  Z.to_nat (AudioCapture.chunk_samples_of streaming_capture) = 200%nat /\
  length (AudioCapture.audio_buffer streaming_capture) = 450%nat /\
  exists k : nat,
    k = 2%nat /\
    AudioCapture.audio_buffer
      (fst (snd (AudioCapture._process_audio quiet_env 3 (streaming_capture, amb0)))) =
    skipn (k * 200) (AudioCapture.audio_buffer streaming_capture).
Proof.
  assert (H : (0 < AudioCapture.chunk_samples_of streaming_capture)%Z)
    by (vm_compute; reflexivity).
  assert (Hcs : Z.to_nat (AudioCapture.chunk_samples_of streaming_capture) = 200%nat)
    by (vm_compute; reflexivity).
  assert (Hbuf : length (AudioCapture.audio_buffer streaming_capture) = 450%nat)
    by (vm_compute; reflexivity).
  assert (Hleft : length (AudioCapture.audio_buffer
                            (fst (snd (AudioCapture._process_audio quiet_env 3
                                         (streaming_capture, amb0))))) = 50%nat)
    by (vm_compute; reflexivity).
  split; [exact H|]. split; [exact Hcs|]. split; [exact Hbuf|].
  destruct (streaming_takes_whole_chunks quiet_env 3 streaming_capture amb0 H)
    as (k & Hk & Hfit & Hb).
  rewrite Hcs in Hb, Hfit. exists k. split; [|exact Hb].
  rewrite Hb, length_skipn, Hbuf in Hleft. lia.
Defined.

Lemma stop_keeps_the_recorded_audio_witness :
  AudioCapture.capture_thread (fst capture_started) = None /\
  exists w1 w2,
    AudioCapture.stop quiet_env capture_started =
      (Ok (AudioCapture.audio_buffer (fst capture_started)), w1) /\
    AudioCapture.stop quiet_env w1 =
      (Ok (AudioCapture.audio_buffer (fst capture_started)), w2).
Proof.
  split; [reflexivity|].
  destruct (stop_keeps_the_recorded_audio quiet_env (fst capture_started)
              (snd capture_started) [[(1%Z, [])]] eq_refl
              (fun _ => eq_refl) (fun _ => eq_refl))
    as (w1 & w2 & H1 & _ & H2 & _).
  exists w1, w2. split; [exact H1 | exact H2].
Defined.

Lemma stop_result_is_consistent_witness :
  fst (Daemon._handle_stop_command padded_model_env (recording_daemon, amb0)) =
    Ok padded_result /\
  Daemon.succeeded padded_result = true /\
  Daemon.get padded_result "transcription" = Some (Daemon.VStr "hello world") /\
  Daemon.get padded_result "word_count" =
    Some (Daemon.VInt (Z.of_nat (len_split "hello world"))) /\
  len_split "hello world" = 2 /\
  Daemon.get padded_result "insertion_method" = Some (Daemon.VStr "clipboard") /\
  Transcriber.strip "hello world" = "hello world" /\
  "clipboard" <> "none".
Proof.
  assert (H : Daemon._handle_stop_command padded_model_env (recording_daemon, amb0) =
              (Ok padded_result,
               snd (Daemon._handle_stop_command padded_model_env (recording_daemon, amb0))))
    by (vm_compute; reflexivity).
  assert (Ht : Daemon.get padded_result "transcription" = Some (Daemon.VStr "hello world"))
    by reflexivity.
  split; [rewrite H; reflexivity|]. split; [reflexivity|]. split; [exact Ht|].
  assert (Hm : Daemon.get padded_result "insertion_method" =
               Some (Daemon.VStr "clipboard")) by reflexivity.
  destruct (stop_result_is_consistent padded_model_env _ _ _ _ H eq_refl)
    as (text & method & H1 & H2 & H3 & H4 & H5 & _).
  rewrite Ht in H1. injection H1 as <-.
  rewrite Hm in H2. injection H2 as <-.
  split; [exact H3|]. split; [reflexivity|]. split; [exact Hm|]. split; [exact H4|].
  intros Hn. apply H5 in Hn. discriminate.
Defined.

Lemma failed_hide_signal_witness :
  Daemon.state (fst started_world) = Daemon.RECORDING /\
  Daemon.gui_window (fst started_world) = true /\
  signal_emit lost_window_env (trace amb0) hide_window_signal =
    Raise (new_exn RuntimeError "wrapped C/C++ object has been deleted") /\
  Daemon._handle_stop_command lost_window_env (fst started_world, amb0) =
    (Ok (failure
           "Failed to stop recording: wrapped C/C++ object has been deleted"),
     (Daemon.set_state Daemon.IDLE (fst started_world),
      mk_amb [EvSignalEmit hide_window_signal] 0)).
Proof.
  split; [reflexivity|]. split; [reflexivity|]. split; [reflexivity|].
  exact (proj1 (failed_hide_signal_leaves_capture_running lost_window_env
                  (fst started_world) amb0
                  (new_exn RuntimeError "wrapped C/C++ object has been deleted")
                  eq_refl eq_refl eq_refl eq_refl (fun _ => eq_refl))).
Defined.

Lemma failed_start_witness :
  Daemon.state daemon0 = Daemon.IDLE /\
  (exists e, fst (AudioCapture.start no_microphone_env (Daemon.audio_capture daemon0, amb0))
             = Raise e) /\
  exists r w',
    Daemon._handle_start_command no_microphone_env (daemon0, amb0) = (Ok r, w') /\
    Daemon.succeeded r = false /\
    state_of w' = Daemon.IDLE.
Proof.
  destruct (fst (AudioCapture.start no_microphone_env (Daemon.audio_capture daemon0, amb0)))
    as [x|e] eqn:He; [vm_compute in He; discriminate|].
  split; [reflexivity|]. split; [exists e; reflexivity|].
  destruct (failed_start_leaves_session_idle no_microphone_env daemon0 amb0 e eq_refl He)
    as (w' & H1 & H2 & _).
  exists (failure ("Failed to start recording: " ++ exn_str e)), w'.
  split; [exact H1|]. split; [reflexivity | exact H2].
Defined.

Lemma failed_insertion_witness :
  (forall h text, pyperclip_copy no_clipboard_env h text <> Ok tt) /\
  fst (Daemon._handle_stop_command no_clipboard_env (recording_daemon, amb0)) =
    Ok undelivered_result /\
  Daemon.get undelivered_result "transcription" = Some (Daemon.VStr "hello world") /\
  Daemon.get undelivered_result "insertion_method" = Some (Daemon.VStr "clipboard").
Proof.
  assert (H : forall h text, pyperclip_copy no_clipboard_env h text <> Ok tt)
    by (intros h text; discriminate).
  assert (Hrun : fst (Daemon._handle_stop_command no_clipboard_env (recording_daemon, amb0))
                 = Ok undelivered_result) by (vm_compute; reflexivity).
  split; [exact H|]. split; [exact Hrun|]. split; [reflexivity|].
  destruct (failed_insertion_is_reported_as_clipboard no_clipboard_env
              recording_daemon amb0 H) as (r & d' & a' & H1 & H2).
  rewrite H1 in Hrun. cbn [fst] in Hrun. injection Hrun as ->.
  apply (H2 eq_refl "hello world" eq_refl). discriminate.
Defined.


Lemma daemon_commands_answered_witness :
  command_name Daemon.start = Some "start" /\
  json_loads quiet_env start_request = Ok (JObj {[ "command" := JStr "start" ]}) /\
  IPCServer._handle_client quiet_env (fun _ => None)
    (Daemon.register_handlers quiet_env (IPCServer.__init__ "/tmp/whisper-daemon.sock"))
    (IPCServer.mk_socket (Ok (list_byte_of_string start_request)) [] None false,
     (daemon0, amb0)) =
  (Ok tt,
   (answered (IPCServer.mk_socket (Ok (list_byte_of_string start_request)) [] None false)
      (IPCServer.success started_result),
    started_world)).
Proof.
  split; [reflexivity|]. split; [reflexivity|].
  destruct (daemon_commands_are_answered_with_success quiet_env (fun _ => None)
              (IPCServer.__init__ "/tmp/whisper-daemon.sock")
              (IPCServer.mk_socket (Ok (list_byte_of_string start_request)) [] None false)
              daemon0 amb0 start_request {[ "command" := JStr "start" ]}
              Daemon.start "start" eq_refl)
    as (r & w' & Hrun & Hclient).
  - exists (list_byte_of_string start_request). repeat split; reflexivity.
  - reflexivity.
  - vm_compute. reflexivity.
  - left. vm_compute. reflexivity.
  - reflexivity.
  - intros r. reflexivity.
  - rewrite Hclient.
    assert (Hr : Daemon.handle quiet_env Daemon.start (daemon0, amb0) =
                 (Ok started_result, started_world)) by (vm_compute; reflexivity).
    rewrite Hr in Hrun. injection Hrun as <- <-. reflexivity.
Defined.

Lemma daemon_serves_four_commands_witness :
  json_loads pause_env pause_request = Ok (JObj {[ "command" := JStr "pause" ]}) /\
  ~ In "pause" ["start"; "stop"; "status"; "shutdown"] /\
  IPCServer.outbox
    (fst (snd (IPCServer._handle_client pause_env (fun _ => None)
                 (Daemon.register_handlers pause_env
                    (IPCServer.__init__ "/tmp/whisper-daemon.sock"))
                 (IPCServer.mk_socket (Ok (list_byte_of_string pause_request)) [] None false,
                  (daemon0, amb0))))) =
  [IPCServer.error "Unknown command: pause"].
Proof.
  assert (Hno : ~ In "pause" ["start"; "stop"; "status"; "shutdown"])
    by (intros [H|[H|[H|[H|[]]]]]; discriminate).
  split; [reflexivity|]. split; [exact Hno|].
  rewrite (daemon_serves_four_commands_only pause_env (fun _ => None)
             "/tmp/whisper-daemon.sock"
             (IPCServer.mk_socket (Ok (list_byte_of_string pause_request)) [] None false)
             daemon0 amb0 pause_request {[ "command" := JStr "pause" ]} "pause").
  - reflexivity.
  - exists (list_byte_of_string pause_request). repeat split; reflexivity.
  - reflexivity.
  - vm_compute. reflexivity.
  - exact Hno.
  - reflexivity.
Defined.

Lemma user_settings_override_witness :
  well_formed (Config.VDict small_model_overlay) = true /\
  find (Config.VDict small_model_overlay) ["model"; "size"] =
    Some (Config.VStr "small") /\
  Config.get (Config._deep_merge Config.DEFAULT_CONFIG small_model_overlay)
    ["model"; "size"] Config.VNone = Config.VStr "small".
Proof.
  split; [reflexivity|]. split; [reflexivity|].
  apply (user_settings_override_defaults Config.DEFAULT_CONFIG small_model_overlay
           ["model"; "size"] (Config.VStr "small") Config.VNone).
  - reflexivity.
  - discriminate.
  - reflexivity.
  - reflexivity.
Defined.

Lemma unmentioned_settings_witness :
  well_formed (Config.VDict small_model_overlay) = true /\
  leaves_alone (Config.VDict small_model_overlay) ["model"; "language"] = true /\
  Config.get (Config._deep_merge Config.DEFAULT_CONFIG small_model_overlay)
    ["model"; "language"] Config.VNone =
  Config.get Config.DEFAULT_CONFIG ["model"; "language"] Config.VNone.
Proof.
  split; [reflexivity|]. split; [reflexivity|].
  exact (unmentioned_settings_keep_defaults Config.DEFAULT_CONFIG small_model_overlay
           ["model"; "language"] Config.VNone eq_refl eq_refl).
Defined.

Lemma deep_merge_idempotent_witness :
  well_formed (Config.VDict small_model_overlay) = true /\
  Config._deep_merge (Config._deep_merge Config.DEFAULT_CONFIG small_model_overlay)
    small_model_overlay =
  Config._deep_merge Config.DEFAULT_CONFIG small_model_overlay.
Proof.
  split; [reflexivity|].
  exact (deep_merge_is_idempotent Config.DEFAULT_CONFIG small_model_overlay eq_refl).
Defined.

Lemma set_then_get_witness :
  Config.set Config.DEFAULT_CONFIG ["model"; "language"] (Config.VStr "de") =
    (Config.Returned, german_config) /\
  Config.get german_config ["model"; "language"] Config.VNone = Config.VStr "de" /\
  Config.get german_config ["model"; "size"] Config.VNone =
    Config.get Config.DEFAULT_CONFIG ["model"; "size"] Config.VNone.
Proof.
  assert (H : Config.set Config.DEFAULT_CONFIG ["model"; "language"] (Config.VStr "de") =
              (Config.Returned, german_config)) by (vm_compute; reflexivity).
  split; [exact H|].
  destruct (proj1 (set_then_get _ _ _ _ _ H) eq_refl Config.VNone) as [H1 H2].
  split; [exact H1|]. apply H2. reflexivity.
Defined.

Lemma returned_method_is_listed_witness :
  TextInjector.insert_text quiet_env "hello" (injector0, amb0) =
    (Ok TextInjector.CLIPBOARD, inserted_world) /\
  exists st,
    TextInjectorStatus.get_status inserted_world = (Ok st, inserted_world) /\
    In "clipboard" (TextInjectorStatus.available_methods st).
Proof.
  assert (H : TextInjector.insert_text quiet_env "hello" (injector0, amb0) =
              (Ok TextInjector.CLIPBOARD, (fst inserted_world, snd inserted_world)))
    by (vm_compute; reflexivity).
  split; [exact H|].
  destruct (returned_method_is_listed_as_available quiet_env "hello" _ _ _ _ _ H)
    as (st & H1 & H2 & _).
  exists st. split; [exact H1 | exact H2].
Defined.

Lemma waveform_signals_witness :
  AudioCapture.recording (Daemon.audio_capture (fst started_world)) = true /\
  trace (snd (audio_driver [[(1%Z, []); (2%Z, [])]; [(3%Z, [])]]
                (Daemon.audio_capture
                   (DaemonCallbacks.connect_waveform quiet_env (fst started_world)),
                 amb0))) =
  [ EvSignalEmit (update_waveform_signal [Mono 3%Z]);
    EvSignalEmit (update_waveform_signal [Mono 1%Z; Mono 2%Z]) ].
Proof.
  split; [reflexivity|].
  rewrite (proj2 (waveform_signals_follow_the_audio quiet_env (fst started_world) amb0
                    [[(1%Z, []); (2%Z, [])]; [(3%Z, [])]] eq_refl)).
  reflexivity.
Defined.

Lemma stopped_thread_drains_witness :
  StreamingTranscriber.running streaming_backlog = false /\
  StreamingTranscriber.model streaming_backlog = true /\
  map fst (StreamingTranscriber.transcription_queue streaming_backlog) =
    [[Mono 1%Z; Mono 2%Z]; [Mono 3%Z]] /\
  exists tr' a' new,
    StreamingTranscriber._process_queue cpu_only_host 3 (streaming_backlog, hamb0) =
      (Ok tt, (tr', a')) /\
    StreamingTranscriber.transcription_queue tr' = [] /\
    StreamingTranscriber.hlog a' = new /\
    omap transcribed_audio new = [[Mono 3%Z]; [Mono 1%Z; Mono 2%Z]].
Proof.
  assert (Hm : StreamingTranscriber.model streaming_backlog = true)
    by (vm_compute; reflexivity).
  assert (Hq : map fst (StreamingTranscriber.transcription_queue streaming_backlog) =
               [[Mono 1%Z; Mono 2%Z]; [Mono 3%Z]]) by (vm_compute; reflexivity).
  assert (Hn : (length (StreamingTranscriber.transcription_queue streaming_backlog) < 3)%nat)
    by (vm_compute; repeat constructor).
  split; [reflexivity|]. split; [exact Hm|]. split; [exact Hq|].
  destruct (stopped_thread_drains_the_queue cpu_only_host 3 streaming_backlog hamb0
              eq_refl Hm Hn)
    as (tr' & a' & new & H1 & H2 & _ & H3 & H4).
  exists tr', a', new. split; [exact H1|]. split; [exact H2|].
  split; [rewrite H3; apply app_nil_r|]. rewrite H4, Hq. reflexivity.
Defined.

Lemma load_model_outcome_witness :
  StreamingTranscriber.load_model cpu_only_host (streaming0, hamb0) =
    (Ok tt, streaming_loaded) /\
  StreamingTranscriber.device (fst streaming_loaded) = "cpu" /\
  (StreamingTranscriber.model_loaded (fst streaming_loaded) = true /\
   (StreamingTranscriber.model_loaded streaming0 = false ->
    StreamingTranscriber.model (fst streaming_loaded) = true) \/
   StreamingTranscriber.device streaming0 = "cpu" /\
   fst streaming_loaded = streaming0 /\
   exists e,
     StreamingTranscriber.WhisperModel cpu_only_host (StreamingTranscriber.hlog hamb0)
       (StreamingTranscriber.model_identifier_of streaming0) "cpu"
       (StreamingTranscriber.compute_type streaming0) = Raise e).
Proof.
  assert (H : StreamingTranscriber.load_model cpu_only_host (streaming0, hamb0) =
              (Ok tt, (fst streaming_loaded, snd streaming_loaded)))
    by (vm_compute; reflexivity).
  split; [exact H|]. split; [reflexivity|].
  exact (load_model_outcome cpu_only_host _ _ _ _ _ H).
Defined.

Lemma unloaded_transcriber_witness :
  consistent (fst streaming_at_work) /\
  StreamingTranscriber.model (fst streaming_at_work) = true /\
  StreamingTranscriber.running (fst streaming_at_work) = true /\
  length (StreamingTranscriber.transcription_queue (fst streaming_at_work)) = 1%nat /\
  exists tr' a',
    StreamingTranscriber.unload_model cpu_only_host streaming_at_work =
      (Ok tt, (tr', a')) /\
    StreamingTranscriber.model tr' = false /\
    StreamingTranscriber.running tr' = false /\
    StreamingTranscriber.transcription_queue tr' = []%list /\
    StreamingTranscriber.start_processing (tr', a') =
      (Raise (new_exn RuntimeError "Model not loaded. Call load_model() first."),
       (tr', a')) /\
    StreamingTranscriber.transcribe_chunk [Mono 3%Z] (float_of_int 1) (tr', a') =
      (Ok tt, (tr', a')).
Proof.
  assert (H : consistent (fst streaming_at_work)).
  { unfold consistent, settled, thread_alive. vm_compute.
    repeat split; try discriminate; try constructor. }
  split; [exact H|]. split; [vm_compute; reflexivity|]. split; [vm_compute; reflexivity|].
  split; [vm_compute; reflexivity|].
  destruct (unloaded_transcriber_refuses_work cpu_only_host (fst streaming_at_work)
              (snd streaming_at_work) H)
    as (tr' & a' & H1 & H2 & _ & H3 & H4 & H5).
  assert (Hrun : StreamingTranscriber.unload_model cpu_only_host streaming_at_work =
                 (Ok tt, (tr', a')))
    by (rewrite <- H1; destruct streaming_at_work; reflexivity).
  exists tr', a'. split; [exact Hrun|]. split; [exact H2|]. split; [exact H3|].
  split; [|split; [exact H4 | apply H5]].
  apply (f_equal (fun x => StreamingTranscriber.transcription_queue (fst (snd x)))) in Hrun.
  cbn [fst snd] in Hrun. rewrite <- Hrun. vm_compute. reflexivity.
Defined.

Lemma update_data_holds_the_peaks_witness :
  length (WaveformWidget.peak_hold widget4) = Z.to_nat (WaveformWidget.sample_count widget4) /\
  exists w',
    WaveformWidget.update_data length_bar [1; 2; 3; 4; 5; 6; 7; 8; 9]%Z widget4 =
      (WaveformWidget.Returned, w') /\
    length (WaveformWidget.samples w') = 4%nat /\
    WaveformWidget.updates w' = 1%nat.
Proof.
  split; [reflexivity|].
  destruct (update_data_holds_the_peaks length_bar [1; 2; 3; 4; 5; 6; 7; 8; 9]%Z widget4
              eq_refl)
    as (w' & H1 & _ & H2 & H3 & _).
  - discriminate.
  - discriminate.
  - exists w'. split; [exact H1|]. split; [exact H3 | exact H2].
Defined.
